(** * movers: date validation, source locator, table parser and fetch cache

    A shallow embedding of package [movers] (the file holding [MoverList],
    [Date], [cache.Get], [parseTable] and [trToStock]).  Go values are
    modelled as follows.

    - [int], [time.Month]: [Z]; where the Go standard library computes on
      64-bit words the wrap-around is written out ([wrap_int],
      [wrap_uint64]).
    - [string], [[]byte]: [string], one [ascii] per byte.
    - [float64]: [spec_float], the IEEE-754 binary64 values of the
      Standard Library ([prec = 53], [emax = 1024]).
    - [error]: the inductive [error], one constructor per place an error is
      made.
    - [map[string]*cached]: [gmap string cached]; a key owns its entry for
      the life of the map, so the map of records models the pointers.
    - a panic: the [Panics] outcome.

    The packages the code calls (time, utf8, transform, strconv, regexp,
    goquery, fmt, and net/http and encoding/json for the handlers) are
    modelled by the parts of them it reaches, each in a module of its
    name.  What cannot be read off any text is a parameter
    of the section: the clock, the Unicode tables above ASCII,
    [fmt.Sprintf] on formats other than the ones modelled, and what the
    network answers. *)

From Stdlib Require Import ZArith List String Ascii Bool Lia.
From Stdlib Require Import Floats.SpecFloat.
From stdpp Require Import gmap strings.
Import ListNotations.

#[local] Set Warnings "-register-all".
Local Open Scope Z_scope.

(** ** Machine integers *)

(** A Go [int] (64 bits): the representative of [z] in [-2^63, 2^63). *)
Definition wrap_int (z : Z) : Z := (z + 2 ^ 63) mod 2 ^ 64 - 2 ^ 63.

(** A Go [uint64]: the representative of [z] in [0, 2^64). *)
Definition wrap_uint64 (z : Z) : Z := z mod 2 ^ 64.

Definition minInt : Z := - 2 ^ 63.
Definition maxInt : Z := 2 ^ 63 - 1.

(** ** Package time: what [Date.Validate] calls *)

Module time.

Inductive Weekday :=
| Sunday | Monday | Tuesday | Wednesday | Thursday | Friday | Saturday.

(** [Weekday(n)] for [n] in [0, 6]. *)
Definition Weekday_of_Z (n : Z) : Weekday :=
  match n with
  | 0 => Sunday | 1 => Monday | 2 => Tuesday | 3 => Wednesday
  | 4 => Thursday | 5 => Friday | _ => Saturday
  end.

Definition secondsPerDay : Z := 86400.
Definition secondsPerWeek : Z := 7 * secondsPerDay.
Definition daysPer400Years : Z := 365 * 400 + 97.
Definition daysPer100Years : Z := 365 * 100 + 24.
Definition daysPer4Years : Z := 365 * 4 + 1.

(** The year of absolute time zero; chosen so that
    [(year - absoluteZeroYear) mod 400 = (year - 1) mod 400]. *)
Definition absoluteZeroYear : Z := -292277022399.

(** [daysBefore[m]]: days in a non-leap year before month [m+1]. *)
Definition daysBefore : list Z :=
  [0; 31; 59; 90; 120; 151; 181; 212; 243; 273; 304; 334; 365].

(** [func norm(hi, lo, base int) (nhi, nlo int)]: bring [lo] into
    [0, base), carrying into [hi].  Go's [/] truncates ([Z.quot]). *)
Definition norm (hi lo base : Z) : Z * Z :=
  let '(hi, lo) :=
    if lo <? 0 then
      let n := wrap_int (Z.quot (wrap_int (wrap_int (- lo) - 1)) base + 1) in
      (wrap_int (hi - n), wrap_int (lo + wrap_int (n * base)))
    else (hi, lo) in
  if lo >=? base then
    let n := Z.quot lo base in
    (wrap_int (hi + n), wrap_int (lo - wrap_int (n * base)))
  else (hi, lo).

(** [func isLeap(year int) bool]; Go's [%] is the truncated remainder. *)
Definition isLeap (year : Z) : bool :=
  (Z.rem year 4 =? 0) && (negb (Z.rem year 100 =? 0) || (Z.rem year 400 =? 0)).

(** [func daysSinceEpoch(year int) uint64]: days from the absolute epoch
    to 1 January of [year]. *)
Definition daysSinceEpoch (year : Z) : Z :=
  let y := wrap_uint64 (year - absoluteZeroYear) in
  let n := y / 400 in
  let y := wrap_uint64 (y - wrap_uint64 (400 * n)) in
  let d := wrap_uint64 (daysPer400Years * n) in
  let n := y / 100 in
  let y := wrap_uint64 (y - wrap_uint64 (100 * n)) in
  let d := wrap_uint64 (d + wrap_uint64 (daysPer100Years * n)) in
  let n := y / 4 in
  let y := wrap_uint64 (y - wrap_uint64 (4 * n)) in
  let d := wrap_uint64 (d + wrap_uint64 (daysPer4Years * n)) in
  let n := y in
  wrap_uint64 (d + wrap_uint64 (365 * n)).

(** A [time.Time] in UTC, held by what [t.abs()] returns: the seconds
    since the absolute epoch, a [uint64]. *)
Record Time := { abs : Z }.

(** [time.Date(year, month, day, 0, 0, 0, 0, time.UTC)].  Month and day
    may be outside their usual ranges and are normalised: the month by
    [norm], the day by being added to the day count.  Hour, minute, second
    and nanosecond are zero here and [norm] leaves them so. *)
Definition Date (year month day : Z) : Time :=
  let m := wrap_int (month - 1) in
  let '(year, m) := norm year m 12 in
  let month := m + 1 in
  let d := daysSinceEpoch year in
  let d := wrap_uint64 (d + nth (Z.to_nat (month - 1)) daysBefore 0) in
  let d := if isLeap year && (3 <=? month) then wrap_uint64 (d + 1) else d in
  let d := wrap_uint64 (d + wrap_uint64 (day - 1)) in
  {| abs := wrap_uint64 (d * secondsPerDay) |}.

(** [func absWeekday(abs uint64) Weekday]: 1 January of the absolute year
    was a Monday. *)
Definition absWeekday (a : Z) : Weekday :=
  let sec := wrap_uint64 (a + 1 * secondsPerDay) mod secondsPerWeek in
  Weekday_of_Z (sec / secondsPerDay).

(** [func (t Time) Weekday() Weekday]. *)
Definition Weekday_of (t : Time) : Weekday := absWeekday (abs t).

End time.

(** ** Errors *)

(** One constructor per place the package makes or passes on an error. *)
Inductive error :=
| ErrInvalidYear                 (* errors.New(`invalid year`) *)
| ErrInvalidDay                  (* errors.New(`invalid day`) *)
| ErrWeekend                     (* `Movers data is not available on weekends` *)
| ErrTransport (msg : string)    (* netClient.Get failed *)
| ErrStatus (code : Z)           (* "status code error: %d %s" *)
| ErrRead (msg : string)         (* goquery.NewDocumentFromReader failed *)
| ErrColumns (got : nat)         (* `expected 6 columns, got %d` *)
| ErrNameTicker (got : nat)      (* `expected ... to have 3 elements, got %d` *)
| ErrSyntax (fn : string) (s : string)   (* strconv: invalid syntax *)
| ErrRange (fn : string) (s : string).   (* strconv: value out of range *)

(** The classes of the error taxonomy. *)
Inductive ErrorClass :=
| InvalidDate | WeekendUnavailable | NetworkError | BadStatus
| MalformedDocument | ColumnCountMismatch | NameTickerFormat
| NumericParseError.

Definition classify (e : error) : ErrorClass :=
  match e with
  | ErrInvalidYear | ErrInvalidDay => InvalidDate
  | ErrWeekend => WeekendUnavailable
  | ErrTransport _ => NetworkError
  | ErrStatus _ => BadStatus
  | ErrRead _ => MalformedDocument
  | ErrColumns _ => ColumnCountMismatch
  | ErrNameTicker _ => NameTickerFormat
  | ErrSyntax _ _ | ErrRange _ _ => NumericParseError
  end.

(** What a call does: it returns, or it panics. *)
Inductive outcome (A : Type) :=
| Returns (a : A)
| Panics (msg : string).
Arguments Returns {A} a.
Arguments Panics {A} msg.

(** ** Bytes and runes *)

Local Open Scope string_scope.
Local Open Scope Z_scope.

(** The value of a byte. *)
Definition byte_val (c : ascii) : Z := Z.of_N (N_of_ascii c).

(** [utf8.RuneError], U+FFFD, and its encoding. *)
Definition RuneError : Z := 65533.
Definition RuneError_utf8 : string :=
  String (ascii_of_N 239) (String (ascii_of_N 191) (String (ascii_of_N 189) "")).

Module utf8.

(** Continuation bytes lie in [locb, hicb]. *)
Definition locb : Z := 128.
Definition hicb : Z := 191.

(** What the table [first] and [acceptRanges] say of a leading byte at or
    above [RuneSelf]: the length of the sequence and the range the second
    byte must lie in; [None] marks an invalid leading byte. *)
Definition first (p0 : Z) : option (nat * Z * Z) :=
  if (194 <=? p0) && (p0 <=? 223) then Some (2%nat, locb, hicb)
  else if p0 =? 224 then Some (3%nat, 160, hicb)
  else if (225 <=? p0) && (p0 <=? 236) then Some (3%nat, locb, hicb)
  else if p0 =? 237 then Some (3%nat, locb, 159)
  else if (238 <=? p0) && (p0 <=? 239) then Some (3%nat, locb, hicb)
  else if p0 =? 240 then Some (4%nat, 144, hicb)
  else if (241 <=? p0) && (p0 <=? 243) then Some (4%nat, locb, hicb)
  else if p0 =? 244 then Some (4%nat, locb, 143)
  else None.

Definition in_range (lo hi b : Z) : bool := (lo <=? b) && (b <=? hi).

(** [func DecodeRune(p []byte) (r rune, size int)]. *)
Definition DecodeRune (p : string) : Z * nat :=
  match p with
  | "" => (RuneError, 0%nat)
  | String c0 p1 =>
    let p0 := byte_val c0 in
    if p0 <? 128 then (p0, 1%nat)
    else
      match first p0 with
      | None => (RuneError, 1%nat)
      | Some (sz, lo, hi) =>
        match p1 with
        | "" => (RuneError, 1%nat)
        | String c1 p2 =>
          let b1 := byte_val c1 in
          if negb (in_range lo hi b1) then (RuneError, 1%nat)
          else if (sz <=? 2)%nat then
            (Z.lor (Z.shiftl (Z.land p0 31) 6) (Z.land b1 63), 2%nat)
          else
            match p2 with
            | "" => (RuneError, 1%nat)
            | String c2 p3 =>
              let b2 := byte_val c2 in
              if negb (in_range locb hicb b2) then (RuneError, 1%nat)
              else if (sz <=? 3)%nat then
                (Z.lor (Z.lor (Z.shiftl (Z.land p0 15) 12)
                              (Z.shiftl (Z.land b1 63) 6))
                       (Z.land b2 63), 3%nat)
              else
                match p3 with
                | "" => (RuneError, 1%nat)
                | String c3 _ =>
                  let b3 := byte_val c3 in
                  if negb (in_range locb hicb b3) then (RuneError, 1%nat)
                  else
                    (Z.lor (Z.lor (Z.lor (Z.shiftl (Z.land p0 7) 18)
                                         (Z.shiftl (Z.land b1 63) 12))
                                  (Z.shiftl (Z.land b2 63) 6))
                           (Z.land b3 63), 4%nat)
                end
            end
        end
      end
  end.

End utf8.

Module transform.

(** What the loop of [removeF.Transform] is doing at a byte of [src]:
    decoding a new rune, or passing over the rest of a rune it has decided
    to copy or to drop. *)
Inductive mode :=
| Decode
| Copy (left : nat)
| Drop (left : nat).

(** The mode for the [left] bytes of a rune after its first. *)
Definition rest_of (keep : bool) (left : nat) : mode :=
  match left with
  | O => Decode
  | S _ => if keep then Copy left else Drop left
  end.

(** [func (t removeF) Transform(dst, src []byte, atEOF bool)] with
    [atEOF = true], as the bytes written to [dst]: [room] is
    [len(dst) - nDst].  A rune [r] with [t r] is dropped.  A byte that
    starts no valid encoding is read as [RuneError] and, unless dropped,
    written as the three bytes of U+FFFD.  Running out of room stops the
    loop ([ErrShortDst]). *)
Fixpoint Transform (t : Z -> bool) (m : mode) (room : nat) (src : string)
  : string :=
  match src with
  | "" => ""
  | String c rest =>
    match m with
    | Copy k => String c (Transform t (rest_of true (Nat.pred k)) room rest)
    | Drop k => Transform t (rest_of false (Nat.pred k)) room rest
    | Decode =>
      let '(r, sz) := utf8.DecodeRune src in
      if (128 <=? byte_val c) && (sz =? 1)%nat then
        if t r then Transform t Decode room rest
        else if (room <? 3)%nat then ""
        else RuneError_utf8 ++ Transform t Decode (room - 3) rest
      else if t r then Transform t (rest_of false (Nat.pred sz)) room rest
      else if (room <? sz)%nat then ""
      else String c (Transform t (rest_of true (Nat.pred sz)) (room - sz) rest)
    end
  end.

End transform.

(** ** Package strconv *)

Module strconv.

Definition is_digit (c : ascii) : bool :=
  (48 <=? byte_val c) && (byte_val c <=? 57).

(** The value of a string of decimal digits read left to right from [acc];
    [None] when a byte is no digit. *)
Fixpoint digits_from (acc : Z) (s : string) : option Z :=
  match s with
  | "" => Some acc
  | String c rest =>
    if is_digit c then digits_from (acc * 10 + (byte_val c - 48)) rest
    else None
  end.

(** A leading sign: whether it is ['-'], and the rest. *)
Definition split_sign (s : string) : bool * string :=
  match s with
  | String "-" rest => (true, rest)
  | String "+" rest => (false, rest)
  | _ => (false, s)
  end.

(** Whether the digits of [s] before its first byte that is no digit
    take the number read from [acc] beyond a [uint64]: [ParseUint] reads
    the bytes in order and returns the range error at the digit that
    overflows, before it has seen a later byte that is no digit. *)
Fixpoint overflows (acc : Z) (s : string) : bool :=
  match s with
  | "" => false
  | String c rest =>
    if is_digit c then
      let n := acc * 10 + (byte_val c - 48) in
      (2 ^ 64 <=? n) || overflows n rest
    else false
  end.

(** [func Atoi(s string) (int, error)] on a 64-bit platform: an optional
    sign and one or more decimal digits give their value, or [ErrRange]
    when it does not fit an [int]; a byte that is no digit gives
    [ErrSyntax], unless the digits before it have overflowed already.
    The short strings of the fast path (under 19 bytes, too few to
    overflow) and the long ones handed to [ParseInt] come out the same. *)
Definition Atoi (s : string) : Z + error :=
  let '(neg, body) := split_sign s in
  match body with
  | "" => inr (ErrSyntax "Atoi" s)
  | _ =>
    match digits_from 0 body with
    | None =>
      if overflows 0 body then inr (ErrRange "Atoi" s)
      else inr (ErrSyntax "Atoi" s)
    | Some n =>
      let v := if neg then - n else n in
      if (minInt <=? v) && (v <=? maxInt) then inl v
      else inr (ErrRange "Atoi" s)
    end
  end.

(** The digits of a decimal mantissa: the integer they spell with the
    point taken out, and the number of digits after the point.  [seen]
    says whether a digit was read, [frac] whether the point was. *)
Fixpoint mantissa (s : string) (acc : Z) (scale : nat) (seen frac : bool)
  : option (Z * nat) :=
  match s with
  | "" => if seen then Some (acc, scale) else None
  | String c rest =>
    if is_digit c then
      mantissa rest (acc * 10 + (byte_val c - 48))
               (if frac then S scale else scale) true frac
    else if Ascii.eqb c "." then
      if frac then None else mantissa rest acc scale seen true
    else None
  end.

(** The binary64 nearest to [m / 10^scale] (ties to even), negated when
    [neg]: the quotient of two integers, correctly rounded. *)
Definition nearest_float64 (neg : bool) (m : Z) (scale : nat) : spec_float :=
  match m with
  | Z0 => S754_zero neg
  | _ =>
    let '(q, e, l) := SFdiv_core_binary 53 1024 m 0 (10 ^ Z.of_nat scale) 0 in
    binary_round_aux 53 1024 neg q e l
  end.

(** [func ParseFloat(s string, bitSize int) (float64, error)] with
    [bitSize = 64], on strings of digits, ['+'], ['-'], ['.'] and bytes
    at or above 128: an optional sign, then digits with at most one point
    and at least one digit, gives the nearest binary64; a value that
    rounds beyond the largest binary64 gives [ErrRange]; anything else,
    [ErrSyntax].  Exponents, hexadecimal mantissas, underscores,
    infinities and NaN need an ASCII letter or underscore, which no
    string reaching this function holds (lemma
    [filterNonNumeric_alphabet]). *)
Definition ParseFloat (s : string) : spec_float + error :=
  let '(neg, body) := split_sign s in
  match mantissa body 0 0 false false with
  | None => inr (ErrSyntax "ParseFloat" s)
  | Some (m, scale) =>
    match nearest_float64 neg m scale with
    | S754_infinity _ | S754_nan => inr (ErrRange "ParseFloat" s)
    | f => inl f
    end
  end.

End strconv.

(** ** Package regexp, for the pattern of [nameAndSymbolPattern] *)

Module regexp.

(** A class of single characters. *)
Inductive class :=
| Dot                (* [.]: any character but newline *)
| Space              (* [\s]: tab, newline, form feed, carriage return, space *)
| Lit (c : ascii).   (* a literal character *)

(** A pattern is a sequence of items.  This covers what the package's
    pattern is built from: single characters, greedy [+] over a class,
    and capture parentheses. *)
Inductive item :=
| One (c : class)
| Plus (c : class)
| Open               (* [(] *)
| Close.             (* [)] *)

Definition accepts (c : class) (a : ascii) : bool :=
  match c with
  | Dot => negb (Ascii.eqb a (ascii_of_N 10))
  | Space =>
    let b := byte_val a in
    (b =? 9) || (b =? 10) || (b =? 12) || (b =? 13) || (b =? 32)
  | Lit l => Ascii.eqb a l
  end.

(** Match [items] at the head of [s], which starts at offset [pos] of the
    subject; the result is the offsets of the parentheses passed, latest
    first, and the offset where the match ends.  Alternatives are tried
    in the order of a backtracking matcher, which is the leftmost-first
    order package regexp promises: a greedy [+] first takes one more
    character, and gives it back only when the rest fails. *)
Fixpoint match_here (items : list item)
  : string -> nat -> list nat -> option (list nat * nat) :=
  match items with
  | [] => fun _ pos marks => Some (marks, pos)
  | Open :: rest | Close :: rest =>
    fun s pos marks => match_here rest s pos (pos :: marks)
  | One c :: rest =>
    fun s pos marks =>
      match s with
      | String a s' =>
        if accepts c a then match_here rest s' (S pos) marks else None
      | "" => None
      end
  | Plus c :: rest =>
    let continue := match_here rest in
    fix plus (s : string) (pos : nat) (marks : list nat) {struct s} :=
      match s with
      | String a s' =>
        if accepts c a then
          match plus s' (S pos) marks with
          | Some r => Some r
          | None => continue s' (S pos) marks
          end
        else None
      | "" => None
      end
  end.

(** The leftmost start at which [items] match. *)
Fixpoint search (items : list item) (s : string) (pos : nat)
  : option (nat * list nat * nat) :=
  match match_here items s pos [] with
  | Some (marks, stop) => Some (pos, marks, stop)
  | None =>
    match s with
    | String _ s' => search items s' (S pos)
    | "" => None
    end
  end.

(** The substrings between consecutive pairs of offsets, given latest
    first: [... o2 c2 o1 c1] read backwards. *)
Fixpoint groups (s : string) (marks : list nat) (acc : list string)
  : list string :=
  match marks with
  | close :: open :: rest =>
    groups s rest (substring open (close - open) s :: acc)
  | _ => acc
  end.

(** [func (re *Regexp) FindStringSubmatch(s string) []string]: the text
    of the leftmost match and of each group; [nil] without a match. *)
Definition FindStringSubmatch (items : list item) (s : string) : list string :=
  match search items s 0 with
  | None => []
  | Some (start, marks, stop) =>
    substring start (stop - start) s :: groups s marks []
  end.

End regexp.

(** ** Packages html, cascadia and goquery: the parsed document *)

Module goquery.

(** [html.Node]: the tree the HTML parser builds.  An element has its tag
    (in lower case, as the parser leaves it), its attributes and its
    children. *)
Inductive Node :=
| ElementNode (tag : string) (attr : list (string * string)) (children : list Node)
| TextNode (data : string)
| CommentNode (data : string).

(** What reading the document gives: the children of the document node,
    or the reader's error. *)
Inductive Reader :=
| ReadFails (msg : string)
| Html (roots : list Node).

(** [func NewDocumentFromReader(r io.Reader)]: the document, or the
    error of the reader. *)
Definition NewDocumentFromReader (r : Reader) : list Node + error :=
  match r with
  | ReadFails msg => inr (ErrRead msg)
  | Html roots => inl roots
  end.

Definition is_space (c : ascii) : bool :=
  let b := byte_val c in
  (b =? 32) || (b =? 9) || (b =? 10) || (b =? 12) || (b =? 13).

(** The words of [s] between white space; [cur] is the word being read,
    backwards. *)
Fixpoint fields (s : string) (cur : list ascii) : list string :=
  let flush rest :=
    match cur with
    | [] => rest
    | _ => string_of_list_ascii (rev cur) :: rest
    end in
  match s with
  | "" => flush []
  | String c s' =>
    if is_space c then flush (fields s' []) else fields s' (c :: cur)
  end.

(** A selector of the two forms the package uses, and their descendant
    combination: [tr], [table.mdcTable], [a b]. *)
Inductive Selector :=
| Tag (tag : string)
| TagClass (tag cls : string)
| Descendant (a b : Selector).

Definition has_tag (t : string) (n : Node) : bool :=
  match n with
  | ElementNode tag _ _ => String.eqb tag t
  | _ => false
  end.

(** The class selector: some [class] attribute holds [cls] as one of its
    words. *)
Definition has_class (cls : string) (n : Node) : bool :=
  match n with
  | ElementNode _ attr _ =>
    existsb (fun kv => String.eqb (fst kv) "class"
                       && existsb (String.eqb cls) (fields (snd kv) []))
            attr
  | _ => false
  end.

(** [Selector.Match] at a node whose ancestors are [up], nearest first. *)
Fixpoint Match (s : Selector) (up : list Node) (n : Node) : bool :=
  match s with
  | Tag t => has_tag t n
  | TagClass t cls => has_tag t n && has_class cls n
  | Descendant a b =>
    Match b up n &&
    (fix some_ancestor (up : list Node) : bool :=
       match up with
       | [] => false
       | p :: up' => Match a up' p || some_ancestor up'
       end) up
  end.

(** [Selector.MatchAll]: [n] and its descendants that match, in document
    order. *)
Fixpoint MatchAll (s : Selector) (up : list Node) (n : Node) : list Node :=
  (if Match s up n then [n] else []) ++
  match n with
  | ElementNode _ _ children => flat_map (MatchAll s (n :: up)) children
  | _ => []
  end.

(** [func (s *Selection) Find(selector string) *Selection] on the
    document: the matching nodes below the document node. *)
Definition Find (s : Selector) (roots : list Node) : list Node :=
  flat_map (MatchAll s []) roots.

(** [Find] on a selection of one node: the matching nodes below it.  The
    node's own ancestors are not given; a selector without a combinator
    does not look at them. *)
Definition FindIn (s : Selector) (n : Node) : list Node :=
  match n with
  | ElementNode _ _ children => flat_map (MatchAll s [n]) children
  | _ => []
  end.

(** [func (s *Selection) Text() string] of one node: the data of the text
    nodes at and below it, in document order. *)
Fixpoint Text (n : Node) : string :=
  match n with
  | TextNode data => data
  | CommentNode _ => ""
  | ElementNode _ _ children =>
    (fix all (l : list Node) : string :=
       match l with
       | [] => ""
       | c :: l' => Text c ++ all l'
       end) children
  end.

(** [func (s *Selection) Slice(start, end int) *Selection] with
    [end = ToEnd]: the slice expression [s.Nodes[start:len(s.Nodes)]],
    which panics when [start] exceeds the length. *)
Definition Slice_ToEnd (start : nat) (nodes : list Node) : outcome (list Node) :=
  if (length nodes <? start)%nat
  then Panics "runtime error: slice bounds out of range"
  else Returns (skipn start nodes).

End goquery.

(** ** Package fmt: the verbs of the two templates *)

Module fmt.

(** A piece of a format: a literal byte, or [%d] with its zero flag and
    width ([%d] is [Verb_d false None], [%02d] is [Verb_d true (Some 2)]). *)
Inductive piece :=
| Literal (c : ascii)
| Verb_d (zero : bool) (wid : option nat).

Definition digit_val (c : ascii) : nat := Z.to_nat (byte_val c - 48).

(** Read a directive after its [%]: flag [0], width, verb [d].  [None]
    for every other directive. *)
Fixpoint directive (s : string) (zero : bool) (wid : option nat)
  : option (piece * string) :=
  match s with
  | "" => None
  | String c rest =>
    if Ascii.eqb c "d" then Some (Verb_d zero wid, rest)
    else if strconv.is_digit c then
      match wid with
      | None =>
        if Ascii.eqb c "0" then
          if zero then None else directive rest true None
        else directive rest zero (Some (digit_val c))
      | Some w => directive rest zero (Some (w * 10 + digit_val c)%nat)
      end
    else None
  end.

(** The pieces of a format; [None] when it holds a directive outside the
    fragment.  [fuel] bounds the number of pieces by the length. *)
Fixpoint pieces (fuel : nat) (s : string) : option (list piece) :=
  match fuel with
  | O => match s with "" => Some [] | _ => None end
  | S fuel' =>
    match s with
    | "" => Some []
    | String c rest =>
      if Ascii.eqb c "%" then
        match rest with
        | String "%" rest' =>
          option_map (cons (Literal "%")) (pieces fuel' rest')
        | _ =>
          match directive rest false None with
          | None => None
          | Some (p, rest') => option_map (cons p) (pieces fuel' rest')
          end
        end
      else option_map (cons (Literal c)) (pieces fuel' rest)
    end
  end.

(** The decimal digits of [u >= 0], written right to left as [fmtInteger]
    does; a [uint64] has at most 20. *)
Fixpoint digits (fuel : nat) (u : Z) (acc : string) : string :=
  match fuel with
  | O => acc
  | S fuel' =>
    let acc' := String (ascii_of_N (Z.to_N (48 + u mod 10))) acc in
    if u <? 10 then acc' else digits fuel' (u / 10) acc'
  end.

Fixpoint repeat_char (c : ascii) (n : nat) : string :=
  match n with
  | O => ""
  | S k => String c (repeat_char c k)
  end.

(** [func (f *fmt) fmtInteger] for a signed integer in base 10: with the
    zero flag and a width, the digits are padded with zeros to the width
    less one for a minus sign; what is still short of the width is padded
    with spaces on the left. *)
Definition fmtInteger (zero : bool) (wid : option nat) (n : Z) : string :=
  let negative := n <? 0 in
  let ds := digits 20 (Z.abs n) "" in
  let prec :=
    match wid with
    | Some w => if zero then (if negative then Nat.pred w else w) else O
    | None => O
    end in
  let ds := repeat_char "0" (prec - String.length ds) ++ ds in
  let body := if negative then String "-" ds else ds in
  repeat_char " " (match wid with Some w => w | None => O end - String.length body)
  ++ body.

(** The output for [ps] with the operands [args]; [None] when the verbs
    and the operands do not pair off. *)
Fixpoint render (ps : list piece) (args : list Z) : option string :=
  match ps with
  | [] => match args with [] => Some "" | _ => None end
  | Literal c :: ps' => option_map (String c) (render ps' args)
  | Verb_d zero wid :: ps' =>
    match args with
    | [] => None
    | a :: args' =>
      option_map (String.append (fmtInteger zero wid a)) (render ps' args')
    end
  end.

(** [fmt.Sprintf(format, args...)] for [int] operands, where the format
    is made of literal bytes, [%%] and [%d] with an optional zero flag and
    width, one verb per operand; [None] otherwise. *)
Definition Sprintf_d (format : string) (args : list Z) : option string :=
  match pieces (String.length format) format with
  | None => None
  | Some ps => render ps args
  end.

End fmt.

(** ** Package movers *)

(** [type MoverList string]: a list is named by the format of its URL. *)
Definition MoverList := string.

Definition USCompositeGainers : MoverList :=
  "http://www.wsj.com/mdc/public/page/2_3021-gaincomp-gainer-%d%02d%02d.html?mod=mdc_pastcalendar".

Definition USCompositeLosers : MoverList :=
  "http://www.wsj.com/mdc/public/page/2_3021-losecomp-loser-%d%02d%02d.html?mod=mdc_pastcalendar".

(** [regexp.MustCompile(`(.+)\s\((.+)\)`)]. *)
Definition nameAndSymbolPattern : list regexp.item :=
  [regexp.Open; regexp.Plus regexp.Dot; regexp.Close;
   regexp.One regexp.Space; regexp.One (regexp.Lit "(");
   regexp.Open; regexp.Plus regexp.Dot; regexp.Close;
   regexp.One (regexp.Lit ")")].

(** [type Stock struct]. *)
Record Stock := {
  Ticker : string;
  Name : string;
  Price : spec_float;
  PctChange : spec_float;
  Volume : Z
}.

(** [type Date struct { Year int; Month time.Month; Day int }]. *)
Record Date := { Year : Z; Month : Z; Day : Z }.

(** [type cached struct { sync.Mutex; data []Stock }]. *)
Record cached := { cached_locked : bool; cached_data : list Stock }.

(** [type cache struct { sync.Mutex; data map[string]*cached }]. *)
Record cache := { cache_locked : bool; cache_data : gmap string cached }.

(** [&cached{}]. *)
Definition new_cached : cached := {| cached_locked := false; cached_data := [] |}.

(** What [netClient.Get] gives back: an error of the transport, or a
    response with its status code and the document its body reads as. *)
Inductive Response :=
| TransportError (msg : string)
| HTTP (StatusCode : Z) (Body : goquery.Reader).

(** The selector [table.mdcTable tbody tr]. *)
Definition rows_selector : goquery.Selector :=
  goquery.Descendant
    (goquery.Descendant (goquery.TagClass "table" "mdcTable") (goquery.Tag "tbody"))
    (goquery.Tag "tr").

(** [func (s *Selection) EachWithBreak(f func(int, *Selection) bool)]:
    [f] is called on each node in turn until it returns [false].  The
    variables the closure assigns to are the state [st]. *)
Fixpoint EachWithBreak {St : Type} (f : nat -> goquery.Node -> St -> St * bool)
  (i : nat) (nodes : list goquery.Node) (st : St) : St :=
  match nodes with
  | [] => st
  | n :: rest =>
    let '(st', continue) := f i n st in
    if continue then EachWithBreak f (S i) rest st' else st'
  end.

(** ** The calendar, by counting *)

(** These definitions follow the words of the specification, not the
    code: a real date, and the weekday of a date found by counting days
    from a known one. *)

(** The Gregorian rule. *)
Definition leap_year (y : Z) : bool :=
  (y mod 4 =? 0) && (negb (y mod 100 =? 0) || (y mod 400 =? 0)).

Definition year_length (y : Z) : Z := if leap_year y then 366 else 365.

Definition days_in_month (y m : Z) : Z :=
  match m with
  | 1 | 3 | 5 | 7 | 8 | 10 | 12 => 31
  | 4 | 6 | 9 | 11 => 30
  | 2 => if leap_year y then 29 else 28
  | _ => 0
  end.

(** A (year, month, day) that is a date of the Gregorian calendar. *)
Definition real_date (y m d : Z) : Prop :=
  1 <= m <= 12 /\ 1 <= d <= days_in_month y m.

(** The days in the [n] years from [first] on. *)
Fixpoint days_in_years (first : Z) (n : nat) : Z :=
  match n with
  | O => 0
  | S k => year_length first + days_in_years (first + 1) k
  end.

(** The days in the [n] months of year [y] from month [first] on. *)
Fixpoint days_in_months (y first : Z) (n : nat) : Z :=
  match n with
  | O => 0
  | S k => days_in_month y first + days_in_months y (first + 1) k
  end.

(** The days from 1 January 2010 to the date. *)
Definition day_number (y m d : Z) : Z :=
  days_in_years 2010 (Z.to_nat (y - 2010))
  + days_in_months y 1 (Z.to_nat (m - 1))
  + (d - 1).

(** The weekday of a date from 2010 on: 1 January 2010 was a Friday. *)
Definition calendar_weekday (y m d : Z) : time.Weekday :=
  time.Weekday_of_Z ((5 + day_number y m d) mod 7).

(** The last year that lies whole within the range of [time.Time] (the
    seconds since the absolute epoch are a [uint64]). *)
Definition lastWholeYear : Z := 292277026595.

(** ** Decimal numerals, by position *)

(** The [width] decimal digits of [n], most significant first, with
    leading zeros. *)
Fixpoint decimal (width : nat) (n : Z) : string :=
  match width with
  | O => ""
  | S k =>
    String (ascii_of_N (Z.to_N (48 + (n / 10 ^ Z.of_nat k) mod 10))) (decimal k n)
  end.

(** The two templates around their three verbs. *)
Definition gainers_prefix : string :=
  "http://www.wsj.com/mdc/public/page/2_3021-gaincomp-gainer-".
Definition losers_prefix : string :=
  "http://www.wsj.com/mdc/public/page/2_3021-losecomp-loser-".
Definition template_suffix : string := ".html?mod=mdc_pastcalendar".

(** ** Values of [float64] *)

(** [0 <= f] as Go compares: true of both zeros, false of NaN. *)
Definition float_nonneg (f : spec_float) : Prop :=
  SFleb (S754_zero false) f = true.

(** [f] is the finite binary64 [m * 2^e] and lies within half a unit in
    the last place of [num / den]: it is a binary64 nearest to it. *)
Definition nearest_to (num den : Z) (f : spec_float) : Prop :=
  exists m e,
    f = S754_finite false m (- Z.of_nat e) /\
    2 ^ 52 <= Z.pos m < 2 ^ 53 /\
    2 * Z.abs (Z.pos m * den - num * 2 ^ Z.of_nat e) <= den.

(** ** Documents and servers to run the code on *)

Module Examples.

Definition td (text : string) : goquery.Node :=
  goquery.ElementNode "td" [] [goquery.TextNode text].

Definition th (text : string) : goquery.Node :=
  goquery.ElementNode "th" [] [goquery.TextNode text].

Definition tr (cells : list goquery.Node) : goquery.Node :=
  goquery.ElementNode "tr" [] cells.

(** A page whose table carries the class [mdcTable]. *)
Definition page (rows : list goquery.Node) : list goquery.Node :=
  [goquery.ElementNode "html" []
     [goquery.ElementNode "head" [] [];
      goquery.ElementNode "body" []
        [goquery.ElementNode "table" [("class", "mdcTable")]
           [goquery.ElementNode "tbody" [] rows]]]].

(** A page with no table at all. *)
Definition page_without_table : list goquery.Node :=
  [goquery.ElementNode "html" []
     [goquery.ElementNode "head" [] [];
      goquery.ElementNode "body" []
        [goquery.ElementNode "p" [] [goquery.TextNode "Not found"]]]].

Definition header_row : goquery.Node :=
  tr (map th ["#"; "Issue"; "Price"; "Chg"; "% Chg"; "Volume"]).

Definition acme_row : goquery.Node :=
  tr (map td ["1"; "Acme Corp (ACME)"; "$12.34"; "x"; "+5.67%"; "1,234"]).

(** A row whose name cell has no ticker in parentheses. *)
Definition nameless_row : goquery.Node :=
  tr (map td ["2"; "Acme Corp"; "$12.34"; "x"; "+5.67%"; "1,234"]).

(** A row of five cells. *)
Definition short_row : goquery.Node :=
  tr (map td ["3"; "Bolt Inc (BOLT)"; "$1.00"; "x"; "-2.00%"]).

(** A row whose price and volume carry a minus sign. *)
Definition negative_row : goquery.Node :=
  tr (map td ["1"; "Acme Corp (ACME)"; "$-12.34"; "x"; "+5.67%"; "-1,234"]).

Definition acme : Stock :=
  {| Ticker := "ACME"; Name := "Acme Corp";
     Price := S754_finite false 6946802425218990 (-49);
     PctChange := S754_finite false 6383852471797678 (-50);
     Volume := 1234 |}.

(** No rune at or above 128 counts as a number: enough for ASCII pages. *)
Definition ascii_only : Z -> bool := fun _ => false.

Definition no_other_format : string -> list Z -> string := fun _ _ => "".

(** A server that answers every request with status 200 and the page of
    the one row of Acme. *)
Definition acme_server : list string -> string -> Response :=
  fun _ _ => HTTP 200 (goquery.Html (page [header_row; acme_row])).

Definition monday : Date := {| Year := 2021; Month := 3; Day := 15 |}.
Definition february_30 : Date := {| Year := 2021; Month := 2; Day := 30 |}.

Definition gainers_monday : string :=
  "http://www.wsj.com/mdc/public/page/2_3021-gaincomp-gainer-20210315.html?mod=mdc_pastcalendar".

End Examples.

(** ** Package net/http, as the handlers use it *)

Module http.

Definition StatusOK : Z := 200.
Definition StatusBadRequest : Z := 400.
Definition StatusFailedDependency : Z := 424.

(** What one call of [Write] adds to the body.  The text of an error and
    the encoding of the records are not spelt out: a chunk says which
    error, or which records. *)
Inductive chunk :=
| ErrorLine (err : error)          (* [err.Error()] and a newline *)
| JSONLine (stocks : list Stock).  (* the encoding of the slice and a newline *)

(** The bytes of a header key: letters, digits and fifteen marks. *)
Definition validHeaderFieldByte (c : ascii) : bool :=
  let b := byte_val c in
  ((48 <=? b) && (b <=? 57)) || ((65 <=? b) && (b <=? 90))
  || ((97 <=? b) && (b <=? 122))
  || existsb (Z.eqb b) [33; 35; 36; 37; 38; 39; 42; 43; 45; 46; 94; 95; 96; 124; 126].

Fixpoint valid_key (s : string) : bool :=
  match s with
  | "" => true
  | String c rest => validHeaderFieldByte c && valid_key rest
  end.

(** Upper case for the first letter and for a letter after a hyphen,
    lower case for the other letters. *)
Fixpoint canonical (upper : bool) (s : string) : string :=
  match s with
  | "" => ""
  | String c rest =>
    let b := byte_val c in
    let c' :=
      if upper && (97 <=? b) && (b <=? 122) then ascii_of_N (Z.to_N (b - 32))
      else if negb upper && (65 <=? b) && (b <=? 90) then ascii_of_N (Z.to_N (b + 32))
      else c in
    String c' (canonical (Ascii.eqb c' "-") rest)
  end.

(** [http.CanonicalHeaderKey]: a key with a byte that is not of a header
    key is left as it is. *)
Definition CanonicalHeaderKey (s : string) : string :=
  if valid_key s then canonical true s else s.

(** An [http.ResponseWriter] of the server: the header the handler
    works on, the status once it has been sent, the header as it was sent
    with the status, and the chunks written to the body. *)
Record ResponseWriter := {
  rw_header : gmap string string;
  rw_status : option Z;
  rw_sent : gmap string string;
  rw_body : list chunk
}.

(** [w.Header().Set(key, value)]. *)
Definition Header_Set (key value : string) (w : ResponseWriter) : ResponseWriter :=
  {| rw_header := <[CanonicalHeaderKey key := value]> (rw_header w);
     rw_status := rw_status w; rw_sent := rw_sent w; rw_body := rw_body w |}.

(** [w.WriteHeader(code)]: the first call sends the status with the
    header as it is then; a later call changes nothing. *)
Definition WriteHeader (code : Z) (w : ResponseWriter) : ResponseWriter :=
  match rw_status w with
  | Some _ => w
  | None =>
    {| rw_header := rw_header w; rw_status := Some code;
       rw_sent := rw_header w; rw_body := rw_body w |}
  end.

(** [w.Write(b)]: sends the status 200 first when none has been sent. *)
Definition Write (c : chunk) (w : ResponseWriter) : ResponseWriter :=
  let w := WriteHeader StatusOK w in
  {| rw_header := rw_header w; rw_status := rw_status w;
     rw_sent := rw_sent w; rw_body := (rw_body w ++ [c])%list |}.

(** [func Error(w ResponseWriter, error string, code int)], called with
    the text of [err]. *)
Definition Error (w : ResponseWriter) (err : error) (code : Z) : ResponseWriter :=
  let w := Header_Set "Content-Type" "text/plain; charset=utf-8" w in
  let w := Header_Set "X-Content-Type-Options" "nosniff" w in
  let w := WriteHeader code w in
  Write (ErrorLine err) w.

(** A writer nothing has been done with. *)
Definition fresh : ResponseWriter :=
  {| rw_header := ∅; rw_status := None; rw_sent := ∅; rw_body := [] |}.

End http.

(** ** Package encoding/json, as the handlers use it *)

Module json.

(** The values of [float64] that have an encoding: all but the
    infinities and NaN. *)
Definition finite (f : spec_float) : bool :=
  match f with
  | S754_zero _ | S754_finite _ _ _ => true
  | _ => false
  end.

Definition encodable (s : Stock) : bool := finite (Price s) && finite (PctChange s).

(** [json.NewEncoder(w).Encode(&stocks)]: the encoding is made first and
    written with one [Write]; when a record has no encoding nothing is
    written.  The error returned is left out: both callers drop it. *)
Definition Encode (stocks : list Stock) (w : http.ResponseWriter)
  : http.ResponseWriter :=
  if forallb encodable stocks then http.Write (http.JSONLine stocks) w else w.

End json.

(** Both results of [strconv.Atoi]: with a syntax error the number is 0,
    with a range error the nearest [int]. *)
Definition strconv_Atoi (s : string) : Z * option error :=
  match strconv.Atoi s with
  | inl n => (n, None)
  | inr (ErrRange fn t) =>
    (if fst (strconv.split_sign s) then minInt else maxInt, Some (ErrRange fn t))
  | inr err => (0, Some err)
  end.

(** The three patterns of the variables in [routes]. *)

(** [20[0-9]{2}] *)
Definition year_pattern (s : string) : bool :=
  match s with
  | String "2" (String "0" (String a (String b ""))) =>
    strconv.is_digit a && strconv.is_digit b
  | _ => false
  end.

(** [[01]?[0-9]] *)
Definition month_pattern (s : string) : bool :=
  match s with
  | String a "" => strconv.is_digit a
  | String a (String b "") =>
    (Ascii.eqb a "0" || Ascii.eqb a "1") && strconv.is_digit b
  | _ => false
  end.

(** [[0-3]?[0-9]] *)
Definition day_pattern (s : string) : bool :=
  match s with
  | String a "" => strconv.is_digit a
  | String a (String b "") =>
    (48 <=? byte_val a) && (byte_val a <=? 51) && strconv.is_digit b
  | _ => false
  end.

(** ** Requests and servers to run the handlers on *)

Module Requests.

(** The variables of [/gainers/2021-03-15], a Monday, and of
    [/gainers/2021-03-14], the Sunday before. *)
Definition monday : gmap string string :=
  <["year" := "2021"]> (<["month" := "03"]> (<["day" := "15"]> ∅)).
Definition sunday : gmap string string :=
  <["year" := "2021"]> (<["month" := "03"]> (<["day" := "14"]> ∅)).

(** A server whose page has the row of Acme and then a row without a
    ticker. *)
Definition nameless_server : list string -> string -> Response :=
  fun _ _ =>
    HTTP 200 (goquery.Html (Examples.page [Examples.header_row; Examples.acme_row;
                                           Examples.nameless_row])).

(** A server whose page has no table. *)
Definition tableless_server : list string -> string -> Response :=
  fun _ _ => HTTP 200 (goquery.Html Examples.page_without_table).

(** Two calls for the same address, and a third for another. *)
Definition same : list (MoverList * Date) :=
  [(USCompositeGainers, Examples.monday); (USCompositeGainers, Examples.monday)].
Definition three : list (MoverList * Date) :=
  (same ++ [(USCompositeLosers, Examples.monday)])%list.

End Requests.

Section Package.

Local Set Default Proof Using "Type".

(** [time.Now().Year()]. *)
Variable now_year : Z.

(** [unicode.IsNumber] on the runes at and above 128: the tables of
    package unicode. *)
Variable IsNumber_table : Z -> bool.

(** [fmt.Sprintf] on the formats and operands outside [fmt.Sprintf_d]. *)
Variable Sprintf_other : string -> list Z -> string.

(** What [netClient.Get(addr)] comes back with, given the addresses
    requested before it: the remote server and the network. *)
Variable netClient_Get : list string -> string -> Response.

(** [func (d *Date) Validate() error]; [None] is [nil]. *)
Definition Validate (d : Date) : option error :=
  if (Year d >? now_year) || (Year d <? 2010) then Some ErrInvalidYear
  else if (Day d <? 1) || (Day d >? 31) then Some ErrInvalidDay
  else
    match time.Weekday_of (time.Date (Year d) (Month d) (Day d)) with
    | time.Saturday | time.Sunday => Some ErrWeekend
    | _ => None
    end.

(** [func NewDate(year int, month time.Month, day int) (d Date, err error)]. *)
Definition NewDate (year month day : Z) : Date * option error :=
  let d := {| Year := year; Month := month; Day := day |} in
  (d, Validate d).

(** [fmt.Sprintf(format, args...)] for [int] operands. *)
Definition Sprintf (format : string) (args : list Z) : string :=
  match fmt.Sprintf_d format args with
  | Some s => s
  | None => Sprintf_other format args
  end.

(** [func dataURL(list MoverList, d Date) (url string, err error)]. *)
Definition dataURL (mlist : MoverList) (d : Date) : string * option error :=
  match Validate d with
  | Some err => ("", Some err)
  | None => (Sprintf mlist [Year d; Month d; Day d], None)
  end.

(** [unicode.IsNumber]: below 128 the digits [0] to [9]. *)
Definition IsNumber (r : Z) : bool :=
  if r <? 128 then (48 <=? r) && (r <=? 57) else IsNumber_table r.

(** The function given to [transform.RemoveFunc]: [true] for the runes to
    remove, all but ['-'], ['.'] and the numbers. *)
Definition filterNonNumeric (r : Z) : bool :=
  if (r =? 45) || (r =? 46) then false else negb (IsNumber r).

(** The closure of [sel.Find("td").Map] in [trToStock]: the text of cell
    1 as it is, the text of the others through [filterNonNumeric] into a
    buffer of the text's length. *)
Definition cell_text (i : nat) (sel2 : goquery.Node) : string :=
  match i with
  | 1%nat => goquery.Text sel2
  | _ =>
    let t := goquery.Text sel2 in
    transform.Transform filterNonNumeric transform.Decode (String.length t) t
  end.

(** [func trToStock(sel *goquery.Selection) (s Stock, err error)].  With
    an error the record returned is filled in part; its one caller drops
    it, and so does the model. *)
Definition trToStock (sel : goquery.Node) : Stock + error :=
  let data := imap cell_text (goquery.FindIn (goquery.Tag "td") sel) in
  if negb (length data =? 6)%nat then inr (ErrColumns (length data))
  else
    let matches := regexp.FindStringSubmatch nameAndSymbolPattern (nth 1 data "") in
    if negb (length matches =? 3)%nat then inr (ErrNameTicker (length matches))
    else
      match strconv.Atoi (nth 5 data "") with
      | inr err => inr err
      | inl volume =>
        match strconv.ParseFloat (nth 2 data "") with
        | inr err => inr err
        | inl price =>
          match strconv.ParseFloat (nth 4 data "") with
          | inr err => inr err
          | inl pct =>
            inl {| Ticker := nth 2 matches ""; Name := nth 1 matches "";
                   Price := price; PctChange := pct; Volume := volume |}
          end
        end
      end.

(** The closure of [EachWithBreak] in [parseTable], on the variables
    [results] and [err] it assigns to. *)
Definition each_row (i : nat) (sel : goquery.Node)
  (st : list Stock * option error) : (list Stock * option error) * bool :=
  let '(results, _) := st in
  match trToStock sel with
  | inr err => ((results, Some err), false)
  | inl s => ((results ++ [s])%list, None, true)
  end.

(** [func parseTable(data io.Reader) (results []Stock, err error)]. *)
Definition parseTable (data : goquery.Reader)
  : outcome (list Stock * option error) :=
  match goquery.NewDocumentFromReader data with
  | inr err => Returns ([], Some err)
  | inl doc =>
    match goquery.Slice_ToEnd 1 (goquery.Find rows_selector doc) with
    | Panics msg => Panics msg
    | Returns rows => Returns (EachWithBreak each_row 0 rows ([], None))
    end
  end.

(** The part of [cache.Get] after [netClient.Get]. *)
Definition read_response (res : Response) : outcome (list Stock * option error) :=
  match res with
  | TransportError msg => Returns ([], Some (ErrTransport msg))
  | HTTP status body =>
    if negb (status =? 200) then Returns ([], Some (ErrStatus status))
    else parseTable body
  end.

(** The map lookup of [cache.Get] with the entry made on a miss. *)
Definition entry_for (addr : string) (m : gmap string cached)
  : cached * gmap string cached :=
  match m !! addr with
  | Some val => (val, m)
  | None => (new_cached, <[addr := new_cached]> m)
  end.

(** The process as one call of [Get] sees and leaves it: the map of the
    cache and the addresses requested from the server so far. *)
Record World := { entries : gmap string cached; requests : list string }.

(** [func (c *cache) Get(list MoverList, d Date) (results []Stock, err error)]
    called with no other call in flight: each [Lock] succeeds at once and
    every mutex is free again on return. *)
Definition Get (mlist : MoverList) (d : Date) (w : World)
  : outcome (list Stock * option error) * World :=
  match dataURL mlist d with
  | (_, Some err) => (Returns ([], Some err), w)
  | (addr, None) =>
    let '(val, m) := entry_for addr (entries w) in
    if (0 <? length (cached_data val))%nat then
      (Returns (cached_data val, None),
       {| entries := m; requests := requests w |})
    else
      (read_response (netClient_Get (requests w) addr),
       {| entries := m; requests := (requests w ++ [addr])%list |})
  end.

(** [func NewGetter() Getter]: an empty map, and nothing requested yet. *)
Definition NewGetter : World := {| entries := ∅; requests := [] |}.

(** *** Calls of [Get] running together *)

(** Where a goroutine stands in [cache.Get], by the statement it is about
    to run. *)
Inductive pc :=
| AtCacheLock                       (* c.Lock() *)
| AtLookup                          (* dataURL, then the map, holding c *)
| AtEntryLock (addr : string)       (* val.Lock(), holding c *)
| AtCacheUnlock (addr : string)     (* c.Unlock(), holding val *)
| AtCheck (addr : string)           (* if len(val.data) > 0 *)
| AtRequest (addr : string)         (* netClient.Get(addr): the request leaves *)
| InFlight (addr : string) (before : list string)  (* waiting for the response *)
| Finished (r : outcome (list Stock * option error)).

(** A goroutine running [c.Get(list, d)]. *)
Record goroutine := { g_list : MoverList; g_date : Date; g_pc : pc }.

(** The process: the cache with its mutexes, the addresses requested so
    far, and the goroutines. *)
Record State := {
  st_cache : cache;
  st_requests : list string;
  st_goroutines : list goroutine
}.

Definition set_pc (g : goroutine) (p : pc) : goroutine :=
  {| g_list := g_list g; g_date := g_date g; g_pc := p |}.

Definition set_entry_lock (b : bool) (addr : string) (m : gmap string cached)
  : gmap string cached :=
  match m !! addr with
  | Some val => <[addr := {| cached_locked := b; cached_data := cached_data val |}]> m
  | None => m
  end.

(** The statement at [p] of a goroutine running [c.Get(mlist, d)], on the
    cache [c] and the requests [reqs]: what they become and where the
    goroutine stands next; [None] when it waits for a mutex or has
    returned.  The deferred [val.Unlock()] runs with the return, and with
    a panic. *)
Definition transition (mlist : MoverList) (d : Date) (p : pc)
  (c : cache) (reqs : list string) : option (cache * list string * pc) :=
  match p with
  | AtCacheLock =>
    if cache_locked c then None
    else Some ({| cache_locked := true; cache_data := cache_data c |}, reqs, AtLookup)
  | AtLookup =>
    match dataURL mlist d with
    | (_, Some err) =>
      Some ({| cache_locked := false; cache_data := cache_data c |}, reqs,
            Finished (Returns ([], Some err)))
    | (addr, None) =>
      Some ({| cache_locked := cache_locked c;
               cache_data := snd (entry_for addr (cache_data c)) |}, reqs,
            AtEntryLock addr)
    end
  | AtEntryLock addr =>
    match cache_data c !! addr with
    | None => None
    | Some val =>
      if cached_locked val then None
      else Some ({| cache_locked := cache_locked c;
                    cache_data := set_entry_lock true addr (cache_data c) |}, reqs,
                 AtCacheUnlock addr)
    end
  | AtCacheUnlock addr =>
    Some ({| cache_locked := false; cache_data := cache_data c |}, reqs, AtCheck addr)
  | AtCheck addr =>
    match cache_data c !! addr with
    | None => None
    | Some val =>
      if (0 <? length (cached_data val))%nat then
        Some ({| cache_locked := cache_locked c;
                 cache_data := set_entry_lock false addr (cache_data c) |}, reqs,
              Finished (Returns (cached_data val, None)))
      else Some (c, reqs, AtRequest addr)
    end
  | AtRequest addr => Some (c, (reqs ++ [addr])%list, InFlight addr reqs)
  | InFlight addr before =>
    Some ({| cache_locked := cache_locked c;
             cache_data := set_entry_lock false addr (cache_data c) |}, reqs,
          Finished (read_response (netClient_Get before addr)))
  | Finished _ => None
  end.

(** One step of goroutine [i]; [None] when it cannot move or does not
    exist. *)
Definition step (st : State) (i : nat) : option State :=
  match st_goroutines st !! i with
  | None => None
  | Some g =>
    match transition (g_list g) (g_date g) (g_pc g) (st_cache st) (st_requests st) with
    | None => None
    | Some (c, reqs, p) =>
      Some {| st_cache := c; st_requests := reqs;
              st_goroutines := <[i := set_pc g p]> (st_goroutines st) |}
    end
  end.

(** The steps of a schedule, one goroutine after the other; [None] when
    the schedule names a goroutine that cannot move. *)
Fixpoint run (schedule : list nat) (st : State) : option State :=
  match schedule with
  | [] => Some st
  | i :: rest =>
    match step st i with
    | None => None
    | Some st' => run rest st'
    end
  end.

(** A fresh cache and one goroutine per call, none started. *)
Definition start (calls : list (MoverList * Date)) : State :=
  {| st_cache := {| cache_locked := false; cache_data := ∅ |};
     st_requests := [];
     st_goroutines :=
       map (fun c => {| g_list := fst c; g_date := snd c; g_pc := AtCacheLock |}) calls |}.

(** The calls that have returned, with what they returned. *)
Definition returned (st : State) : list (outcome (list Stock * option error)) :=
  omap (fun g => match g_pc g with Finished r => Some r | _ => None end)
       (st_goroutines st).

(** Whether goroutine [i] can take a step. *)
Definition can_move (st : State) (i : nat) : bool :=
  match step st i with
  | Some _ => true
  | None => false
  end.

(** The number of requests made for [addr]. *)
Definition fetches (addr : string) (reqs : list string) : nat :=
  length (filter (fun a => a = addr) reqs).

(** *** Notions the properties are stated with *)

(** Saturday and Sunday. *)
Definition weekend (w : time.Weekday) : bool :=
  match w with
  | time.Saturday | time.Sunday => true
  | _ => false
  end.

(** The rows [parseTable] converts: all but the first. *)
Definition data_rows (doc : list goquery.Node) : list goquery.Node :=
  skipn 1 (goquery.Find rows_selector doc).

(** The cells of a row. *)
Definition cells (row : goquery.Node) : list goquery.Node :=
  goquery.FindIn (goquery.Tag "td") row.

(** Whether a string holds the byte ['-']. *)
Fixpoint has_minus (s : string) : bool :=
  match s with
  | "" => false
  | String c rest => Ascii.eqb c "-" || has_minus rest
  end.

(** Whether every byte of a string passes a test. *)
Fixpoint all_bytes (P : ascii -> bool) (s : string) : bool :=
  match s with
  | "" => true
  | String c rest => P c && all_bytes P rest
  end.

(** Whether a string starts with [k] bytes from 128 on. *)
Fixpoint high_bytes (k : nat) (s : string) : bool :=
  match k, s with
  | O, _ => true
  | S k', String c rest => (128 <=? byte_val c) && high_bytes k' rest
  | S _, "" => false
  end.

(** A digit, ['-'], ['.'], or a byte from 128 on. *)
Definition numeric_byte (c : ascii) : bool :=
  strconv.is_digit c || (byte_val c =? 45) || (byte_val c =? 46)
  || (128 <=? byte_val c).

(** What holds of the source when [Transform] is in mode [m]: while it
    copies the rest of a rune, that rest is there and made of bytes from
    128 on. *)
Definition mode_ok (m : transform.mode) (src : string) : Prop :=
  match m with
  | transform.Copy k => (1 <= k)%nat /\ high_bytes k src = true
  | _ => True
  end.

(** A row whose price cell and volume cell hold no minus sign. *)
Definition unsigned_row (row : goquery.Node) : Prop :=
  has_minus (goquery.Text (nth 2 (cells row) (goquery.TextNode ""))) = false
  /\ has_minus (goquery.Text (nth 5 (cells row) (goquery.TextNode ""))) = false.

(** Whether a node, or one below it, is a [table] of class [mdcTable]. *)
Fixpoint has_marked_table (n : goquery.Node) : bool :=
  (goquery.has_tag "table" n && goquery.has_class "mdcTable" n)
  || match n with
     | goquery.ElementNode _ _ children => existsb has_marked_table children
     | _ => false
     end.

(** The records of a row each hold a price and a volume that are not
    negative. *)
Definition nonnegative (s : Stock) : Prop :=
  float_nonneg (Price s) /\ 0 <= Volume s.

(** The sentence on dates that do not exist, as the specification has
    it: a (year, month, day) that is no real date fails validation with
    InvalidDate. *)
Definition rejects_unreal_dates : Prop :=
  forall y m d,
    ~ real_date y m d ->
    exists err, snd (NewDate y m d) = Some err /\ classify err = InvalidDate.

(** The sentence on rows of the wrong length, as the specification has
    it: if some data row has other than 6 cells, the parse fails with a
    ColumnCountMismatch and returns no record. *)
Definition aborts_without_records (doc : list goquery.Node) : Prop :=
  (exists row, In row (data_rows doc) /\ length (cells row) <> 6%nat) ->
  exists err, parseTable (goquery.Html doc) = Returns ([], Some err)
              /\ classify err = ColumnCountMismatch.

(** The sentence on signs, as the specification has it: every record of
    a successful parse has a price and a volume that are not negative. *)
Definition records_nonnegative (doc : list goquery.Node) : Prop :=
  forall results,
    parseTable (goquery.Html doc) = Returns (results, None) ->
    Forall nonnegative results.

(** The worlds a process can be in: the one [NewGetter] makes, and any
    world a call of [Get] leaves behind. *)
Inductive reachable : World -> Prop :=
| reachable_new : reachable NewGetter
| reachable_get (mlist : MoverList) (d : Date) (w : World) :
    reachable w -> reachable (snd (Get mlist d w)).

(** Every entry of the map holds no records. *)
Definition all_empty (m : gmap string cached) : Prop :=
  forall addr val, m !! addr = Some val -> cached_data val = [].

(** The entry a goroutine at [p] has looked up. *)
Definition pc_entry (p : pc) : option string :=
  match p with
  | AtEntryLock addr | AtCacheUnlock addr | AtCheck addr
  | AtRequest addr | InFlight addr _ => Some addr
  | _ => None
  end.

(** Every goroutine past the lookup has its entry in the map. *)
Definition entries_present (st : State) : Prop :=
  forall i g, st_goroutines st !! i = Some g ->
  forall addr, pc_entry (g_pc g) = Some addr ->
  is_Some (cache_data (st_cache st) !! addr).

(** Every mutex of the cache is free. *)
Definition all_free (c : cache) : Prop :=
  cache_locked c = false
  /\ forall addr val, cache_data c !! addr = Some val -> cached_locked val = false.

(** The loop of [parseTable] from [results] on: the rows are converted in
    order up to the first that fails. *)
Fixpoint convert_rows (rows : list goquery.Node) (results : list Stock)
  : list Stock * option error :=
  match rows with
  | [] => (results, None)
  | row :: rest =>
    match trToStock row with
    | inr err => (results, Some err)
    | inl s => convert_rows rest (results ++ [s])%list
    end
  end.

(** The node itself is a [table] of class [mdcTable]. *)
Definition marked (n : goquery.Node) : bool :=
  goquery.has_tag "table" n && goquery.has_class "mdcTable" n.

(** A goroutine that runs alone for [fuel] steps, or until it cannot
    move. *)
Fixpoint run_alone (fuel : nat) (mlist : MoverList) (d : Date) (p : pc)
  (c : cache) (reqs : list string) : cache * list string * pc :=
  match fuel with
  | O => (c, reqs, p)
  | S fuel' =>
    match transition mlist d p c reqs with
    | None => (c, reqs, p)
    | Some (c', reqs', p') => run_alone fuel' mlist d p' c' reqs'
    end
  end.


(** *** Notions for the further properties *)

(** A digit, ['-'] or ['.']. *)
Definition ascii_numeric (c : ascii) : bool :=
  strconv.is_digit c || (byte_val c =? 45) || (byte_val c =? 46).

(** The digits, minus signs and points of a string, in their order. *)
Fixpoint keep_numeric (s : string) : string :=
  match s with
  | "" => ""
  | String c rest =>
    if ascii_numeric c then String c (keep_numeric rest) else keep_numeric rest
  end.

(** A byte below 128. *)
Definition is_ascii (c : ascii) : bool := byte_val c <? 128.

(** The text [w] is matched by [items] from offset [pos] on, taking the
    offsets of the parentheses from [m] to [m'] (latest first): each
    single class takes one character it accepts, each [+] one or more. *)
Inductive derives : list regexp.item -> nat -> string -> list nat -> list nat -> Prop :=
| derives_nil (pos : nat) (m : list nat) : derives [] pos "" m m
| derives_open (r : list regexp.item) (pos : nat) (w : string) (m m' : list nat) :
    derives r pos w (pos :: m) m' -> derives (regexp.Open :: r) pos w m m'
| derives_close (r : list regexp.item) (pos : nat) (w : string) (m m' : list nat) :
    derives r pos w (pos :: m) m' -> derives (regexp.Close :: r) pos w m m'
| derives_one (c : regexp.class) (r : list regexp.item) (a : ascii) (pos : nat)
    (w : string) (m m' : list nat) :
    regexp.accepts c a = true ->
    derives r (S pos) w m m' ->
    derives (regexp.One c :: r) pos (String a w) m m'
| derives_plus (c : regexp.class) (r : list regexp.item) (u : string) (pos : nat)
    (w : string) (m m' : list nat) :
    u <> "" ->
    all_bytes (regexp.accepts c) u = true ->
    derives r (pos + String.length u) w m m' ->
    derives (regexp.Plus c :: r) pos (u ++ w) m m'.

(** *** Who holds which mutex *)

(** A goroutine at [p] holds the mutex of the cache: from its [c.Lock()]
    to its [c.Unlock()]. *)
Definition holds_cache (p : pc) : bool :=
  match p with
  | AtLookup | AtEntryLock _ | AtCacheUnlock _ => true
  | _ => false
  end.

(** A goroutine at [p] holds the mutex of the entry for [addr]: from its
    [val.Lock()] to its return. *)
Definition holds_entry (addr : string) (p : pc) : bool :=
  match p with
  | AtCacheUnlock a | AtCheck a | AtRequest a | InFlight a _ => String.eqb a addr
  | _ => false
  end.

(** The number of goroutines that stand at a place [P] holds of. *)
Fixpoint holders (P : pc -> bool) (gs : list goroutine) : nat :=
  match gs with
  | [] => 0
  | g :: rest => (if P (g_pc g) then 1 else 0) + holders P rest
  end.

(** Whether the mutex of the entry for [addr] is taken. *)
Definition entry_locked (addr : string) (m : gmap string cached) : bool :=
  match m !! addr with
  | Some val => cached_locked val
  | None => false
  end.

(** Each mutex is taken exactly when one goroutine holds it, and free
    when none does. *)
Definition locks_held (st : State) : Prop :=
  holders holds_cache (st_goroutines st)
  = (if cache_locked (st_cache st) then 1 else 0)%nat
  /\ forall addr,
       holders (holds_entry addr) (st_goroutines st)
       = (if entry_locked addr (cache_data (st_cache st)) then 1 else 0)%nat.

(** A goroutine that has not returned. *)
Definition unfinished (g : goroutine) : bool :=
  match g_pc g with
  | Finished _ => false
  | _ => true
  end.

(** *** The handlers *)

(** [vars[key]] on the map of [mux.Vars(r)]: the empty string for a key
    that is not there. *)
Definition var (vars : gmap string string) (key : string) : string :=
  default "" (vars !! key).

(** What becomes of a request: the handler returns, or it panics and the
    server drops the connection; either way with what was sent so far. *)
Inductive reply :=
| Completed (w : http.ResponseWriter)
| Aborted (w : http.ResponseWriter) (msg : string).

(** The function [handleGainers] returns, on the variables of the
    request, the writer and the getter of the server. *)
Definition handleGainers (vars : gmap string string) (w : http.ResponseWriter)
  (g : World) : reply * World :=
  let '(year, err) := strconv_Atoi (var vars "year") in
  let w := match err with
           | Some e => http.Error w e http.StatusBadRequest
           | None => w
           end in
  let '(month, err) := strconv_Atoi (var vars "month") in
  let w := match err with
           | Some e => http.Error w e http.StatusBadRequest
           | None => w
           end in
  let '(day, err) := strconv_Atoi (var vars "day") in
  let w := match err with
           | Some e => http.Error w e http.StatusBadRequest
           | None => w
           end in
  let '(d, err) := NewDate year month day in
  let w := match err with
           | Some e => http.Error w e http.StatusBadRequest
           | None => w
           end in
  match Get USCompositeGainers d g with
  | (Panics msg, g) => (Aborted w msg, g)
  | (Returns (stocks, err), g) =>
    let w := match err with
             | Some e => http.Error w e http.StatusFailedDependency
             | None => w
             end in
    let w := http.Header_Set "content-type" "application/json" w in
    (Completed (json.Encode stocks w), g)
  end.

(** The function [handleLosers] returns. *)
Definition handleLosers (vars : gmap string string) (w : http.ResponseWriter)
  (g : World) : reply * World :=
  let '(year, err) := strconv_Atoi (var vars "year") in
  let w := match err with
           | Some e => http.Error w e http.StatusBadRequest
           | None => w
           end in
  let '(month, err) := strconv_Atoi (var vars "month") in
  let w := match err with
           | Some e => http.Error w e http.StatusBadRequest
           | None => w
           end in
  let '(day, err) := strconv_Atoi (var vars "day") in
  let w := match err with
           | Some e => http.Error w e http.StatusBadRequest
           | None => w
           end in
  let '(d, err) := NewDate year month day in
  let w := match err with
           | Some e => http.Error w e http.StatusBadRequest
           | None => w
           end in
  match Get USCompositeLosers d g with
  | (Panics msg, g) => (Aborted w msg, g)
  | (Returns (stocks, err), g) =>
    let w := match err with
             | Some e => http.Error w e http.StatusFailedDependency
             | None => w
             end in
    let w := http.Header_Set "content-type" "application/json" w in
    (Completed (json.Encode stocks w), g)
  end.

(** The variables of a request that the router hands to a handler: each
    is a match of its pattern. *)
Definition routed (vars : gmap string string) : bool :=
  year_pattern (var vars "year") && month_pattern (var vars "month")
  && day_pattern (var vars "day").

(** The date a routed request names. *)
Definition requested (vars : gmap string string) : Date :=
  {| Year := fst (strconv_Atoi (var vars "year"));
     Month := fst (strconv_Atoi (var vars "month"));
     Day := fst (strconv_Atoi (var vars "day")) |}.

(** The two handlers that [routes] registers, each with the list it asks
    [Get] for. *)
Definition handlers
  : list (MoverList
          * (gmap string string -> http.ResponseWriter -> World -> reply * World)) :=
  [(USCompositeGainers, handleGainers); (USCompositeLosers, handleLosers)].

(** A handler from [NewDate] on, for the date [d] and the list [mlist]. *)
Definition respond (mlist : MoverList) (d : Date) (w : http.ResponseWriter)
  (g : World) : reply * World :=
  let w := match Validate d with
           | Some e => http.Error w e http.StatusBadRequest
           | None => w
           end in
  match Get mlist d g with
  | (Panics msg, g) => (Aborted w msg, g)
  | (Returns (stocks, err), g) =>
    let w := match err with
             | Some e => http.Error w e http.StatusFailedDependency
             | None => w
             end in
    let w := http.Header_Set "content-type" "application/json" w in
    (Completed (json.Encode stocks w), g)
  end.

(** The statements a goroutine at [p] has still to run, at most. *)
Definition statements_left (p : pc) : nat :=
  match p with
  | AtCacheLock => 7
  | AtLookup => 6
  | AtEntryLock _ => 5
  | AtCacheUnlock _ => 4
  | AtCheck _ => 3
  | AtRequest _ => 2
  | InFlight _ _ => 1
  | Finished _ => 0
  end.

Fixpoint work_left (gs : list goroutine) : nat :=
  match gs with
  | [] => 0
  | g :: rest => statements_left (g_pc g) + work_left rest
  end.

(** * Properties *)

(** ** Properties of package time *)

Lemma wrap_uint64_small (z : Z) : 0 <= z < 2 ^ 64 -> wrap_uint64 z = z.
Proof. intros H. unfold wrap_uint64. apply Z.mod_small. exact H. Qed.

Lemma wrap_int_small (z : Z) : minInt <= z <= maxInt -> wrap_int z = z.
Proof.
  unfold wrap_int, minInt, maxInt. intros H.
  rewrite Z.mod_small; lia.
Qed.

(** A month index in [0, 12) is left alone. *)
Lemma norm_in_range (hi lo : Z) :
  0 <= lo < 12 -> time.norm hi lo 12 = (hi, lo).
Proof.
  intros H. unfold time.norm.
  destruct (lo <? 0) eqn:Hneg; [lia |].
  destruct (lo >=? 12) eqn:Hge; [lia | reflexivity].
Qed.

(** Without wrap-around the day count of [daysSinceEpoch] is the usual
    closed form in the years since the absolute epoch. *)
Lemma daysSinceEpoch_closed (year : Z) :
  2010 <= year <= lastWholeYear + 1 ->
  let y := year - time.absoluteZeroYear in
  time.daysSinceEpoch year = 365 * y + y / 4 - y / 100 + y / 400.
Proof.
  intros H y. unfold time.daysSinceEpoch.
  fold y.
  assert (Hy : 0 <= y < 584554048996) by (unfold y, time.absoluteZeroYear, lastWholeYear in *; lia).
  unfold time.daysPer400Years, time.daysPer100Years, time.daysPer4Years.
  rewrite (wrap_uint64_small y) by lia.
  pose proof (Z.div_mod y 400 ltac:(lia)) as E400.
  pose proof (Z.mod_pos_bound y 400 ltac:(lia)) as B400.
  set (n400 := y / 400) in *.
  assert (Hn400 : 0 <= n400 < 1461385123) by lia.
  rewrite (wrap_uint64_small (400 * n400)) by lia.
  rewrite (wrap_uint64_small (y - 400 * n400)) by lia.
  set (y1 := y - 400 * n400).
  assert (Hy1 : 0 <= y1 < 400) by (unfold y1; lia).
  rewrite (wrap_uint64_small (_ * n400)) by lia.
  pose proof (Z.div_mod y1 100 ltac:(lia)) as E100.
  pose proof (Z.mod_pos_bound y1 100 ltac:(lia)) as B100.
  set (n100 := y1 / 100) in *.
  assert (Hn100 : 0 <= n100 < 4) by lia.
  rewrite (wrap_uint64_small (100 * n100)) by lia.
  rewrite (wrap_uint64_small (y1 - 100 * n100)) by lia.
  set (y2 := y1 - 100 * n100).
  assert (Hy2 : 0 <= y2 < 100) by (unfold y2; lia).
  rewrite (wrap_uint64_small (_ * n100)) by lia.
  rewrite (wrap_uint64_small (_ + _ * n100)) by lia.
  pose proof (Z.div_mod y2 4 ltac:(lia)) as E4.
  pose proof (Z.mod_pos_bound y2 4 ltac:(lia)) as B4.
  set (n4 := y2 / 4) in *.
  assert (Hn4 : 0 <= n4 < 25) by lia.
  rewrite (wrap_uint64_small (4 * n4)) by lia.
  rewrite (wrap_uint64_small (y2 - 4 * n4)) by lia.
  rewrite (wrap_uint64_small (_ * n4)) by lia.
  rewrite (wrap_uint64_small (_ + _ * n4)) by lia.
  rewrite (wrap_uint64_small (365 * _)) by lia.
  rewrite wrap_uint64_small by lia.
  assert (y / 4 = 100 * n400 + 25 * n100 + n4) as ->.
  { symmetry. apply (Z.div_unique _ _ _ (y2 - 4 * n4)); unfold y2, y1 in *; lia. }
  assert (y / 100 = 4 * n400 + n100) as ->.
  { symmetry. apply (Z.div_unique _ _ _ y2); unfold y2, y1 in *; lia. }
  unfold y2, y1. lia.
Qed.

Lemma isLeap_leap_year (year : Z) : 0 <= year -> time.isLeap year = leap_year year.
Proof.
  intros H. unfold time.isLeap, leap_year.
  rewrite !Z.rem_mod_nonneg by lia. reflexivity.
Qed.

(** From one 1 January to the next is the length of the year. *)
Lemma daysSinceEpoch_next (year : Z) :
  2010 <= year <= lastWholeYear ->
  time.daysSinceEpoch (year + 1) = time.daysSinceEpoch year + year_length year.
Proof.
  intros H. clear IsNumber_table.
  rewrite !daysSinceEpoch_closed by lia. cbv zeta.
  unfold year_length, leap_year, time.absoluteZeroYear, lastWholeYear in *.
  destruct (Z.eqb_spec (year mod 4) 0) as [H4 | H4];
    destruct (Z.eqb_spec (year mod 100) 0) as [H100 | H100];
    destruct (Z.eqb_spec (year mod 400) 0) as [H400 | H400];
    cbn [andb orb negb];
    Z.div_mod_to_equations; lia.
Qed.

Lemma daysSinceEpoch_from_2010 (n : nat) :
  2010 + Z.of_nat n <= lastWholeYear + 1 ->
  time.daysSinceEpoch (2010 + Z.of_nat n)
  = time.daysSinceEpoch 2010 + days_in_years 2010 n.
Proof.
  assert (G : forall (k : nat) (first : Z),
             2010 <= first -> first + Z.of_nat k <= lastWholeYear + 1 ->
             time.daysSinceEpoch (first + Z.of_nat k)
             = time.daysSinceEpoch first + days_in_years first k).
  { induction k as [| k IH]; intros first Hlo Hhi.
    - cbn [days_in_years]. rewrite !Z.add_0_r. reflexivity.
    - cbn [days_in_years].
      replace (first + Z.of_nat (S k)) with ((first + 1) + Z.of_nat k) by lia.
      rewrite IH by lia.
      rewrite daysSinceEpoch_next by lia. lia. }
  intros H. apply G; lia.
Qed.

(** The table [daysBefore] with the leap day added is the months counted
    one by one. *)
Lemma daysBefore_months (y m : Z) :
  0 <= y -> 1 <= m <= 12 ->
  nth (Z.to_nat (m - 1)) time.daysBefore 0
  + (if time.isLeap y && (3 <=? m) then 1 else 0)
  = days_in_months y 1 (Z.to_nat (m - 1)).
Proof.
  intros Hy Hm. rewrite isLeap_leap_year by exact Hy.
  assert (m = 1 \/ m = 2 \/ m = 3 \/ m = 4 \/ m = 5 \/ m = 6 \/ m = 7 \/
          m = 8 \/ m = 9 \/ m = 10 \/ m = 11 \/ m = 12) as Hcases by lia.
  repeat (destruct Hcases as [-> | Hcases]); [.. | subst m];
    cbv -[leap_year]; destruct (leap_year y); reflexivity.
Qed.

Lemma daysSinceEpoch_bound (year : Z) :
  2010 <= year <= lastWholeYear ->
  0 <= time.daysSinceEpoch year <= 213503982239691.
Proof.
  intros H. clear IsNumber_table.
  rewrite daysSinceEpoch_closed by lia. cbv zeta.
  unfold time.absoluteZeroYear, lastWholeYear in *.
  Z.div_mod_to_equations. lia.
Qed.

Lemma daysBefore_bound (n : nat) : 0 <= nth n time.daysBefore 0 <= 365.
Proof.
  do 13 (destruct n as [| n]; [vm_compute; split; discriminate |]).
  destruct n; vm_compute; split; discriminate.
Qed.

Lemma days_in_months_bound (y : Z) (n : nat) (first : Z) :
  0 <= days_in_months y first n <= 31 * Z.of_nat n.
Proof.
  revert first. induction n as [| n IH]; intros first.
  - cbn [days_in_months]. lia.
  - cbn [days_in_months]. specialize (IH (first + 1)).
    assert (0 <= days_in_month y first <= 31).
    { unfold days_in_month.
      destruct first as [| p | p]; try lia.
      do 4 (try destruct p as [p | p |]); try lia;
        destruct (leap_year y); lia. }
    lia.
Qed.

(** The seconds a real date from 2010 on is given by [time.Date]: no
    wrap-around, and the day count is the one of the calendar. *)
Lemma Date_abs (y m d : Z) :
  real_date y m d -> 2010 <= y <= lastWholeYear ->
  time.abs (time.Date y m d)
  = (time.daysSinceEpoch 2010 + day_number y m d) * time.secondsPerDay.
Proof.
  intros [Hm Hd] Hy. unfold time.Date.
  assert (Hdm : days_in_month y m <= 31).
  { unfold days_in_month.
    destruct m as [| p | p]; try lia.
    do 4 (try destruct p as [p | p |]); try lia; destruct (leap_year y); lia. }
  rewrite (wrap_int_small (m - 1)) by (unfold minInt, maxInt; lia).
  rewrite norm_in_range by lia.
  replace (m - 1 + 1) with m by lia.
  pose proof (daysSinceEpoch_bound y Hy) as Hb.
  pose proof (daysBefore_months y m ltac:(lia) Hm) as Hdb.
  pose proof (days_in_months_bound y (Z.to_nat (m - 1)) 1) as Hmb.
  set (db := nth (Z.to_nat (m - 1)) time.daysBefore 0) in *.
  assert (Hdb0 : 0 <= db <= 365) by apply daysBefore_bound.
  rewrite (wrap_uint64_small (_ + db)) by lia.
  assert (Hleap : (if time.isLeap y && (3 <=? m)
                   then wrap_uint64 (time.daysSinceEpoch y + db + 1)
                   else time.daysSinceEpoch y + db)
                  = time.daysSinceEpoch y + days_in_months y 1 (Z.to_nat (m - 1))).
  { destruct (time.isLeap y && (3 <=? m)).
    - rewrite wrap_uint64_small by lia. lia.
    - lia. }
  rewrite Hleap. clear Hleap.
  rewrite (wrap_uint64_small (d - 1)) by lia.
  rewrite (wrap_uint64_small (_ + (d - 1))) by lia.
  cbn [time.abs].
  unfold time.secondsPerDay.
  rewrite wrap_uint64_small by lia.
  unfold day_number.
  replace y with (2010 + Z.of_nat (Z.to_nat (y - 2010))) at 1 by lia.
  rewrite daysSinceEpoch_from_2010 by lia.
  lia.
Qed.

Lemma day_number_bound (y m d : Z) :
  real_date y m d -> 2010 <= y <= lastWholeYear ->
  0 <= time.daysSinceEpoch 2010 + day_number y m d <= 213503982240088.
Proof.
  intros [Hm Hd] Hy.
  assert (Hdm : days_in_month y m <= 31).
  { unfold days_in_month.
    destruct m as [| p | p]; try lia.
    do 4 (try destruct p as [p | p |]); try lia; destruct (leap_year y); lia. }
  pose proof (daysSinceEpoch_bound y Hy) as Hb.
  pose proof (days_in_months_bound y (Z.to_nat (m - 1)) 1) as Hmb.
  unfold day_number.
  pose proof (daysSinceEpoch_from_2010 (Z.to_nat (y - 2010)) ltac:(lia)) as E.
  replace (2010 + Z.of_nat (Z.to_nat (y - 2010))) with y in E by lia.
  lia.
Qed.

(** For a real date from 2010 on, [Weekday] of [time.Date] is the weekday
    of the calendar. *)
Lemma Weekday_calendar (y m d : Z) :
  real_date y m d -> 2010 <= y <= lastWholeYear ->
  time.Weekday_of (time.Date y m d) = calendar_weekday y m d.
Proof.
  intros Hreal Hy.
  unfold time.Weekday_of, time.absWeekday, calendar_weekday.
  rewrite Date_abs by assumption.
  pose proof (day_number_bound y m d Hreal Hy) as Hb.
  set (D := time.daysSinceEpoch 2010 + day_number y m d) in *.
  unfold time.secondsPerWeek, time.secondsPerDay.
  rewrite wrap_uint64_small by lia.
  replace (D * 86400 + 1 * 86400) with ((D + 1) * 86400) by lia.
  rewrite Z.mul_mod_distr_r by lia.
  rewrite Z.div_mul by lia.
  f_equal.
  assert (E : time.daysSinceEpoch 2010 = 106751991087704) by (vm_compute; reflexivity).
  unfold D. rewrite E.
  replace (106751991087704 + day_number y m d + 1)
    with (5 + day_number y m d + 15250284441100 * 7) by lia.
  apply Z.mod_add. lia.
Qed.

(** ** Properties of [Validate], [NewDate] and [dataURL] *)

(** What [Validate] looks at: the year, the day, and the weekday of the
    normalised date. *)
Lemma Validate_cases (d : Date) :
  Validate d =
    if (Year d >? now_year) || (Year d <? 2010) then Some ErrInvalidYear
    else if (Day d <? 1) || (Day d >? 31) then Some ErrInvalidDay
    else if weekend (time.Weekday_of (time.Date (Year d) (Month d) (Day d)))
         then Some ErrWeekend else None.
Proof.
  unfold Validate.
  destruct ((Year d >? now_year) || (Year d <? 2010)); [reflexivity |].
  destruct ((Day d <? 1) || (Day d >? 31)); [reflexivity |].
  destruct (time.Weekday_of _); reflexivity.
Qed.

(** C8: for every real Gregorian date with its year in [2010, now],
    [NewDate] returns the same components, with no error exactly when the
    weekday of the date is Monday to Friday and with [ErrWeekend], the
    error of class WeekendUnavailable, when it is Saturday or Sunday.
    The year of the clock is one [time.Time] can hold. *)
Theorem NewDate_real_date (year month day : Z) :
  real_date year month day ->
  2010 <= year <= now_year ->
  now_year <= lastWholeYear ->
  NewDate year month day =
    ({| Year := year; Month := month; Day := day |},
     if weekend (calendar_weekday year month day)
     then Some ErrWeekend else None).
Proof.
  intros Hreal Hyear Hnow.
  unfold NewDate. f_equal.
  rewrite Validate_cases. cbn [Year Month Day].
  destruct (Z.gtb_spec year now_year); [lia |].
  destruct (Z.ltb_spec year 2010); [lia |].
  cbn [orb].
  assert (Hday : day <= 31).
  { destruct Hreal as [Hm Hd]. unfold days_in_month in Hd.
    destruct month as [| p | p]; try lia.
    do 4 (try destruct p as [p | p |]); try lia;
      destruct (leap_year year); lia. }
  destruct (Z.ltb_spec day 1); [unfold real_date in Hreal; lia |].
  destruct (Z.gtb_spec day 31); [lia |].
  cbn [orb].
  rewrite Weekday_calendar by (assumption || lia).
  reflexivity.
Qed.

(** ** Properties of package fmt on the templates *)

Lemma digits_unfold (fuel : nat) (u : Z) (acc : string) :
  fmt.digits (S fuel) u acc =
    if u <? 10 then String (ascii_of_N (Z.to_N (48 + u mod 10))) acc
    else fmt.digits fuel (u / 10)
                    (String (ascii_of_N (Z.to_N (48 + u mod 10))) acc).
Proof. reflexivity. Qed.

(** [%02d] of a number of at most two digits is its two digits. *)
Lemma fmtInteger_two_digits (n : Z) :
  0 <= n <= 99 -> fmt.fmtInteger true (Some 2%nat) n = decimal 2 n.
Proof.
  intros H. unfold fmt.fmtInteger.
  destruct (Z.ltb_spec n 0); [lia |].
  rewrite Z.abs_eq by lia.
  rewrite digits_unfold.
  unfold decimal. change (10 ^ Z.of_nat 1) with 10. change (10 ^ Z.of_nat 0) with 1.
  rewrite Z.div_1_r.
  destruct (Z.ltb_spec n 10).
  - rewrite (Z.div_small n 10) by lia. reflexivity.
  - rewrite digits_unfold.
    assert (0 <= n / 10 < 10) by (split; [apply Z.div_pos | apply Z.div_lt_upper_bound]; lia).
    destruct (Z.ltb_spec (n / 10) 10); [| lia].
    reflexivity.
Qed.

(** [%d] of a number of four digits is its four digits. *)
Lemma fmtInteger_four_digits (n : Z) :
  1000 <= n <= 9999 -> fmt.fmtInteger false None n = decimal 4 n.
Proof.
  intros H. unfold fmt.fmtInteger.
  destruct (Z.ltb_spec n 0); [lia |].
  rewrite Z.abs_eq by lia.
  unfold decimal.
  change (10 ^ Z.of_nat 3) with (10 * (10 * 10)).
  change (10 ^ Z.of_nat 2) with (10 * 10).
  change (10 ^ Z.of_nat 1) with 10. change (10 ^ Z.of_nat 0) with 1.
  rewrite Z.div_1_r.
  rewrite <- !Z.div_div by lia.
  assert (100 <= n / 10 < 1000)
    by (split; [apply Z.div_le_lower_bound | apply Z.div_lt_upper_bound]; lia).
  assert (10 <= n / 10 / 10 < 100)
    by (split; [apply Z.div_le_lower_bound | apply Z.div_lt_upper_bound]; lia).
  assert (1 <= n / 10 / 10 / 10 < 10)
    by (split; [apply Z.div_le_lower_bound | apply Z.div_lt_upper_bound]; lia).
  rewrite digits_unfold. destruct (Z.ltb_spec n 10); [lia |].
  rewrite digits_unfold. destruct (Z.ltb_spec (n / 10) 10); [lia |].
  rewrite digits_unfold. destruct (Z.ltb_spec (n / 10 / 10) 10); [lia |].
  rewrite digits_unfold. destruct (Z.ltb_spec (n / 10 / 10 / 10) 10); [| lia].
  reflexivity.
Qed.

(** [Sprintf] of the two templates: the verbs are within [fmt.Sprintf_d]. *)
Lemma Sprintf_gainers (y m d : Z) :
  Sprintf USCompositeGainers [y; m; d] =
    gainers_prefix ++ fmt.fmtInteger false None y
    ++ fmt.fmtInteger true (Some 2%nat) m
    ++ fmt.fmtInteger true (Some 2%nat) d ++ template_suffix.
Proof.
  unfold Sprintf, fmt.Sprintf_d.
  set (ps := fmt.pieces _ _). vm_compute in ps. subst ps.
  cbn [fmt.render option_map]. reflexivity.
Qed.

Lemma Sprintf_losers (y m d : Z) :
  Sprintf USCompositeLosers [y; m; d] =
    losers_prefix ++ fmt.fmtInteger false None y
    ++ fmt.fmtInteger true (Some 2%nat) m
    ++ fmt.fmtInteger true (Some 2%nat) d ++ template_suffix.
Proof.
  unfold Sprintf, fmt.Sprintf_d.
  set (ps := fmt.pieces _ _). vm_compute in ps. subst ps.
  cbn [fmt.render option_map]. reflexivity.
Qed.

(** ** Properties of [trToStock] and [parseTable] *)

Lemma EachWithBreak_convert_rows (rows : list goquery.Node) :
  forall (i : nat) (results : list Stock),
    EachWithBreak each_row i rows (results, None) = convert_rows rows results.
Proof.
  induction rows as [| row rest IH]; intros i results.
  - reflexivity.
  - cbn [EachWithBreak convert_rows]. unfold each_row.
    destruct (trToStock row) as [s | err].
    + apply IH.
    + reflexivity.
Qed.

(** [parseTable] on a document with at least one row. *)
Lemma parseTable_rows (doc : list goquery.Node) (hdr : goquery.Node)
  (rows : list goquery.Node) :
  goquery.Find rows_selector doc = hdr :: rows ->
  parseTable (goquery.Html doc) = Returns (convert_rows rows []).
Proof.
  intros E. unfold parseTable. cbn [goquery.NewDocumentFromReader].
  rewrite E. unfold goquery.Slice_ToEnd. cbn [length Nat.ltb Nat.leb skipn].
  rewrite EachWithBreak_convert_rows. reflexivity.
Qed.

(** [parseTable] on a document with no row: the slice expression of
    [Slice] panics. *)
Lemma parseTable_no_rows (doc : list goquery.Node) :
  goquery.Find rows_selector doc = [] ->
  parseTable (goquery.Html doc)
  = Panics "runtime error: slice bounds out of range".
Proof.
  intros E. unfold parseTable. cbn [goquery.NewDocumentFromReader].
  rewrite E. reflexivity.
Qed.

Lemma convert_rows_converted (pre : list goquery.Node) :
  forall (rest : list goquery.Node) (results converted : list Stock),
    Forall2 (fun row s => trToStock row = inl s) pre converted ->
    convert_rows (pre ++ rest) results
    = convert_rows rest (results ++ converted)%list.
Proof.
  induction pre as [| row pre IH]; intros rest results converted Hpre.
  - inversion Hpre. rewrite app_nil_r. reflexivity.
  - inversion Hpre as [| ? s ? converted' Hs Hpre']; subst.
    cbn [app convert_rows]. rewrite Hs, (IH rest _ converted' Hpre').
    rewrite <- app_assoc. reflexivity.
Qed.

(** A row with other than six cells fails with the column-count error. *)
Lemma trToStock_columns (row : goquery.Node) :
  length (cells row) <> 6%nat ->
  trToStock row = inr (ErrColumns (length (cells row))).
Proof.
  intros H. unfold trToStock. fold (cells row).
  rewrite length_imap.
  destruct (Nat.eqb_spec (length (cells row)) 6); [contradiction | reflexivity].
Qed.

(** C4, as the code has it: when the first data row that fails to
    convert has other than six cells, the parse fails with the
    column-count error (class ColumnCountMismatch) for that row's number
    of cells, and it returns with the error the records of all the rows
    before that one, one per row: the parse is not undone. *)
Theorem parseTable_short_row (doc : list goquery.Node)
  (hdr bad : goquery.Node) (pre post : list goquery.Node)
  (results : list Stock) :
  goquery.Find rows_selector doc = hdr :: (pre ++ bad :: post)%list ->
  Forall2 (fun row s => trToStock row = inl s) pre results ->
  length (cells bad) <> 6%nat ->
  parseTable (goquery.Html doc)
  = Returns (results, Some (ErrColumns (length (cells bad))))
  /\ classify (ErrColumns (length (cells bad))) = ColumnCountMismatch
  /\ length results = length pre.
Proof.
  intros Hrows Hpre Hbad.
  rewrite (parseTable_rows doc hdr _ Hrows).
  rewrite (convert_rows_converted pre (bad :: post) [] results Hpre).
  cbn [convert_rows app]. rewrite (trToStock_columns bad Hbad).
  split; [reflexivity |]. split; [reflexivity |].
  symmetry. apply (Forall2_length _ _ _ Hpre).
Qed.

(** The text of the cells decides what a row converts to. *)
Lemma imap_cell_text (cs : list goquery.Node) :
  imap cell_text cs
  = imap (fun i t =>
            match i with
            | 1%nat => t
            | _ => transform.Transform filterNonNumeric transform.Decode
                                       (String.length t) t
            end) (map goquery.Text cs).
Proof.
  unfold cell_text.
  assert (G : forall (f : nat -> nat) (l : list goquery.Node),
             imap (fun i sel2 =>
                     match f i with
                     | 1%nat => goquery.Text sel2
                     | _ => transform.Transform filterNonNumeric transform.Decode
                              (String.length (goquery.Text sel2)) (goquery.Text sel2)
                     end) l
             = imap (fun i t =>
                       match f i with
                       | 1%nat => t
                       | _ => transform.Transform filterNonNumeric transform.Decode
                                (String.length t) t
                       end) (map goquery.Text l)).
  { intros f l. revert f. induction l as [| c l IH]; intros f.
    - reflexivity.
    - cbn [imap map]. f_equal. apply (IH (f ∘ S)). }
  apply (G (fun i => i)).
Qed.

(** C7: on a document whose marked table has a header row and the one
    data row with the cells "1", "Acme Corp (ACME)", "$12.34", "x",
    "+5.67%", "1,234", [parseTable] returns the one record of ticker
    ACME, name Acme Corp, volume 1234, and for price and change the
    binary64 nearest to 12.34 and to 5.67. *)
Theorem parseTable_acme (doc : list goquery.Node) (hdr row : goquery.Node) :
  goquery.Find rows_selector doc = [hdr; row] ->
  map goquery.Text (cells row)
  = ["1"; "Acme Corp (ACME)"; "$12.34"; "x"; "+5.67%"; "1,234"] ->
  parseTable (goquery.Html doc) = Returns ([Examples.acme], None)
  /\ Ticker Examples.acme = "ACME"
  /\ Name Examples.acme = "Acme Corp"
  /\ nearest_to 1234 100 (Price Examples.acme)
  /\ nearest_to 567 100 (PctChange Examples.acme)
  /\ Volume Examples.acme = 1234.
Proof.
  intros Hrows Hcells.
  split; [| split; [reflexivity | split; [reflexivity | split; [| split; [| reflexivity]]]]].
  - rewrite (parseTable_rows doc hdr _ Hrows).
    cbn [convert_rows].
    assert (E : trToStock row = inl Examples.acme).
    { unfold trToStock. fold (cells row).
      rewrite imap_cell_text, Hcells.
      vm_compute. reflexivity. }
    rewrite E. reflexivity.
  - exists 6946802425218990%positive, 49%nat.
    split; [reflexivity |]. split; [lia |].
    vm_compute. discriminate.
  - exists 6383852471797678%positive, 50%nat.
    split; [reflexivity |]. split; [lia |].
    vm_compute. discriminate.
Qed.

(** *** Signs *)

Lemma has_minus_app (a b : string) :
  has_minus (a ++ b) = has_minus a || has_minus b.
Proof.
  induction a as [| c a IH]; [reflexivity |].
  simpl. rewrite IH. apply orb_assoc.
Qed.

(** [Transform] writes bytes of its source, or U+FFFD: it adds no minus
    sign. *)
Lemma Transform_no_minus (t : Z -> bool) (src : string) :
  has_minus src = false ->
  forall (m : transform.mode) (room : nat),
    has_minus (transform.Transform t m room src) = false.
Proof.
  induction src as [| c rest IH]; intros H m room; [reflexivity |].
  cbn [has_minus] in H. apply orb_false_iff in H as [Hc Hrest].
  specialize (IH Hrest).
  cbn [transform.Transform].
  destruct m as [| k | k].
  - destruct (utf8.DecodeRune (String c rest)) as [r sz].
    destruct ((128 <=? byte_val c) && (sz =? 1)%nat).
    + destruct (t r); [apply IH |].
      destruct (room <? 3)%nat; [reflexivity |].
      rewrite has_minus_app, IH. reflexivity.
    + destruct (t r); [apply IH |].
      destruct (room <? sz)%nat; [reflexivity |].
      cbn [has_minus]. rewrite Hc, IH. reflexivity.
  - cbn [has_minus]. rewrite Hc, IH. reflexivity.
  - apply IH.
Qed.

Lemma split_sign_no_minus (s : string) :
  has_minus s = false -> fst (strconv.split_sign s) = false.
Proof.
  intros H. unfold strconv.split_sign.
  destruct s as [| c rest]; [reflexivity |].
  cbn [has_minus] in H. apply orb_false_iff in H as [Hc _].
  destruct c as [[] [] [] [] [] [] [] []]; try reflexivity.
  discriminate Hc.
Qed.

Lemma digits_from_nonneg (s : string) :
  forall acc n, 0 <= acc -> strconv.digits_from acc s = Some n -> 0 <= n.
Proof.
  induction s as [| c rest IH]; intros acc n Hacc E; cbn [strconv.digits_from] in E.
  - injection E as <-. exact Hacc.
  - destruct (strconv.is_digit c) eqn:Hd; [| discriminate E].
    unfold strconv.is_digit in Hd. apply andb_true_iff in Hd as [Hlo Hhi].
    apply Z.leb_le in Hlo.
    apply (IH (acc * 10 + (byte_val c - 48)) n); [lia | exact E].
Qed.

(** [Atoi] of a string with no minus sign is not negative. *)
Lemma Atoi_no_minus (s : string) (v : Z) :
  has_minus s = false -> strconv.Atoi s = inl v -> 0 <= v.
Proof.
  intros H E. unfold strconv.Atoi in E.
  pose proof (split_sign_no_minus s H) as Hsign.
  destruct (strconv.split_sign s) as [neg body]. cbn [fst] in Hsign. subst neg.
  destruct body as [| c body]; [discriminate E |].
  destruct (strconv.digits_from 0 (String c body)) as [n |] eqn:Hn;
    [| destruct (strconv.overflows 0 (String c body)); discriminate E].
  destruct ((minInt <=? n) && (n <=? maxInt)); [| discriminate E].
  injection E as <-.
  apply (digits_from_nonneg (String c body) 0 n); [lia | exact Hn].
Qed.

(** Rounding keeps the sign it is given. *)
Lemma binary_round_aux_sign (sx : bool) (mx ex : Z) (lx : location) :
  match binary_round_aux 53 1024 sx mx ex lx with
  | S754_zero s | S754_infinity s | S754_finite s _ _ => s = sx
  | S754_nan => True
  end.
Proof.
  unfold binary_round_aux.
  destruct (shr_fexp 53 1024 mx ex lx) as [mrs' e'].
  destruct (shr_fexp 53 1024 _ e' loc_Exact) as [mrs'' e''].
  destruct (shr_m mrs'') as [| p | p]; [reflexivity | | exact I].
  destruct (e'' <=? 1024 - 53); reflexivity.
Qed.

(** [ParseFloat] of a string with no minus sign is not negative. *)
Lemma ParseFloat_no_minus (s : string) (f : spec_float) :
  has_minus s = false -> strconv.ParseFloat s = inl f -> float_nonneg f.
Proof.
  intros H E. unfold strconv.ParseFloat in E.
  pose proof (split_sign_no_minus s H) as Hsign.
  destruct (strconv.split_sign s) as [neg body]. cbn [fst] in Hsign. subst neg.
  destruct (strconv.mantissa body 0 0 false false) as [[m scale] |]; [| discriminate E].
  assert (Hs : match strconv.nearest_float64 false m scale with
               | S754_zero s | S754_infinity s | S754_finite s _ _ => s = false
               | S754_nan => True
               end).
  { unfold strconv.nearest_float64.
    destruct m as [| p | p]; [reflexivity | |];
      destruct (SFdiv_core_binary 53 1024 _ 0 _ 0) as [[q e] l];
      apply binary_round_aux_sign. }
  destruct (strconv.nearest_float64 false m scale) as [sg | sg | | sg fm fe];
    try discriminate E; injection E as <-; subst sg; reflexivity.
Qed.

(** A row with no minus sign in its price and volume cells converts to a
    record that is not negative. *)
Lemma trToStock_nonnegative (row : goquery.Node) (s : Stock) :
  unsigned_row row -> trToStock row = inl s -> nonnegative s.
Proof.
  intros [Hprice Hvolume] E. unfold trToStock in E. fold (cells row) in E.
  rewrite length_imap in E.
  destruct (Nat.eqb_spec (length (cells row)) 6) as [Hlen | Hlen];
    [| discriminate E].
  cbn [negb] in E.
  destruct (cells row) as [| c0 [| c1 [| c2 [| c3 [| c4 [| c5 [| c6 cs]]]]]]];
    try discriminate Hlen.
  cbn [nth] in Hprice, Hvolume.
  cbn [imap nth compose] in E. unfold cell_text in E.
  destruct (negb (length (regexp.FindStringSubmatch _ _) =? 3)%nat); [discriminate E |].
  destruct (strconv.Atoi _) as [volume | err] eqn:Hv; [| discriminate E].
  destruct (strconv.ParseFloat _) as [price | err] eqn:Hp in E; [| discriminate E].
  destruct (strconv.ParseFloat _) as [pct | err] eqn:Hc in E; [| discriminate E].
  injection E as <-. split; cbn [Price Volume].
  - apply (ParseFloat_no_minus _ _ (Transform_no_minus _ _ Hprice _ _) Hp).
  - apply (Atoi_no_minus _ _ (Transform_no_minus _ _ Hvolume _ _) Hv).
Qed.

Lemma convert_rows_nonnegative (rows : list goquery.Node) :
  forall (acc results : list Stock) (err : option error),
    Forall unsigned_row rows -> Forall nonnegative acc ->
    convert_rows rows acc = (results, err) -> Forall nonnegative results.
Proof.
  induction rows as [| row rest IH]; intros acc results err Hrows Hacc E;
    cbn [convert_rows] in E.
  - injection E as <- _. exact Hacc.
  - inversion Hrows as [| ? ? Hrow Hrest]; subst.
    destruct (trToStock row) as [s | e] eqn:Hs.
    + apply (IH _ _ _ Hrest) in E; [exact E |].
      apply Forall_app. split; [exact Hacc |].
      constructor; [| constructor].
      apply (trToStock_nonnegative row s Hrow Hs).
    + injection E as <- _. exact Hacc.
Qed.

(** C6, as amended: every record of a successful parse has a price and a
    volume that are not negative, provided no data row holds a minus sign
    in its price cell or in its volume cell. *)
Theorem parseTable_unsigned (doc : list goquery.Node) (results : list Stock) :
  Forall unsigned_row (data_rows doc) ->
  parseTable (goquery.Html doc) = Returns (results, None) ->
  Forall nonnegative results.
Proof.
  intros Hrows E. unfold data_rows in Hrows.
  destruct (goquery.Find rows_selector doc) as [| hdr rows] eqn:Hfind.
  - rewrite (parseTable_no_rows doc Hfind) in E. discriminate E.
  - rewrite (parseTable_rows doc hdr rows Hfind) in E.
    injection E as E. change (skipn 1 (hdr :: rows)) with rows in Hrows.
    apply (convert_rows_nonnegative rows [] results None Hrows); [constructor | exact E].
Qed.

(** *** What [filterNonNumeric] lets through *)

Lemma all_bytes_app (P : ascii -> bool) (a b : string) :
  all_bytes P (a ++ b) = all_bytes P a && all_bytes P b.
Proof.
  induction a as [| c a IH]; [reflexivity |].
  simpl. rewrite IH. apply andb_assoc.
Qed.

(** After a leading byte, [DecodeRune] accepts only bytes from 128 on. *)
Lemma first_range (p0 : Z) (sz : nat) (lo hi : Z) :
  utf8.first p0 = Some (sz, lo, hi) ->
  128 <= lo /\ (2 <= sz <= 4)%nat.
Proof.
  unfold utf8.first, utf8.locb.
  repeat match goal with
         | |- context [if ?b then _ else _] => destruct b
         end;
    intros E; try discriminate E; injection E as <- <- <-; lia.
Qed.

Lemma DecodeRune_continuation (c : ascii) (rest : string) (r : Z) (sz : nat) :
  utf8.DecodeRune (String c rest) = (r, sz) ->
  (sz = 1%nat \/ high_bytes (Nat.pred sz) rest = true) /\ (1 <= sz)%nat.
Proof.
  unfold utf8.DecodeRune.
  destruct (byte_val c <? 128); [intros E; injection E as <- <-; auto |].
  destruct (utf8.first (byte_val c)) as [[[n lo] hi] |] eqn:Hfirst;
    [| intros E; injection E as <- <-; auto].
  destruct (first_range _ _ _ _ Hfirst) as [Hlo Hn].
  destruct rest as [| c1 p2]; [intros E; injection E as <- <-; auto |].
  unfold utf8.in_range.
  destruct (Z.leb_spec lo (byte_val c1)); cbn [andb negb];
    [| intros E; injection E as <- <-; auto].
  destruct (byte_val c1 <=? hi); cbn [negb];
    [| intros E; injection E as <- <-; auto].
  assert (Hb1 : (128 <=? byte_val c1) = true) by (apply Z.leb_le; lia).
  destruct (n <=? 2)%nat.
  { intros E; injection E as <- <-. split; [right | lia].
    cbn [Nat.pred high_bytes]. rewrite Hb1. reflexivity. }
  destruct p2 as [| c2 p3]; [intros E; injection E as <- <-; auto |].
  unfold utf8.locb.
  destruct (Z.leb_spec 128 (byte_val c2)); cbn [andb negb];
    [| intros E; injection E as <- <-; auto].
  destruct (byte_val c2 <=? utf8.hicb); cbn [negb];
    [| intros E; injection E as <- <-; auto].
  assert (Hb2 : (128 <=? byte_val c2) = true) by (apply Z.leb_le; lia).
  destruct (n <=? 3)%nat.
  { intros E; injection E as <- <-. split; [right | lia].
    cbn [Nat.pred high_bytes]. rewrite Hb1, Hb2. reflexivity. }
  destruct p3 as [| c3 p4]; [intros E; injection E as <- <-; auto |].
  destruct (Z.leb_spec 128 (byte_val c3)); cbn [andb negb];
    [| intros E; injection E as <- <-; auto].
  destruct (byte_val c3 <=? utf8.hicb); cbn [negb];
    [| intros E; injection E as <- <-; auto].
  assert (Hb3 : (128 <=? byte_val c3) = true) by (apply Z.leb_le; lia).
  intros E; injection E as <- <-. split; [right | lia].
  cbn [Nat.pred high_bytes]. rewrite Hb1, Hb2, Hb3. reflexivity.
Qed.

(** A rune below 128 that [filterNonNumeric] keeps is a digit, ['-'] or
    ['.']. *)
Lemma filterNonNumeric_ascii (c : ascii) :
  byte_val c < 128 -> filterNonNumeric (byte_val c) = false ->
  numeric_byte c = true.
Proof.
  intros Hc H. unfold filterNonNumeric, IsNumber in H. unfold numeric_byte, strconv.is_digit.
  destruct (Z.eqb_spec (byte_val c) 45) as [E45 | N45].
  - rewrite E45. reflexivity.
  - destruct (Z.eqb_spec (byte_val c) 46) as [E46 | N46].
    + rewrite E46. reflexivity.
    + cbn [orb] in H. destruct (Z.ltb_spec (byte_val c) 128); [| lia].
      apply negb_false_iff in H. rewrite H. reflexivity.
Qed.

Lemma rest_of_ok (keep : bool) (k : nat) (src : string) :
  high_bytes k src = true -> mode_ok (transform.rest_of keep k) src.
Proof.
  intros H. unfold transform.rest_of.
  destruct k as [| k]; [exact I |].
  destruct keep; [split; [lia | exact H] | exact I].
Qed.

Lemma Transform_alphabet (src : string) :
  forall (m : transform.mode) (room : nat),
    mode_ok m src ->
    all_bytes numeric_byte (transform.Transform filterNonNumeric m room src) = true.
Proof.
  induction src as [| c rest IH]; intros m room Hm; [reflexivity |].
  cbn [transform.Transform].
  destruct m as [| k | k].
  - destruct (utf8.DecodeRune (String c rest)) as [r sz] eqn:Hdec.
    pose proof (DecodeRune_continuation c rest r sz Hdec) as [Hcont Hsz].
    destruct (Z.leb_spec 128 (byte_val c)) as [Hhigh | Hlow]; cbn [andb].
    + destruct (Nat.eqb_spec sz 1) as [-> | Hne].
      * destruct (filterNonNumeric r); [apply IH; exact I |].
        destruct (room <? 3)%nat; [reflexivity |].
        rewrite all_bytes_app, IH by exact I. reflexivity.
      * destruct Hcont as [-> | Hcont]; [contradiction |].
        destruct (filterNonNumeric r); [apply IH; apply rest_of_ok; exact Hcont |].
        destruct (room <? sz)%nat; [reflexivity |].
        cbn [all_bytes]. rewrite IH by (apply rest_of_ok; exact Hcont).
        unfold numeric_byte.
        destruct (Z.leb_spec 128 (byte_val c)); [| lia].
        rewrite !orb_true_r. reflexivity.
    + assert (Hr : r = byte_val c /\ sz = 1%nat).
      { unfold utf8.DecodeRune in Hdec.
        destruct (Z.ltb_spec (byte_val c) 128); [| lia].
        injection Hdec as <- <-. split; reflexivity. }
      destruct Hr as [-> ->].
      destruct (filterNonNumeric (byte_val c)) eqn:Hkeep; [apply IH; exact I |].
      destruct (room <? 1)%nat; [reflexivity |].
      cbn [all_bytes]. rewrite IH by exact I.
      rewrite (filterNonNumeric_ascii c Hlow Hkeep). reflexivity.
  - destruct Hm as [Hk Hhigh]. destruct k as [| k]; [lia |].
    cbn [high_bytes] in Hhigh. apply andb_true_iff in Hhigh as [Hc Hrest].
    cbn [all_bytes Nat.pred]. rewrite IH by (apply rest_of_ok; exact Hrest).
    unfold numeric_byte. rewrite Hc, !orb_true_r. reflexivity.
  - apply IH.
    unfold transform.rest_of. destruct (Nat.pred k); exact I.
Qed.

(** The strings [trToStock] hands to package strconv hold only digits,
    ['-'], ['.'] and bytes from 128 on: the ones the models of [Atoi] and
    [ParseFloat] are stated for. *)
Lemma filterNonNumeric_alphabet (i : nat) (sel2 : goquery.Node) :
  i <> 1%nat -> all_bytes numeric_byte (cell_text i sel2) = true.
Proof.
  intros Hi. unfold cell_text.
  destruct i as [| [| i]]; [| contradiction |]; apply Transform_alphabet; exact I.
Qed.

(** *** Documents without the table *)

(** Induction on a node with the property known of its children. *)
Lemma Node_children_ind (P : goquery.Node -> Prop) :
  (forall tag attr children,
      Forall P children -> P (goquery.ElementNode tag attr children)) ->
  (forall data, P (goquery.TextNode data)) ->
  (forall data, P (goquery.CommentNode data)) ->
  forall n, P n.
Proof.
  intros Helement Htext Hcomment.
  fix IH 1. intros [tag attr children | data | data].
  - apply Helement. revert children.
    fix IHchildren 1. intros [| c cs].
    + constructor.
    + constructor; [apply IH | apply IHchildren].
  - apply Htext.
  - apply Hcomment.
Qed.

(** Below ancestors of which none is the marked table, no node matches
    the selector of the rows. *)
Lemma Match_rows_unmarked (up : list goquery.Node) (n : goquery.Node) :
  Forall (fun p => marked p = false) up ->
  goquery.Match rows_selector up n = false.
Proof.
  intros Hup. unfold rows_selector. cbn [goquery.Match].
  apply andb_false_iff. right.
  induction Hup as [| p up' Hp Hup' IH]; [reflexivity |].
  rewrite IH, orb_false_r.
  apply andb_false_iff. right.
  clear IH Hp. induction Hup' as [| q up'' Hq Hup'' IH]; [reflexivity |].
  rewrite IH, orb_false_r. exact Hq.
Qed.

Lemma MatchAll_rows_unmarked (n : goquery.Node) :
  has_marked_table n = false ->
  forall up, Forall (fun p => marked p = false) up ->
             goquery.MatchAll rows_selector up n = [].
Proof.
  induction n as [tag attr children IH | data | data] using Node_children_ind;
    intros Hn up Hup; cbn [goquery.MatchAll];
    rewrite (Match_rows_unmarked up _ Hup); [| reflexivity | reflexivity].
  cbn [has_marked_table] in Hn. apply orb_false_iff in Hn as [Hself Hbelow].
  cbn [app].
  assert (Hup' : Forall (fun p => marked p = false)
                        (goquery.ElementNode tag attr children :: up))
    by (constructor; assumption).
  generalize dependent (goquery.ElementNode tag attr children :: up).
  intros up' Hup'. clear Hself Hup.
  induction IH as [| c cs Hc Hcs IHcs]; [reflexivity |].
  cbn [existsb] in Hbelow. apply orb_false_iff in Hbelow as [Hc' Hcs'].
  cbn [flat_map]. rewrite (Hc Hc' up' Hup'), (IHcs Hcs'). reflexivity.
Qed.

(** C5, as the code has it: on every document that holds no [table] of
    class [mdcTable], [parseTable] panics; it returns neither an error
    nor an empty sequence. *)
Theorem parseTable_without_table (doc : list goquery.Node) :
  existsb has_marked_table doc = false ->
  parseTable (goquery.Html doc)
  = Panics "runtime error: slice bounds out of range".
Proof.
  intros H. apply parseTable_no_rows. unfold goquery.Find.
  induction doc as [| n doc IH]; [reflexivity |].
  cbn [existsb] in H. apply orb_false_iff in H as [Hn Hdoc].
  cbn [flat_map].
  rewrite (MatchAll_rows_unmarked n Hn [] ltac:(constructor)), (IH Hdoc).
  reflexivity.
Qed.

(** ** Properties of [cache.Get] *)

(** C10: for every list and every date that fails validation, [Get]
    returns the error of the validation and leaves the process as it
    was: the map of the cache has no new entry and no request was made. *)
Theorem Get_invalid_date (mlist : MoverList) (d : Date) (w : World) (err : error) :
  Validate d = Some err ->
  Get mlist d w = (Returns ([], Some err), w).
Proof.
  intros E. unfold Get, dataURL. rewrite E. reflexivity.
Qed.

(** The same in the goroutine: with an invalid date the step after
    [c.Lock()] releases the cache and returns the error; the map and the
    requests are untouched. *)
Lemma step_invalid_date (st : State) (i : nat) (g : goroutine) (err : error) :
  st_goroutines st !! i = Some g ->
  g_pc g = AtLookup ->
  Validate (g_date g) = Some err ->
  step st i =
    Some {| st_cache := {| cache_locked := false;
                           cache_data := cache_data (st_cache st) |};
            st_requests := st_requests st;
            st_goroutines :=
              <[i := set_pc g (Finished (Returns ([], Some err)))]> (st_goroutines st) |}.
Proof.
  intros Hg Hpc E. unfold step. rewrite Hg, Hpc.
  unfold transition, dataURL. rewrite E. reflexivity.
Qed.

(** *** Nothing is ever stored *)

Lemma entry_for_all_empty (addr : string) (m : gmap string cached) :
  all_empty m ->
  cached_data (fst (entry_for addr m)) = []
  /\ all_empty (snd (entry_for addr m)).
Proof.
  intros Hm. unfold entry_for.
  destruct (m !! addr) as [val |] eqn:E; cbn [fst snd].
  - split; [apply (Hm addr val E) | exact Hm].
  - split; [reflexivity |].
    intros a v Ha.
    destruct (decide (addr = a)) as [-> | Hne].
    + rewrite lookup_insert_eq in Ha. injection Ha as <-. reflexivity.
    + rewrite lookup_insert_ne in Ha by exact Hne. apply (Hm a v Ha).
Qed.

(** [Get] assigns to no [val.data]: if every entry is empty before a
    call, every entry is empty after it. *)
Lemma Get_all_empty (mlist : MoverList) (d : Date) (w : World) :
  all_empty (entries w) -> all_empty (entries (snd (Get mlist d w))).
Proof.
  intros Hw. unfold Get.
  destruct (dataURL mlist d) as [addr [err |]]; [exact Hw |].
  destruct (entry_for_all_empty addr (entries w) Hw) as [_ Hm].
  destruct (entry_for addr (entries w)) as [val m]. cbn [snd] in Hm.
  destruct (0 <? length (cached_data val))%nat; exact Hm.
Qed.

Lemma reachable_all_empty (w : World) : reachable w -> all_empty (entries w).
Proof.
  induction 1 as [| mlist d w Hw IH].
  - intros addr val E. cbn [NewGetter entries] in E.
    rewrite lookup_empty in E. discriminate E.
  - apply Get_all_empty. exact IH.
Qed.

(** C1, as the code has it: in every world a process can reach, a call
    of [Get] for a date that passes validation sends a request to the
    server and returns what the response reads as; no earlier call for
    the same key, successful or not, spares it. *)
Theorem Get_always_fetches (mlist : MoverList) (d : Date) (w : World) :
  reachable w ->
  Validate d = None ->
  let addr := Sprintf mlist [Year d; Month d; Day d] in
  fst (Get mlist d w) = read_response (netClient_Get (requests w) addr)
  /\ requests (snd (Get mlist d w)) = (requests w ++ [addr])%list.
Proof.
  intros Hw E addr. unfold Get, dataURL. rewrite E. fold addr.
  destruct (entry_for_all_empty addr (entries w) (reachable_all_empty w Hw))
    as [Hval _].
  destruct (entry_for addr (entries w)) as [val m]. cbn [fst] in Hval.
  rewrite Hval. cbn [length Nat.ltb Nat.leb fst snd requests].
  split; reflexivity.
Qed.

(** *** The goroutine and the call *)

Lemma set_entry_lock_lookup (b : bool) (addr : string) (m : gmap string cached)
  (val : cached) :
  m !! addr = Some val ->
  set_entry_lock b addr m
  = <[addr := {| cached_locked := b; cached_data := cached_data val |}]> m.
Proof. intros E. unfold set_entry_lock. rewrite E. reflexivity. Qed.

(** Locking an entry that was free and unlocking it again gives the map
    back. *)
Lemma lock_unlock_entry (addr : string) (m : gmap string cached) (val : cached) :
  m !! addr = Some val -> cached_locked val = false ->
  set_entry_lock false addr (set_entry_lock true addr m) = m.
Proof.
  intros E Hfree.
  rewrite (set_entry_lock_lookup true addr m val E).
  rewrite (set_entry_lock_lookup false addr _ _ (lookup_insert_eq _ _ _)).
  cbn [cached_data]. rewrite insert_insert_eq.
  apply insert_id. rewrite E. f_equal.
  destruct val as [l data]. cbn in Hfree. subst l. reflexivity.
Qed.

(** Alone and with every mutex free, the goroutine returns within seven
    steps, with what [Get] returns, and leaves the cache and the requests
    as [Get] does, every mutex free again. *)
Lemma Get_run_alone (mlist : MoverList) (d : Date) (c : cache) (reqs : list string) :
  all_free c ->
  let call := Get mlist d {| entries := cache_data c; requests := reqs |} in
  run_alone 7 mlist d AtCacheLock c reqs
  = ({| cache_locked := false; cache_data := entries (snd call) |},
     requests (snd call), Finished (fst call)).
Proof.
  intros [Hc Hentries]. destruct c as [l m]. cbn [cache_locked cache_data] in *.
  subst l. cbv zeta. unfold Get. cbn [entries requests].
  cbn [run_alone transition cache_locked cache_data].
  destruct (dataURL mlist d) as [addr [err |]]; [reflexivity |].
  assert (Hfound : exists val,
             snd (entry_for addr m) !! addr = Some val
             /\ cached_locked val = false
             /\ entry_for addr m = (val, snd (entry_for addr m))
             /\ forall a v, snd (entry_for addr m) !! a = Some v -> cached_locked v = false).
  { unfold entry_for. destruct (m !! addr) as [val |] eqn:E; cbn [snd].
    - exists val. repeat split; [exact E | apply (Hentries addr val E) | exact Hentries].
    - exists new_cached. repeat split; [apply lookup_insert_eq |].
      intros a v Ha. destruct (decide (addr = a)) as [-> | Hne].
      + rewrite lookup_insert_eq in Ha. injection Ha as <-. reflexivity.
      + rewrite lookup_insert_ne in Ha by exact Hne. apply (Hentries a v Ha). }
  destruct Hfound as [val [Hval [Hfree [Hpair _]]]].
  rewrite Hpair. set (m' := snd (entry_for addr m)) in *. clearbody m'.
  cbn [run_alone transition cache_locked cache_data snd].
  rewrite Hval, Hfree.
  cbn [run_alone transition cache_locked cache_data].
  rewrite (set_entry_lock_lookup true addr m' val Hval) at 1.
  rewrite lookup_insert_eq. cbn [cached_data].
  destruct (0 <? length (cached_data val))%nat.
  - cbn [transition fst snd entries requests].
    rewrite (lock_unlock_entry addr m' val Hval Hfree). reflexivity.
  - cbn [transition cache_locked cache_data fst snd entries requests].
    rewrite (lock_unlock_entry addr m' val Hval Hfree). reflexivity.
Qed.

(** *** Nothing is stored when calls run together either *)

Lemma transition_all_empty (mlist : MoverList) (d : Date) (p p' : pc)
  (c c' : cache) (reqs reqs' : list string) :
  transition mlist d p c reqs = Some (c', reqs', p') ->
  all_empty (cache_data c) -> all_empty (cache_data c').
Proof.
  assert (Hlock : forall b addr m, all_empty m -> all_empty (set_entry_lock b addr m)).
  { intros b addr m Hm. unfold set_entry_lock.
    destruct (m !! addr) as [val |] eqn:E; [| exact Hm].
    intros a v Ha. destruct (decide (addr = a)) as [-> | Hne].
    - rewrite lookup_insert_eq in Ha. injection Ha as <-. apply (Hm a val E).
    - rewrite lookup_insert_ne in Ha by exact Hne. apply (Hm a v Ha). }
  intros E Hc. unfold transition in E.
  destruct p as [| | addr | addr | addr | addr | addr before | r].
  - destruct (cache_locked c); [discriminate E |]. injection E as <- _ _. exact Hc.
  - destruct (dataURL mlist d) as [addr [err |]]; injection E as <- _ _; cbn [cache_data].
    + exact Hc.
    + apply entry_for_all_empty. exact Hc.
  - destruct (cache_data c !! addr) as [val |]; [| discriminate E].
    destruct (cached_locked val); [discriminate E |].
    injection E as <- _ _. apply Hlock. exact Hc.
  - injection E as <- _ _. exact Hc.
  - destruct (cache_data c !! addr) as [val |]; [| discriminate E].
    destruct (0 <? length (cached_data val))%nat; injection E as <- _ _.
    + apply Hlock. exact Hc.
    + exact Hc.
  - injection E as <- _ _. exact Hc.
  - injection E as <- _ _. apply Hlock. exact Hc.
  - discriminate E.
Qed.

(** Whatever the calls and however they are scheduled, every entry of
    the cache stays empty. *)
Lemma run_all_empty (schedule : list nat) :
  forall st st',
    run schedule st = Some st' ->
    all_empty (cache_data (st_cache st)) ->
    all_empty (cache_data (st_cache st')).
Proof.
  induction schedule as [| i rest IH]; intros st st' E Hst; cbn [run] in E.
  - injection E as <-. exact Hst.
  - destruct (step st i) as [st1 |] eqn:Hstep; [| discriminate E].
    apply (IH st1 st' E). unfold step in Hstep.
    destruct (st_goroutines st !! i) as [g |]; [| discriminate Hstep].
    destruct (transition _ _ _ _ _) as [[[c reqs] p] |] eqn:Ht; [| discriminate Hstep].
    injection Hstep as <-. cbn [st_cache].
    apply (transition_all_empty _ _ _ _ _ _ _ _ Ht Hst).
Qed.

(** *** No call is served from the cache *)

Lemma set_entry_lock_present (b : bool) (addr a : string) (m : gmap string cached) :
  is_Some (m !! a) -> is_Some (set_entry_lock b addr m !! a).
Proof.
  intros H. unfold set_entry_lock.
  destruct (m !! addr) as [val |]; [| exact H].
  destruct (decide (addr = a)) as [-> | Hne].
  - rewrite lookup_insert_eq. eexists. reflexivity.
  - rewrite lookup_insert_ne by exact Hne. exact H.
Qed.

Lemma entry_for_present (addr a : string) (m : gmap string cached) :
  is_Some (m !! a) \/ a = addr -> is_Some (snd (entry_for addr m) !! a).
Proof.
  intros H. unfold entry_for.
  destruct (m !! addr) as [val |] eqn:E; cbn [snd].
  - destruct H as [H | ->]; [exact H | rewrite E; eexists; reflexivity].
  - destruct (decide (addr = a)) as [-> | Hne].
    + rewrite lookup_insert_eq. eexists. reflexivity.
    + rewrite lookup_insert_ne by exact Hne.
      destruct H as [H | ->]; [exact H | contradiction].
Qed.

(** A step removes no entry, and the entry of the goroutine that moved
    is there. *)
Lemma transition_present (mlist : MoverList) (d : Date) (p p' : pc)
  (c c' : cache) (reqs reqs' : list string) :
  transition mlist d p c reqs = Some (c', reqs', p') ->
  (forall a, pc_entry p = Some a -> is_Some (cache_data c !! a)) ->
  (forall a, is_Some (cache_data c !! a) -> is_Some (cache_data c' !! a))
  /\ (forall a, pc_entry p' = Some a -> is_Some (cache_data c' !! a)).
Proof.
  intros E Hp. unfold transition in E.
  destruct p as [| | addr | addr | addr | addr | addr before | r];
    cbn [pc_entry] in Hp.
  - destruct (cache_locked c); [discriminate E |]. injection E as <- _ <-.
    cbn [cache_data pc_entry]. split; [auto | discriminate].
  - destruct (dataURL mlist d) as [addr [err |]]; injection E as <- _ <-;
      cbn [cache_data pc_entry].
    + split; [auto | discriminate].
    + split.
      * intros a Ha. apply entry_for_present. left. exact Ha.
      * intros a Ha. injection Ha as <-. apply entry_for_present. right. reflexivity.
  - destruct (cache_data c !! addr) as [val |]; [| discriminate E].
    destruct (cached_locked val); [discriminate E |].
    injection E as <- _ <-. cbn [cache_data pc_entry]. split.
    + intros a Ha. apply set_entry_lock_present. exact Ha.
    + intros a Ha. apply set_entry_lock_present. apply Hp. exact Ha.
  - injection E as <- _ <-. cbn [cache_data pc_entry]. split; auto.
  - destruct (cache_data c !! addr) as [val |]; [| discriminate E].
    destruct (0 <? length (cached_data val))%nat; injection E as <- _ <-;
      cbn [cache_data pc_entry].
    + split; [| discriminate].
      intros a Ha. apply set_entry_lock_present. exact Ha.
    + split; auto.
  - injection E as <- _ <-. cbn [pc_entry]. split; auto.
  - injection E as <- _ <-. cbn [cache_data pc_entry]. split; [| discriminate].
    intros a Ha. apply set_entry_lock_present. exact Ha.
  - discriminate E.
Qed.

Lemma step_entries_present (st st' : State) (i : nat) :
  step st i = Some st' -> entries_present st -> entries_present st'.
Proof.
  intros Hstep Hst. unfold step in Hstep.
  destruct (st_goroutines st !! i) as [g |] eqn:Hg; [| discriminate Hstep].
  destruct (transition _ _ _ _ _) as [[[c reqs] p] |] eqn:Ht; [| discriminate Hstep].
  injection Hstep as <-.
  destruct (transition_present _ _ _ _ _ _ _ _ Ht (Hst i g Hg)) as [Hkept Hnew].
  intros j g' Hj a Ha. cbn [st_goroutines st_cache] in *.
  destruct (decide (i = j)) as [-> | Hne].
  - rewrite list_lookup_insert_eq in Hj by (apply (lookup_lt_Some _ _ _ Hg)).
    injection Hj as <-. apply Hnew. exact Ha.
  - rewrite list_lookup_insert_ne in Hj by exact Hne.
    apply Hkept. apply (Hst j g' Hj a Ha).
Qed.

Lemma run_entries_present (schedule : list nat) :
  forall st st',
    run schedule st = Some st' -> entries_present st -> entries_present st'.
Proof.
  induction schedule as [| i rest IH]; intros st st' E Hst; cbn [run] in E.
  - injection E as <-. exact Hst.
  - destruct (step st i) as [st1 |] eqn:Hstep; [| discriminate E].
    apply (IH st1 st' E). apply (step_entries_present st st1 i Hstep Hst).
Qed.

(** Whatever the calls, and however they are scheduled: a call that has
    reached the test [len(val.data) > 0] finds the entry empty and goes
    on to the request. *)
Lemma never_served_from_cache (calls : list (MoverList * Date))
  (schedule : list nat) (st : State) (i : nat) (g : goroutine) (addr : string) :
  run schedule (start calls) = Some st ->
  st_goroutines st !! i = Some g ->
  g_pc g = AtCheck addr ->
  transition (g_list g) (g_date g) (g_pc g) (st_cache st) (st_requests st)
  = Some (st_cache st, st_requests st, AtRequest addr).
Proof.
  intros Hrun Hg Hpc.
  assert (Hempty : all_empty (cache_data (st_cache st))).
  { apply (run_all_empty schedule _ _ Hrun).
    intros a v Ha. cbn in Ha. rewrite lookup_empty in Ha. discriminate Ha. }
  assert (Hpresent : entries_present st).
  { apply (run_entries_present schedule _ _ Hrun).
    intros j g' Hj a Ha. unfold start in Hj. cbn [st_goroutines] in Hj.
    rewrite list_lookup_fmap in Hj.
    destruct (calls !! j) as [call |]; [| discriminate Hj].
    injection Hj as <-. discriminate Ha. }
  rewrite Hpc. unfold transition.
  destruct (Hpresent i g Hg addr) as [val Hval]; [rewrite Hpc; reflexivity |].
  rewrite Hval, (Hempty addr val Hval). reflexivity.
Qed.


(** ** More on [parseTable]: what comes back, and when *)

Lemma convert_rows_result (rows : list goquery.Node) :
  forall (acc results : list Stock) (err : option error),
    convert_rows rows acc = (results, err) <->
    match err with
    | None =>
      exists new, results = (acc ++ new)%list
                  /\ Forall2 (fun row s => trToStock row = inl s) rows new
    | Some e =>
      exists new pre bad post,
        results = (acc ++ new)%list
        /\ rows = (pre ++ bad :: post)%list
        /\ Forall2 (fun row s => trToStock row = inl s) pre new
        /\ trToStock bad = inr e
    end.
Proof.
  induction rows as [| row rest IH]; intros acc results err; cbn [convert_rows].
  - split.
    + intros E. injection E as <- <-. exists []. rewrite app_nil_r.
      split; [reflexivity | constructor].
    + destruct err as [e |].
      * intros [new [pre [bad [post [_ [Hrows _]]]]]].
        destruct pre; discriminate Hrows.
      * intros [new [-> Hnew]]. inversion Hnew. rewrite app_nil_r. reflexivity.
  - destruct (trToStock row) as [s | e0] eqn:Hrow.
    + rewrite IH. destruct err as [e |].
      * split.
        -- intros [new [pre [bad [post [-> [-> [Hpre Hbad]]]]]]].
           exists (s :: new), (row :: pre), bad, post.
           rewrite <- app_assoc. repeat split; [constructor; assumption | exact Hbad].
        -- intros [new [pre [bad [post [-> [Hrows [Hpre Hbad]]]]]]].
           destruct pre as [| row' pre].
           ++ cbn [app] in Hrows. injection Hrows as <- <-.
              rewrite Hrow in Hbad. discriminate Hbad.
           ++ cbn [app] in Hrows. injection Hrows as <- ->.
              inversion Hpre as [| ? s' ? new' Hs' Hpre']; subst.
              rewrite Hrow in Hs'. injection Hs' as <-.
              exists new', pre, bad, post.
              rewrite <- app_assoc. repeat split; assumption.
      * split.
        -- intros [new [-> Hnew]]. exists (s :: new).
           rewrite <- app_assoc. split; [reflexivity | constructor; assumption].
        -- intros [new [-> Hnew]].
           inversion Hnew as [| ? s' ? new' Hs' Hnew']; subst.
           rewrite Hrow in Hs'. injection Hs' as <-.
           exists new'. rewrite <- app_assoc. split; [reflexivity | assumption].
    + split.
      * intros E. injection E as <- <-.
        exists [], [], row, rest. rewrite app_nil_r.
        repeat split; [constructor | exact Hrow].
      * destruct err as [e |].
        -- intros [new [pre [bad [post [-> [Hrows [Hpre Hbad]]]]]]].
           destruct pre as [| row' pre].
           ++ cbn [app] in Hrows. injection Hrows as <- <-.
              rewrite Hrow in Hbad. injection Hbad as <-.
              inversion Hpre. rewrite app_nil_r. reflexivity.
           ++ cbn [app] in Hrows. injection Hrows as <- ->.
              inversion Hpre as [| ? s' ? new' Hs' Hpre']; subst.
              rewrite Hrow in Hs'. discriminate Hs'.
        -- intros [new [-> Hnew]].
           inversion Hnew as [| ? s' ? new' Hs' Hnew']; subst.
           rewrite Hrow in Hs'. discriminate Hs'.
Qed.

(** X1: on a document with a header row, [parseTable] returns no error
    exactly when every row after the header converts, and then it returns
    the records of these rows, one per row and in the order of the
    document. *)
Theorem parseTable_success_iff (doc : list goquery.Node) (hdr : goquery.Node)
  (rows : list goquery.Node) (results : list Stock) :
  goquery.Find rows_selector doc = hdr :: rows ->
  parseTable (goquery.Html doc) = Returns (results, None)
  <-> Forall2 (fun row s => trToStock row = inl s) rows results.
Proof.
  intros Hfind. rewrite (parseTable_rows doc hdr rows Hfind).
  split.
  - intros E. injection E as E.
    apply (convert_rows_result rows [] results None) in E as [new [-> Hnew]].
    exact Hnew.
  - intros H. f_equal.
    apply (convert_rows_result rows [] results None).
    exists results. split; [reflexivity | exact H].
Qed.

(** X2: on a document with a header row, [parseTable] returns the error
    [err] exactly when some row after the header fails to convert with
    [err] and every row before it converts; the records of the rows
    before it are returned with the error, and the rows after it are not
    looked at. *)
Theorem parseTable_failure_iff (doc : list goquery.Node) (hdr : goquery.Node)
  (rows : list goquery.Node) (results : list Stock) (err : error) :
  goquery.Find rows_selector doc = hdr :: rows ->
  parseTable (goquery.Html doc) = Returns (results, Some err)
  <-> exists pre bad post,
        rows = (pre ++ bad :: post)%list
        /\ Forall2 (fun row s => trToStock row = inl s) pre results
        /\ trToStock bad = inr err.
Proof.
  intros Hfind. rewrite (parseTable_rows doc hdr rows Hfind).
  split.
  - intros E. injection E as E.
    apply (convert_rows_result rows [] results (Some err)) in E
      as [new [pre [bad [post [-> [Hrows [Hpre Hbad]]]]]]].
    exists pre, bad, post. repeat split; assumption.
  - intros [pre [bad [post [Hrows [Hpre Hbad]]]]]. f_equal.
    apply (convert_rows_result rows [] results (Some err)).
    exists results, pre, bad, post. repeat split; assumption.
Qed.

(** ** More on [filterNonNumeric] *)

Lemma Transform_ascii (src : string) :
  forall room : nat,
    all_bytes is_ascii src = true ->
    (String.length src <= room)%nat ->
    transform.Transform filterNonNumeric transform.Decode room src
    = keep_numeric src.
Proof.
  induction src as [| c rest IH]; intros room Hascii Hroom; [reflexivity |].
  cbn [all_bytes] in Hascii. apply andb_true_iff in Hascii as [Hc Hrest].
  unfold is_ascii in Hc. apply Z.ltb_lt in Hc.
  cbn [String.length] in Hroom.
  cbn [transform.Transform keep_numeric].
  assert (Hdec : utf8.DecodeRune (String c rest) = (byte_val c, 1%nat)).
  { unfold utf8.DecodeRune. destruct (Z.ltb_spec (byte_val c) 128); [reflexivity | lia]. }
  rewrite Hdec.
  destruct (Z.leb_spec 128 (byte_val c)); [lia |]. cbn [andb Nat.pred transform.rest_of].
  assert (Hkeep : filterNonNumeric (byte_val c) = negb (ascii_numeric c)).
  { unfold filterNonNumeric, IsNumber, ascii_numeric, strconv.is_digit.
    destruct (Z.ltb_spec (byte_val c) 128); [| lia].
    destruct (Z.eqb_spec (byte_val c) 45) as [-> | _]; [reflexivity |].
    destruct (Z.eqb_spec (byte_val c) 46) as [-> | _]; [reflexivity |].
    cbn [orb]. rewrite !orb_false_r. reflexivity. }
  rewrite Hkeep.
  destruct (ascii_numeric c); cbn [negb].
  - destruct (Nat.ltb_spec room 1); [lia |].
    rewrite IH by (assumption || lia). reflexivity.
  - apply IH; [assumption | lia].
Qed.

(** X3: of a cell whose text is ASCII, every cell but the name cell is
    read as the digits, minus signs and points of its text, in their
    order and with nothing else: currency signs, commas, percent signs,
    letters and white space are dropped, and the buffer of the length of
    the text never runs short. *)
Theorem cell_text_ascii (i : nat) (sel2 : goquery.Node) :
  i <> 1%nat ->
  all_bytes is_ascii (goquery.Text sel2) = true ->
  cell_text i sel2 = keep_numeric (goquery.Text sel2).
Proof.
  intros Hi Hascii. unfold cell_text.
  destruct i as [| [| i]]; [| contradiction |];
    apply Transform_ascii; (assumption || lia).
Qed.

(** ** More on the name and the ticker *)

Lemma string_app_cons (x : ascii) (a b : string) :
  String x a ++ b = String x (a ++ b).
Proof. reflexivity. Qed.

Lemma string_app_assoc (a b c : string) : (a ++ b) ++ c = a ++ (b ++ c).
Proof.
  induction a as [| x a IH]; [reflexivity |].
  rewrite !string_app_cons, IH. reflexivity.
Qed.

Lemma string_length_app (a b : string) :
  String.length (a ++ b) = (String.length a + String.length b)%nat.
Proof.
  induction a as [| x a IH]; [reflexivity |].
  rewrite string_app_cons. cbn [String.length]. rewrite IH. reflexivity.
Qed.

Lemma substring_prefix (b c : string) : substring 0 (String.length b) (b ++ c) = b.
Proof.
  induction b as [| x b IH].
  - destruct c; reflexivity.
  - rewrite string_app_cons. cbn [String.length substring]. rewrite IH. reflexivity.
Qed.

Lemma substring_middle (a b c : string) :
  substring (String.length a) (String.length b) (a ++ b ++ c) = b.
Proof.
  induction a as [| x a IH].
  - exact (substring_prefix b c).
  - rewrite string_app_cons. cbn [String.length substring]. exact IH.
Qed.

Lemma match_here_plus (c : regexp.class) (rest : list regexp.item)
  (a : ascii) (s' : string) (pos : nat) (marks : list nat) :
  regexp.match_here (regexp.Plus c :: rest) (String a s') pos marks
  = if regexp.accepts c a then
      match regexp.match_here (regexp.Plus c :: rest) s' (S pos) marks with
      | Some r => Some r
      | None => regexp.match_here rest s' (S pos) marks
      end
    else None.
Proof. reflexivity. Qed.

Lemma match_here_plus_empty (c : regexp.class) (rest : list regexp.item)
  (pos : nat) (marks : list nat) :
  regexp.match_here (regexp.Plus c :: rest) "" pos marks = None.
Proof. reflexivity. Qed.

(** What [match_here] finds is a match: it has taken a prefix of the
    subject that the items derive, and stops right after it. *)
Lemma match_here_derives (items : list regexp.item) :
  forall (s : string) (pos : nat) (marks marks' : list nat) (stop : nat),
    regexp.match_here items s pos marks = Some (marks', stop) ->
    exists w rest,
      s = w ++ rest
      /\ stop = (pos + String.length w)%nat
      /\ derives items pos w marks marks'.
Proof.
  induction items as [| item items IH]; intros s pos marks marks' stop E.
  - cbn [regexp.match_here] in E. injection E as <- <-.
    exists "", s. repeat split; [cbn [String.length]; lia | constructor].
  - destruct item as [c | c | |].
    + cbn [regexp.match_here] in E.
      destruct s as [| a s']; [discriminate E |].
      destruct (regexp.accepts c a) eqn:Ha; [| discriminate E].
      destruct (IH _ _ _ _ _ E) as [w [rest [-> [-> Hd]]]].
      exists (String a w), rest. repeat split; [cbn [String.length]; lia |].
      constructor; assumption.
    + revert pos E. induction s as [| a s' IHs]; intros pos E.
      * rewrite match_here_plus_empty in E. discriminate E.
      * rewrite match_here_plus in E.
        destruct (regexp.accepts c a) eqn:Ha; [| discriminate E].
        destruct (regexp.match_here (regexp.Plus c :: items) s' (S pos) marks)
          as [r |] eqn:Hmore.
        -- injection E as ->.
           destruct (IHs _ Hmore) as [w [rest [-> [-> Hd]]]].
           inversion Hd as [| | | | ? ? u ? w2 ? ? Hu Hall Hrest]; subst.
           exists (String a u ++ w2), rest. split; [| split].
           ++ reflexivity.
           ++ rewrite string_app_cons, !string_length_app. cbn [String.length].
              rewrite string_length_app. lia.
           ++ apply (derives_plus c items (String a u)).
              ** discriminate.
              ** cbn [all_bytes]. rewrite Ha, Hall. reflexivity.
              ** cbn [String.length].
                 replace (pos + S (String.length u))%nat
                   with (S pos + String.length u)%nat by lia.
                 exact Hrest.
        -- destruct (IH _ _ _ _ _ E) as [w [rest [-> [-> Hd]]]].
           exists (String a "" ++ w), rest. split; [| split].
           ++ reflexivity.
           ++ change (String a "" ++ w) with (String a w).
              cbn [String.length]. lia.
           ++ apply (derives_plus c items (String a "")).
              ** discriminate.
              ** cbn [all_bytes]. rewrite Ha. reflexivity.
              ** cbn [String.length].
                 replace (pos + 1)%nat with (S pos) by lia. exact Hd.
    + cbn [regexp.match_here] in E.
      destruct (IH _ _ _ _ _ E) as [w [rest [-> [-> Hd]]]].
      exists w, rest. repeat split. constructor. exact Hd.
    + cbn [regexp.match_here] in E.
      destruct (IH _ _ _ _ _ E) as [w [rest [-> [-> Hd]]]].
      exists w, rest. repeat split. constructor. exact Hd.
Qed.

(** [search] skips a prefix of the subject and matches from there. *)
Lemma search_match (items : list regexp.item) (s : string) :
  forall (pos start : nat) (marks : list nat) (stop : nat),
    regexp.search items s pos = Some (start, marks, stop) ->
    exists before s',
      s = before ++ s'
      /\ start = (pos + String.length before)%nat
      /\ regexp.match_here items s' start [] = Some (marks, stop).
Proof.
  induction s as [| a s IH]; intros pos start marks stop E; cbn [regexp.search] in E.
  - destruct (regexp.match_here items "" pos []) as [[m st] |] eqn:Hm; [| discriminate E].
    injection E as <- <- <-. exists "", "". repeat split; [cbn [String.length]; lia | exact Hm].
  - destruct (regexp.match_here items (String a s) pos []) as [[m st] |] eqn:Hm.
    + injection E as <- <- <-. exists "", (String a s).
      repeat split; [cbn [String.length]; lia | exact Hm].
    + destruct (IH _ _ _ _ E) as [before [s' [-> [-> Hs']]]].
      exists (String a before), s'. repeat split; [cbn [String.length]; lia | exact Hs'].
Qed.

Lemma accepts_Lit (l a : ascii) : regexp.accepts (regexp.Lit l) a = true -> a = l.
Proof. cbn [regexp.accepts]. apply Ascii.eqb_eq. Qed.

(** What a match of the pattern [(.+)\s\((.+)\)] is made of. *)
Lemma derives_nameAndSymbol (start : nat) (w : string) (marks : list nat) :
  derives nameAndSymbolPattern start w [] marks ->
  exists name sp ticker,
    w = name ++ String sp (String "(" (ticker ++ ")"))
    /\ marks = [(start + String.length name + 2 + String.length ticker)%nat;
                (start + String.length name + 2)%nat;
                (start + String.length name)%nat; start]
    /\ regexp.accepts regexp.Space sp = true
    /\ name <> "" /\ ticker <> ""
    /\ all_bytes (regexp.accepts regexp.Dot) name = true
    /\ all_bytes (regexp.accepts regexp.Dot) ticker = true.
Proof.
  unfold nameAndSymbolPattern. intros H.
  inversion H as [| ? ? ? ? ? H1 | | |]; subst; clear H.
  inversion H1 as [| | | | ? ? name ? w1 ? ? Hname Hname_dot H2]; subst; clear H1.
  inversion H2 as [| | ? ? ? ? ? H3 | |]; subst; clear H2.
  inversion H3 as [| | | ? ? sp ? w2 ? ? Hsp H4 |]; subst; clear H3.
  inversion H4 as [| | | ? ? a ? w3 ? ? Ha H5 |]; subst; clear H4.
  apply accepts_Lit in Ha. subst a.
  inversion H5 as [| ? ? ? ? ? H6 | | |]; subst; clear H5.
  inversion H6 as [| | | | ? ? ticker ? w4 ? ? Hticker Hticker_dot H7]; subst; clear H6.
  inversion H7 as [| | ? ? ? ? ? H8 | |]; subst; clear H7.
  inversion H8 as [| | | ? ? b ? w5 ? ? Hb H9 |]; subst; clear H8.
  apply accepts_Lit in Hb. subst b.
  inversion H9; subst; clear H9.
  exists name, sp, ticker.
  repeat split; try assumption.
  repeat f_equal; lia.
Qed.

(** On the pattern alone: when [FindStringSubmatch] finds a match of
    [nameAndSymbolPattern] it returns three strings, the match, the name
    and the ticker; the subject holds the match, which is the name, one
    white space, and the ticker in parentheses; name and ticker are not
    empty and hold no newline. *)
Lemma FindStringSubmatch_name_ticker (s : string) :
  regexp.FindStringSubmatch nameAndSymbolPattern s <> [] ->
  exists before name sp ticker after,
    regexp.FindStringSubmatch nameAndSymbolPattern s
    = [name ++ String sp (String "(" (ticker ++ ")")); name; ticker]
    /\ s = before ++ (name ++ String sp (String "(" (ticker ++ ")"))) ++ after
    /\ regexp.accepts regexp.Space sp = true
    /\ name <> "" /\ ticker <> ""
    /\ all_bytes (regexp.accepts regexp.Dot) name = true
    /\ all_bytes (regexp.accepts regexp.Dot) ticker = true.
Proof.
  unfold regexp.FindStringSubmatch. intros Hfound.
  destruct (regexp.search nameAndSymbolPattern s 0) as [[[start marks] stop] |] eqn:Hs;
    [| contradiction].
  clear Hfound.
  destruct (search_match _ _ _ _ _ _ Hs) as [before [s' [-> [-> Hm]]]].
  destruct (match_here_derives _ _ _ _ _ _ Hm) as [w [after [-> [-> Hd]]]].
  destruct (derives_nameAndSymbol _ _ _ Hd)
    as [name [sp [ticker [-> [-> [Hsp [Hname [Hticker [Hnd Htd]]]]]]]]].
  exists before, name, sp, ticker, after.
  split; [| repeat split; assumption].
  cbn [regexp.groups Nat.add].
  set (whole := name ++ String sp (String "(" (ticker ++ ")"))).
  replace (String.length before + String.length whole - String.length before)%nat
    with (String.length whole) by lia.
  replace (String.length before + String.length name - String.length before)%nat
    with (String.length name) by lia.
  replace (String.length before + String.length name + 2 + String.length ticker
           - (String.length before + String.length name + 2))%nat
    with (String.length ticker) by lia.
  f_equal; [| f_equal; [| f_equal]].
  - apply substring_middle.
  - unfold whole. rewrite string_app_assoc. apply substring_middle.
  - replace (String.length before + String.length name + 2)%nat
      with (String.length (before ++ name ++ String sp (String "(" ""))).
    + replace (before ++ whole ++ after)
        with ((before ++ name ++ String sp (String "(" "")) ++ ticker ++ (")" ++ after)).
      * apply substring_middle.
      * unfold whole. rewrite !string_app_assoc, !string_app_cons, !string_app_assoc.
        reflexivity.
    + rewrite !string_length_app. cbn [String.length]. lia.
Qed.

(** X5: a row that converts has a second cell whose text holds the
    record's name, one white space, and the record's ticker in
    parentheses; neither the name nor the ticker is empty or holds a
    newline. *)
Theorem trToStock_name_ticker (row : goquery.Node) (s : Stock) :
  trToStock row = inl s ->
  exists cell before sp after,
    cells row !! 1%nat = Some cell
    /\ goquery.Text cell
       = before ++ (Name s ++ String sp (String "(" (Ticker s ++ ")"))) ++ after
    /\ regexp.accepts regexp.Space sp = true
    /\ Name s <> "" /\ Ticker s <> ""
    /\ all_bytes (regexp.accepts regexp.Dot) (Name s) = true
    /\ all_bytes (regexp.accepts regexp.Dot) (Ticker s) = true.
Proof.
  unfold trToStock. fold (cells row). intros H.
  destruct (Nat.eqb_spec (length (imap cell_text (cells row))) 6) as [Hlen |];
    [| discriminate].
  cbn [negb] in H.
  destruct (cells row) as [| c0 [| cell rest]] eqn:Hcells;
    [discriminate | discriminate |].
  cbn [imap nth] in H. unfold compose in H.
  change (cell_text 1 cell) with (goquery.Text cell) in H.
  destruct (regexp.FindStringSubmatch nameAndSymbolPattern (goquery.Text cell))
    as [| m ms] eqn:Hm; [discriminate |].
  assert (Hfound : regexp.FindStringSubmatch nameAndSymbolPattern (goquery.Text cell) <> [])
    by (rewrite Hm; discriminate).
  destruct (FindStringSubmatch_name_ticker _ Hfound)
    as [before [name [sp [ticker [after [Heq [Htext [Hsp [Hn [Ht [Hnd Htd]]]]]]]]]]].
  rewrite Hm in Heq. rewrite Heq in H. cbn [length Nat.eqb negb nth] in H.
  destruct (strconv.Atoi _); [| discriminate].
  destruct (strconv.ParseFloat _); [| discriminate].
  destruct (strconv.ParseFloat _); [| discriminate].
  injection H as <-. cbn [Name Ticker].
  exists cell, before, sp, after.
  repeat split; assumption.
Qed.

(** ** Dates outside the calendar *)

Lemma days_in_month_bound (y m : Z) : 0 <= days_in_month y m <= 31.
Proof.
  unfold days_in_month.
  destruct m as [| p | p]; try lia.
  do 4 (try destruct p as [p | p |]); try lia; destruct (leap_year y); lia.
Qed.

Lemma days_in_months_snoc (y : Z) (n : nat) (first : Z) :
  days_in_months y first (S n)
  = days_in_months y first n + days_in_month y (first + Z.of_nat n).
Proof.
  revert first. induction n as [| n IH]; intros first.
  - cbn [days_in_months]. replace (first + Z.of_nat 0) with first by lia. lia.
  - change (days_in_months y first (S (S n)))
      with (days_in_month y first + days_in_months y (first + 1) (S n)).
    rewrite IH. cbn [days_in_months].
    replace (first + 1 + Z.of_nat n) with (first + Z.of_nat (S n)) by lia. lia.
Qed.

(** The seconds [time.Date] gives a month of the calendar and a day up to
    31, which the month need not have. *)
Lemma Date_days (y m d : Z) :
  1 <= m <= 12 -> 1 <= d <= 31 -> 2010 <= y <= lastWholeYear ->
  time.Date y m d
  = {| time.abs := (time.daysSinceEpoch y
                    + days_in_months y 1 (Z.to_nat (m - 1)) + (d - 1))
                   * time.secondsPerDay |}.
Proof.
  intros Hm Hd Hy. unfold time.Date.
  rewrite (wrap_int_small (m - 1)) by (unfold minInt, maxInt; lia).
  rewrite norm_in_range by lia.
  replace (m - 1 + 1) with m by lia.
  pose proof (daysSinceEpoch_bound y Hy) as Hb.
  pose proof (daysBefore_months y m ltac:(lia) Hm) as Hdb.
  pose proof (days_in_months_bound y (Z.to_nat (m - 1)) 1) as Hmb.
  set (db := nth (Z.to_nat (m - 1)) time.daysBefore 0) in *.
  assert (Hdb0 : 0 <= db <= 365) by apply daysBefore_bound.
  rewrite (wrap_uint64_small (_ + db)) by lia.
  assert (Hleap : (if time.isLeap y && (3 <=? m)
                   then wrap_uint64 (time.daysSinceEpoch y + db + 1)
                   else time.daysSinceEpoch y + db)
                  = time.daysSinceEpoch y + days_in_months y 1 (Z.to_nat (m - 1))).
  { destruct (time.isLeap y && (3 <=? m)).
    - rewrite wrap_uint64_small by lia. lia.
    - lia. }
  rewrite Hleap. clear Hleap.
  rewrite (wrap_uint64_small (d - 1)) by lia.
  rewrite (wrap_uint64_small (_ + (d - 1))) by lia.
  unfold time.secondsPerDay.
  rewrite wrap_uint64_small by lia.
  reflexivity.
Qed.

Lemma days_in_month_real (y m : Z) :
  1 <= m <= 12 -> 28 <= days_in_month y m <= 31.
Proof.
  intros Hm.
  assert (m = 1 \/ m = 2 \/ m = 3 \/ m = 4 \/ m = 5 \/ m = 6 \/ m = 7 \/
          m = 8 \/ m = 9 \/ m = 10 \/ m = 11 \/ m = 12) as Hcases by lia.
  repeat (destruct Hcases as [-> | Hcases]); [.. | subst m];
    cbv -[leap_year Z.le]; destruct (leap_year y); lia.
Qed.

(** [norm] on a month that is [k] years off. *)
Lemma norm_carry (y m k : Z) :
  0 <= m < 12 -> - lastWholeYear <= k <= lastWholeYear ->
  0 <= y <= lastWholeYear ->
  time.norm y (m + 12 * k) 12 = (y + k, m).
Proof.
  intros Hm Hk Hy. clear IsNumber_table.
  unfold time.norm, lastWholeYear in *.
  destruct (Z.ltb_spec (m + 12 * k) 0) as [Hneg | Hpos].
  - assert (Hq : Z.quot (- (m + 12 * k) - 1) 12 = - k - 1).
    { rewrite Z.quot_div_nonneg by lia.
      symmetry. apply (Z.div_unique _ _ _ (11 - m)); lia. }
    rewrite (wrap_int_small (- (m + 12 * k))) by (unfold minInt, maxInt; lia).
    rewrite (wrap_int_small (- (m + 12 * k) - 1)) by (unfold minInt, maxInt; lia).
    rewrite Hq.
    rewrite (wrap_int_small (- k - 1 + 1)) by (unfold minInt, maxInt; lia).
    rewrite (wrap_int_small (_ * 12)) by (unfold minInt, maxInt; lia).
    rewrite !wrap_int_small by (unfold minInt, maxInt; lia).
    replace (m + 12 * k + (- k - 1 + 1) * 12) with m by lia.
    destruct (Z.geb_spec m 12); [lia |].
    rewrite ?wrap_int_small by (unfold minInt, maxInt; lia). f_equal; lia.
  - destruct (Z.geb_spec (m + 12 * k) 12) as [Hge | Hlt].
    + assert (Hq : Z.quot (m + 12 * k) 12 = k).
      { rewrite Z.quot_div_nonneg by lia.
        symmetry. apply (Z.div_unique _ _ _ m); lia. }
      rewrite Hq.
      rewrite (wrap_int_small (k * 12)) by (unfold minInt, maxInt; lia).
      rewrite !wrap_int_small by (unfold minInt, maxInt; lia).
      f_equal; lia.
    + assert (k = 0) by lia. subst k. f_equal; lia.
Qed.

(** What [Validate] looks at when the month is [k] years off, or the
    day, up to 31, is one the month lacks: [time.Date] brings the month
    into the year [k] years on, and a day the month lacks into the next
    month; [Validate] judges the date that comes out. *)
Lemma Validate_normalises (y m d k : Z) :
  2010 <= y <= now_year -> y <= lastWholeYear ->
  2010 <= y + k <= lastWholeYear ->
  1 <= m <= 12 -> 1 <= d <= 31 ->
  Validate {| Year := y; Month := m + 12 * k; Day := d |}
  = if d <=? days_in_month (y + k) m
    then (if weekend (calendar_weekday (y + k) m d)
          then Some ErrWeekend else None)
    else (if weekend (calendar_weekday (y + k) (m + 1)
                        (d - days_in_month (y + k) m))
          then Some ErrWeekend else None).
Proof.
  intros Hy Hlast Hyk Hm Hd.
  pose proof (days_in_month_real (y + k) m Hm) as Hdim.
  rewrite Validate_cases. cbn [Year Month Day].
  replace ((y >? now_year) || (y <? 2010)) with false
    by (symmetry; apply orb_false_iff; lia).
  replace ((d <? 1) || (d >? 31)) with false
    by (symmetry; apply orb_false_iff; lia).
  assert (Eyear : time.Date y (m + 12 * k) d = time.Date (y + k) m d).
  { unfold time.Date, lastWholeYear in *.
    rewrite (wrap_int_small (m + 12 * k - 1)) by (unfold minInt, maxInt; lia).
    rewrite (wrap_int_small (m - 1)) by (unfold minInt, maxInt; lia).
    replace (m + 12 * k - 1) with (m - 1 + 12 * k) by lia.
    rewrite norm_carry by (unfold lastWholeYear; lia).
    rewrite norm_in_range by lia.
    reflexivity. }
  rewrite Eyear.
  destruct (Z.leb_spec d (days_in_month (y + k) m)) as [Hhas | Hlacks].
  - rewrite (Weekday_calendar (y + k) m d) by (unfold real_date; lia).
    reflexivity.
  - assert (Hm11 : m <= 11).
    { destruct (Z.eq_dec m 12) as [-> | Hne]; [| lia].
      change (days_in_month (y + k) 12) with 31 in Hlacks. lia. }
    pose proof (days_in_month_real (y + k) (m + 1) ltac:(lia)) as Hnext.
    assert (Eday : time.Date (y + k) m d
                   = time.Date (y + k) (m + 1) (d - days_in_month (y + k) m)).
    { rewrite (Date_days (y + k) m d) by lia.
      rewrite (Date_days (y + k) (m + 1) (d - days_in_month (y + k) m)) by lia.
      replace (Z.to_nat (m + 1 - 1)) with (S (Z.to_nat (m - 1))) by lia.
      rewrite days_in_months_snoc.
      replace (1 + Z.of_nat (Z.to_nat (m - 1))) with m by lia.
      f_equal. lia. }
    rewrite Eday.
    rewrite (Weekday_calendar (y + k) (m + 1) (d - days_in_month (y + k) m))
      by (unfold real_date; lia).
    reflexivity.
Qed.

(** C3, as the code has it: [Validate] does not refuse a date that is
    none.  Take a year in [2010, now], a day from 1 to 31, and a month
    that is [k] years off ([k] other than 0: there is no such month) or
    lacks that day: this is no date of the calendar, and what [Validate]
    answers is the verdict on the date [time.Date] normalises it to,
    [k] years on and, for a day the month lacks, that many days into the
    next month.  It passes when that date is a Monday to Friday, and the
    only error it can get is the one of the weekend, not the one of an
    invalid date. *)
Theorem Validate_unreal_date (y m d k : Z) :
  2010 <= y <= now_year -> now_year <= lastWholeYear ->
  2010 <= y + k <= lastWholeYear ->
  1 <= m <= 12 -> 1 <= d <= 31 ->
  k <> 0 \/ days_in_month y m < d ->
  ~ real_date y (m + 12 * k) d
  /\ (d <= days_in_month (y + k) m ->
      Validate {| Year := y; Month := m + 12 * k; Day := d |}
      = if weekend (calendar_weekday (y + k) m d)
        then Some ErrWeekend else None)
  /\ (days_in_month (y + k) m < d ->
      Validate {| Year := y; Month := m + 12 * k; Day := d |}
      = if weekend (calendar_weekday (y + k) (m + 1)
                      (d - days_in_month (y + k) m))
        then Some ErrWeekend else None)
  /\ (forall err,
        Validate {| Year := y; Month := m + 12 * k; Day := d |} = Some err ->
        classify err = WeekendUnavailable).
Proof.
  intros Hy Hnow Hyk Hm Hd Hunreal.
  pose proof (Validate_normalises y m d k Hy ltac:(lia) Hyk Hm Hd) as E.
  split.
  - unfold real_date. destruct Hunreal as [Hk | Hday]; [lia |].
    destruct (Z.eq_dec k 0) as [-> | Hk]; [| lia].
    replace (m + 12 * 0) with m by lia. lia.
  - split; [| split].
    + intros Hhas. rewrite E.
      destruct (Z.leb_spec d (days_in_month (y + k) m)); [reflexivity | lia].
    + intros Hlacks. rewrite E.
      destruct (Z.leb_spec d (days_in_month (y + k) m)); [lia | reflexivity].
    + intros err Herr. rewrite E in Herr.
      destruct (d <=? days_in_month (y + k) m);
        destruct (weekend _); try discriminate Herr;
        injection Herr as <-; reflexivity.
Qed.

(** X6: a day up to 31 that the month does not have is not refused: the
    date is judged as the day of the next month that many days after the
    month's last one (30 February 2024 as 1 March 2024). *)
Theorem Validate_day_carry (y m d : Z) :
  2010 <= y <= lastWholeYear -> 1 <= m <= 11 ->
  days_in_month y m < d <= 31 ->
  Validate {| Year := y; Month := m; Day := d |}
  = Validate {| Year := y; Month := m + 1; Day := d - days_in_month y m |}.
Proof.
  intros Hy Hm Hd.
  pose proof (days_in_month_bound y m) as Hdim.
  rewrite !Validate_cases. cbn [Year Month Day].
  destruct ((y >? now_year) || (y <? 2010)); [reflexivity |].
  replace ((d <? 1) || (d >? 31)) with false by (symmetry; apply orb_false_iff; lia).
  replace ((d - days_in_month y m <? 1) || (d - days_in_month y m >? 31))
    with false by (symmetry; apply orb_false_iff; lia).
  rewrite (Date_days y m d) by lia.
  rewrite (Date_days y (m + 1) (d - days_in_month y m)) by lia.
  replace (Z.to_nat (m + 1 - 1)) with (S (Z.to_nat (m - 1))) by lia.
  rewrite days_in_months_snoc.
  replace (1 + Z.of_nat (Z.to_nat (m - 1))) with m by lia.
  replace (time.daysSinceEpoch y
           + (days_in_months y 1 (Z.to_nat (m - 1)) + days_in_month y m)
           + (d - days_in_month y m - 1))
    with (time.daysSinceEpoch y + days_in_months y 1 (Z.to_nat (m - 1)) + (d - 1))
    by lia.
  reflexivity.
Qed.

(** X7: a month outside 1 to 12 is not refused.  With the year in range,
    the month is brought into 1 to 12 by whole years, and the answer is
    the one for the weekday of that other date; the year it falls in is
    not checked again. *)
Theorem Validate_month_carry (y m d k : Z) :
  2010 <= y <= now_year -> y <= lastWholeYear ->
  2010 <= y + k <= lastWholeYear ->
  real_date (y + k) m d ->
  Validate {| Year := y; Month := m + 12 * k; Day := d |}
  = if weekend (calendar_weekday (y + k) m d) then Some ErrWeekend else None.
Proof.
  intros Hy Hlast Hyk Hreal.
  pose proof (days_in_month_bound (y + k) m) as Hdim.
  rewrite Validate_cases. cbn [Year Month Day].
  replace ((y >? now_year) || (y <? 2010)) with false
    by (symmetry; apply orb_false_iff; lia).
  replace ((d <? 1) || (d >? 31)) with false
    by (symmetry; apply orb_false_iff; unfold real_date in Hreal; lia).
  rewrite <- (Weekday_calendar (y + k) m d Hreal Hyk).
  assert (E : time.Date y (m + 12 * k) d = time.Date (y + k) m d).
  { unfold time.Date, real_date, lastWholeYear in *.
    rewrite (wrap_int_small (m + 12 * k - 1)) by (unfold minInt, maxInt; lia).
    rewrite (wrap_int_small (m - 1)) by (unfold minInt, maxInt; lia).
    replace (m + 12 * k - 1) with (m - 1 + 12 * k) by lia.
    rewrite norm_carry by (unfold lastWholeYear; lia).
    rewrite norm_in_range by lia.
    reflexivity. }
  rewrite E. reflexivity.
Qed.

(** ** The address as the key of the cache *)

Lemma string_app_inv_head (a b c : string) : a ++ b = a ++ c -> b = c.
Proof.
  induction a as [| x a IH]; intros H.
  - exact H.
  - rewrite !string_app_cons in H. injection H as H. exact (IH H).
Qed.

Lemma digit_char_inj (a b : Z) :
  0 <= a < 10 -> 0 <= b < 10 ->
  ascii_of_N (Z.to_N (48 + a)) = ascii_of_N (Z.to_N (48 + b)) -> a = b.
Proof.
  intros Ha Hb H. apply (f_equal N_of_ascii) in H.
  rewrite !N_ascii_embedding in H by lia. lia.
Qed.

Lemma decimal_2_inj (a b : Z) (s t : string) :
  0 <= a <= 99 -> 0 <= b <= 99 ->
  decimal 2 a ++ s = decimal 2 b ++ t -> a = b /\ s = t.
Proof.
  intros Ha Hb H. clear now_year IsNumber_table Sprintf_other netClient_Get.
  unfold decimal in H.
  rewrite !string_app_cons in H.
  change (10 ^ Z.of_nat 1) with 10 in H. change (10 ^ Z.of_nat 0) with 1 in H.
  injection H as H1 H0 H.
  apply digit_char_inj in H1; [| apply Z.mod_pos_bound; lia ..].
  apply digit_char_inj in H0; [| apply Z.mod_pos_bound; lia ..].
  split; [| exact H].
  rewrite !Z.div_1_r in H0.
  Z.div_mod_to_equations. lia.
Qed.

Lemma decimal_4_inj (a b : Z) (s t : string) :
  0 <= a <= 9999 -> 0 <= b <= 9999 ->
  decimal 4 a ++ s = decimal 4 b ++ t -> a = b /\ s = t.
Proof.
  intros Ha Hb H. clear now_year IsNumber_table Sprintf_other netClient_Get.
  unfold decimal in H.
  rewrite !string_app_cons in H.
  change (10 ^ Z.of_nat 3) with 1000 in H. change (10 ^ Z.of_nat 2) with 100 in H.
  change (10 ^ Z.of_nat 1) with 10 in H. change (10 ^ Z.of_nat 0) with 1 in H.
  injection H as H3 H2 H1 H0 H.
  apply digit_char_inj in H3; [| apply Z.mod_pos_bound; lia ..].
  apply digit_char_inj in H2; [| apply Z.mod_pos_bound; lia ..].
  apply digit_char_inj in H1; [| apply Z.mod_pos_bound; lia ..].
  apply digit_char_inj in H0; [| apply Z.mod_pos_bound; lia ..].
  split; [| exact H].
  rewrite !Z.div_1_r in H0.
  Z.div_mod_to_equations. lia.
Qed.

(** The address of a date that passes, for a list with one of the two
    prefixes. *)
Lemma dataURL_valid (mlist : MoverList) (prefix : string) (d : Date) :
  (forall y m dd,
      Sprintf mlist [y; m; dd]
      = prefix ++ fmt.fmtInteger false None y
        ++ fmt.fmtInteger true (Some 2%nat) m
        ++ fmt.fmtInteger true (Some 2%nat) dd ++ template_suffix) ->
  Validate d = None -> 0 <= Month d <= 99 -> now_year <= 9999 ->
  2010 <= Year d <= 9999 /\ 1 <= Day d <= 31
  /\ dataURL mlist d
     = (prefix ++ decimal 4 (Year d) ++ decimal 2 (Month d)
        ++ decimal 2 (Day d) ++ template_suffix, None).
Proof.
  intros Hfmt E Hm Hnow.
  assert (Hrange : 2010 <= Year d <= now_year /\ 1 <= Day d <= 31).
  { rewrite Validate_cases in E.
    destruct (Z.gtb_spec (Year d) now_year), (Z.ltb_spec (Year d) 2010);
      cbn [orb] in E; try discriminate E.
    destruct (Z.ltb_spec (Day d) 1), (Z.gtb_spec (Day d) 31);
      cbn [orb] in E; try discriminate E.
    lia. }
  split; [lia |]. split; [lia |].
  unfold dataURL. rewrite E, Hfmt.
  rewrite fmtInteger_four_digits by lia.
  rewrite !fmtInteger_two_digits by lia.
  reflexivity.
Qed.

Lemma prefixes_differ (s t : string) : gainers_prefix ++ s <> losers_prefix ++ t.
Proof.
  unfold gainers_prefix, losers_prefix.
  rewrite !string_app_cons. intros H.
  repeat match type of H with
         | String ?a _ = String ?a _ => injection H as H
         end.
  discriminate H.
Qed.

(** C9, as the code has it: [dataURL] makes a locator for a date that
    is none.  Take a year in [2010, now], a day from 1 to 31, and a month
    of at most two digits that is [k] years off ([k] other than 0) or
    lacks that day; when the date it normalises to is a Monday to
    Friday, [dataURL] returns no error and the template of the list with
    the digits of the year, the month and the day as they were given in
    place of its verbs: the locator of a page that does not exist. *)
Theorem dataURL_unreal_date (y m d k : Z) :
  2010 <= y <= now_year -> now_year <= 9999 -> 2010 <= y + k ->
  1 <= m <= 12 -> 1 <= d <= 31 -> 0 <= m + 12 * k <= 99 ->
  k <> 0 \/ days_in_month y m < d ->
  (d <= days_in_month (y + k) m ->
   weekend (calendar_weekday (y + k) m d) = false) ->
  (days_in_month (y + k) m < d ->
   weekend (calendar_weekday (y + k) (m + 1)
              (d - days_in_month (y + k) m)) = false) ->
  ~ real_date y (m + 12 * k) d
  /\ dataURL USCompositeGainers {| Year := y; Month := m + 12 * k; Day := d |}
     = (gainers_prefix ++ decimal 4 y ++ decimal 2 (m + 12 * k) ++ decimal 2 d
        ++ template_suffix, None)
  /\ dataURL USCompositeLosers {| Year := y; Month := m + 12 * k; Day := d |}
     = (losers_prefix ++ decimal 4 y ++ decimal 2 (m + 12 * k) ++ decimal 2 d
        ++ template_suffix, None).
Proof.
  intros Hy Hnow Hyk Hm Hd Hmonth Hunreal Hhas Hlacks.
  pose proof (Validate_normalises y m d k Hy
                ltac:(unfold lastWholeYear; lia)
                ltac:(unfold lastWholeYear; lia) Hm Hd) as E.
  assert (Hpass : Validate {| Year := y; Month := m + 12 * k; Day := d |} = None).
  { rewrite E. destruct (Z.leb_spec d (days_in_month (y + k) m)) as [H | H].
    - rewrite (Hhas H). reflexivity.
    - rewrite (Hlacks H). reflexivity. }
  split.
  - unfold real_date. destruct Hunreal as [Hk | Hday]; [lia |].
    destruct (Z.eq_dec k 0) as [-> | Hk]; [| lia].
    replace (m + 12 * 0) with m by lia. lia.
  - split.
    + apply (dataURL_valid USCompositeGainers gainers_prefix
               {| Year := y; Month := m + 12 * k; Day := d |}
               Sprintf_gainers Hpass Hmonth Hnow).
    + apply (dataURL_valid USCompositeLosers losers_prefix
               {| Year := y; Month := m + 12 * k; Day := d |}
               Sprintf_losers Hpass Hmonth Hnow).
Qed.

(** X8: the addresses tell the requests apart.  For the two lists of the
    package and dates that pass [Validate], with months of at most two
    digits and the year of the clock of at most four, equal addresses
    come from the same list and the same date; so two such requests share
    an entry of the cache only when they are the same request. *)
Theorem dataURL_injective (l1 l2 : MoverList) (d1 d2 : Date) :
  now_year <= 9999 ->
  l1 = USCompositeGainers \/ l1 = USCompositeLosers ->
  l2 = USCompositeGainers \/ l2 = USCompositeLosers ->
  Validate d1 = None -> Validate d2 = None ->
  0 <= Month d1 <= 99 -> 0 <= Month d2 <= 99 ->
  dataURL l1 d1 = dataURL l2 d2 ->
  l1 = l2 /\ d1 = d2.
Proof.
  intros Hnow Hl1 Hl2 E1 E2 Hm1 Hm2 H.
  assert (Hsame : forall prefix,
             prefix ++ decimal 4 (Year d1) ++ decimal 2 (Month d1)
               ++ decimal 2 (Day d1) ++ template_suffix
             = prefix ++ decimal 4 (Year d2) ++ decimal 2 (Month d2)
               ++ decimal 2 (Day d2) ++ template_suffix ->
             2010 <= Year d1 <= 9999 -> 1 <= Day d1 <= 31 ->
             2010 <= Year d2 <= 9999 -> 1 <= Day d2 <= 31 ->
             d1 = d2).
  { intros prefix Hp Hy1 Hd1 Hy2 Hd2.
    apply string_app_inv_head in Hp.
    apply decimal_4_inj in Hp; [| lia ..]. destruct Hp as [Ey Hp].
    apply decimal_2_inj in Hp; [| lia ..]. destruct Hp as [Em Hp].
    apply decimal_2_inj in Hp; [| lia ..]. destruct Hp as [Ed _].
    destruct d1, d2. cbn [Year Month Day] in *. congruence. }
  destruct Hl1 as [-> | ->], Hl2 as [-> | ->].
  - destruct (dataURL_valid _ _ d1 Sprintf_gainers E1 Hm1 Hnow) as [Hy1 [Hd1 U1]].
    destruct (dataURL_valid _ _ d2 Sprintf_gainers E2 Hm2 Hnow) as [Hy2 [Hd2 U2]].
    rewrite U1, U2 in H. apply (f_equal fst) in H. cbn [fst] in H.
    split; [reflexivity | exact (Hsame _ H Hy1 Hd1 Hy2 Hd2)].
  - destruct (dataURL_valid _ _ d1 Sprintf_gainers E1 Hm1 Hnow) as [Hy1 [Hd1 U1]].
    destruct (dataURL_valid _ _ d2 Sprintf_losers E2 Hm2 Hnow) as [Hy2 [Hd2 U2]].
    rewrite U1, U2 in H. apply (f_equal fst) in H. cbn [fst] in H.
    destruct (prefixes_differ _ _ H).
  - destruct (dataURL_valid _ _ d1 Sprintf_losers E1 Hm1 Hnow) as [Hy1 [Hd1 U1]].
    destruct (dataURL_valid _ _ d2 Sprintf_gainers E2 Hm2 Hnow) as [Hy2 [Hd2 U2]].
    rewrite U1, U2 in H. apply (f_equal fst) in H. cbn [fst] in H.
    symmetry in H. destruct (prefixes_differ _ _ H).
  - destruct (dataURL_valid _ _ d1 Sprintf_losers E1 Hm1 Hnow) as [Hy1 [Hd1 U1]].
    destruct (dataURL_valid _ _ d2 Sprintf_losers E2 Hm2 Hnow) as [Hy2 [Hd2 U2]].
    rewrite U1, U2 in H. apply (f_equal fst) in H. cbn [fst] in H.
    split; [reflexivity | exact (Hsame _ H Hy1 Hd1 Hy2 Hd2)].
Qed.

(** ** Mutual exclusion and progress of calls running together *)

Lemma holders_insert (P : pc -> bool) (gs : list goroutine) (i : nat)
  (g g' : goroutine) :
  gs !! i = Some g ->
  (holders P (<[i := g']> gs) + (if P (g_pc g) then 1 else 0)
   = holders P gs + (if P (g_pc g') then 1 else 0))%nat.
Proof.
  revert i. induction gs as [| h gs IH]; intros i Hi.
  - discriminate Hi.
  - destruct i as [| i].
    + injection Hi as ->. cbn [holders]. change (<[0%nat := g']> (g :: gs)) with (g' :: gs).
      cbn [holders]. lia.
    + change (<[S i := g']> (h :: gs)) with (h :: <[i := g']> gs).
      cbn [holders]. specialize (IH i Hi). lia.
Qed.

Lemma holders_exists (P : pc -> bool) (gs : list goroutine) :
  (1 <= holders P gs)%nat ->
  exists i g, gs !! i = Some g /\ P (g_pc g) = true.
Proof.
  induction gs as [| h gs IH]; cbn [holders]; intros H.
  - lia.
  - destruct (P (g_pc h)) eqn:E.
    + exists 0%nat, h. split; [reflexivity | exact E].
    + destruct (IH ltac:(lia)) as [i [g [Hi Hg]]].
      exists (S i), g. split; [exact Hi | exact Hg].
Qed.

Lemma entry_locked_entry_for (addr a : string) (m : gmap string cached) :
  entry_locked a (snd (entry_for addr m)) = entry_locked a m.
Proof.
  unfold entry_for, entry_locked.
  destruct (m !! addr) as [val |] eqn:E; cbn [snd]; [reflexivity |].
  destruct (decide (addr = a)) as [<- | Hne].
  - rewrite lookup_insert_eq, E. reflexivity.
  - rewrite lookup_insert_ne by exact Hne. reflexivity.
Qed.

Lemma entry_locked_set (b : bool) (addr a : string) (m : gmap string cached)
  (val : cached) :
  m !! addr = Some val ->
  entry_locked a (set_entry_lock b addr m)
  = if String.eqb addr a then b else entry_locked a m.
Proof.
  intros E. rewrite (set_entry_lock_lookup b addr m val E). unfold entry_locked.
  destruct (String.eqb_spec addr a) as [<- | Hne].
  - rewrite lookup_insert_eq. reflexivity.
  - rewrite lookup_insert_ne by exact Hne. reflexivity.
Qed.

(** A statement of [Get] keeps the account of the mutexes. *)
Lemma step_locks_held (st st' : State) (i : nat) :
  step st i = Some st' -> locks_held st -> locks_held st'.
Proof.
  intros Hstep [Hc He]. unfold step in Hstep.
  destruct (st_goroutines st !! i) as [g |] eqn:Hg; [| discriminate Hstep].
  destruct (transition _ _ _ _ _) as [[[c reqs] p] |] eqn:Ht; [| discriminate Hstep].
  injection Hstep as <-. unfold locks_held. cbn [st_cache st_goroutines].
  pose proof (holders_insert holds_cache _ i g (set_pc g p) Hg) as Kc.
  pose proof (fun addr => holders_insert (holds_entry addr) _ i g (set_pc g p) Hg) as Ke.
  cbn [set_pc g_pc] in Kc, Ke.
  destruct st as [[l m] rs gs]. cbn [st_cache st_requests st_goroutines] in *.
  cbn [cache_locked cache_data] in *.
  destruct (g_pc g) as [| | addr | addr | addr | addr | addr before | r] eqn:Hpc;
    cbn [transition cache_locked cache_data] in Ht.
  - (* c.Lock() *)
    destruct l; [discriminate Ht |]. injection Ht as <- <- <-.
    cbn [cache_locked cache_data holds_cache holds_entry] in *.
    split; [lia |]. intros addr. specialize (Ke addr). specialize (He addr). lia.
  - (* dataURL and the map *)
    destruct (dataURL (g_list g) (g_date g)) as [addr [err |]];
      injection Ht as <- <- <-;
      cbn [cache_locked cache_data holds_cache holds_entry snd] in *.
    + split; [destruct l; lia |].
      intros a. specialize (Ke a). specialize (He a). lia.
    + split; [lia |].
      intros a. specialize (Ke a). specialize (He a).
      rewrite entry_locked_entry_for. lia.
  - (* val.Lock() *)
    destruct (m !! addr) as [val |] eqn:E; [| discriminate Ht].
    destruct (cached_locked val) eqn:Hfree; [discriminate Ht |].
    injection Ht as <- <- <-.
    cbn [cache_locked cache_data holds_cache holds_entry] in *.
    split; [lia |].
    intros a. specialize (Ke a). specialize (He a).
    rewrite (entry_locked_set true addr a m val E).
    destruct (String.eqb_spec addr a) as [<- | Hne].
    * unfold entry_locked in He. rewrite E, Hfree in He. lia.
    * lia.
  - (* c.Unlock() *)
    injection Ht as <- <- <-.
    cbn [cache_locked cache_data holds_cache holds_entry] in *.
    split; [destruct l; lia |].
    intros a. specialize (Ke a). specialize (He a). lia.
  - (* len(val.data) > 0 *)
    destruct (m !! addr) as [val |] eqn:E; [| discriminate Ht].
    destruct (0 <? length (cached_data val))%nat; injection Ht as <- <- <-;
      cbn [cache_locked cache_data holds_cache holds_entry] in *.
    + split; [lia |].
      intros a. specialize (Ke a). specialize (He a).
      rewrite (entry_locked_set false addr a m val E).
      destruct (String.eqb_spec addr a) as [<- | Hne].
      * destruct (entry_locked addr m); lia.
      * lia.
    + split; [lia |].
      intros a. specialize (Ke a). specialize (He a). lia.
  - (* netClient.Get *)
    injection Ht as <- <- <-.
    cbn [cache_locked cache_data holds_cache holds_entry] in *.
    split; [lia |].
    intros a. specialize (Ke a). specialize (He a). lia.
  - (* the response, and the deferred val.Unlock() *)
    injection Ht as <- <- <-.
    cbn [cache_locked cache_data holds_cache holds_entry] in *.
    split; [lia |].
    intros a. specialize (Ke a). specialize (He a).
    destruct (m !! addr) as [val |] eqn:E.
    + rewrite (entry_locked_set false addr a m val E).
      destruct (String.eqb_spec addr a) as [<- | Hne].
      * destruct (entry_locked addr m); lia.
      * lia.
    + unfold set_entry_lock. rewrite E.
      destruct (String.eqb_spec addr a) as [<- | Hne].
      * unfold entry_locked in He. rewrite E in He. lia.
      * lia.
  - discriminate Ht.
Qed.

Lemma start_locks_held (calls : list (MoverList * Date)) : locks_held (start calls).
Proof.
  assert (G : forall P, P AtCacheLock = false ->
            holders P (st_goroutines (start calls)) = 0%nat).
  { intros P HP. unfold start. cbn [st_goroutines].
    induction calls as [| c calls IH]; [reflexivity |].
    cbn [map holders g_pc]. rewrite HP, IH. reflexivity. }
  split.
  - rewrite G by reflexivity. reflexivity.
  - intros addr. rewrite G by reflexivity.
    unfold start, entry_locked. cbn [st_cache cache_data].
    rewrite lookup_empty. reflexivity.
Qed.

Lemma run_locks_held (schedule : list nat) :
  forall st st', run schedule st = Some st' -> locks_held st -> locks_held st'.
Proof.
  induction schedule as [| i rest IH]; intros st st' E Hst; cbn [run] in E.
  - injection E as <-. exact Hst.
  - destruct (step st i) as [st1 |] eqn:Hstep; [| discriminate E].
    apply (IH st1 st' E). apply (step_locks_held st st1 i Hstep Hst).
Qed.

(** X11: mutual exclusion.  Whatever the calls and however they are
    scheduled, at most one goroutine is between [c.Lock()] and
    [c.Unlock()], and for each address at most one is between
    [val.Lock()] and its return; so at most one request for an address is
    in flight at a time. *)
Theorem Get_mutual_exclusion (calls : list (MoverList * Date))
  (schedule : list nat) (st : State) :
  run schedule (start calls) = Some st ->
  (holders holds_cache (st_goroutines st) <= 1)%nat
  /\ forall addr, (holders (holds_entry addr) (st_goroutines st) <= 1)%nat.
Proof.
  intros Hrun.
  destruct (run_locks_held schedule _ _ Hrun (start_locks_held calls)) as [Hc He].
  split.
  - rewrite Hc. destruct (cache_locked _); lia.
  - intros addr. rewrite He. destruct (entry_locked _ _); lia.
Qed.

Lemma can_move_transition (st : State) (i : nat) (g : goroutine)
  (next : cache * list string * pc) :
  st_goroutines st !! i = Some g ->
  transition (g_list g) (g_date g) (g_pc g) (st_cache st) (st_requests st)
  = Some next ->
  can_move st i = true.
Proof.
  intros Hg Ht. unfold can_move, step. rewrite Hg, Ht.
  destruct next as [[c reqs] p]. reflexivity.
Qed.

Lemma start_entries_present (calls : list (MoverList * Date)) :
  entries_present (start calls).
Proof.
  intros j g Hj a Ha. unfold start in Hj. cbn [st_goroutines] in Hj.
  rewrite list_lookup_fmap in Hj.
  destruct (calls !! j) as [call |]; [| discriminate Hj].
  injection Hj as <-. discriminate Ha.
Qed.

(** The goroutine that holds the mutex of an entry can take a step. *)
Lemma entry_holder_moves (st : State) (addr : string) :
  locks_held st -> entries_present st ->
  entry_locked addr (cache_data (st_cache st)) = true ->
  exists j, can_move st j = true.
Proof.
  intros [_ He] Hpresent Hlocked.
  specialize (He addr). rewrite Hlocked in He.
  destruct (holders_exists _ _ ltac:(rewrite He; lia)) as [j [h [Hj Hh]]].
  exists j.
  destruct (g_pc h) as [| | a | a | a | a | a before | r] eqn:Hpc;
    try discriminate Hh.
  - eapply can_move_transition; [exact Hj | rewrite Hpc; reflexivity].
  - destruct (Hpresent j h Hj a) as [val Hval]; [rewrite Hpc; reflexivity |].
    destruct (0 <? length (cached_data val))%nat eqn:Hlen.
    + eapply can_move_transition; [exact Hj |].
      rewrite Hpc. cbn [transition]. rewrite Hval, Hlen. reflexivity.
    + eapply can_move_transition; [exact Hj |].
      rewrite Hpc. cbn [transition]. rewrite Hval, Hlen. reflexivity.
  - eapply can_move_transition; [exact Hj | rewrite Hpc; reflexivity].
  - eapply can_move_transition; [exact Hj | rewrite Hpc; reflexivity].
Qed.

(** The goroutine that holds the mutex of the cache can take a step, or
    waits for an entry whose holder can. *)
Lemma cache_holder_moves (st : State) (i : nat) (g : goroutine) :
  locks_held st -> entries_present st ->
  st_goroutines st !! i = Some g -> holds_cache (g_pc g) = true ->
  exists j, can_move st j = true.
Proof.
  intros Hlocks Hpresent Hg Hh.
  destruct (g_pc g) as [| | a | a | a | a | a before | r] eqn:Hpc;
    try discriminate Hh.
  - exists i. destruct (dataURL (g_list g) (g_date g)) as [addr [err |]] eqn:Hurl.
    + eapply can_move_transition; [exact Hg |].
      rewrite Hpc. cbn [transition]. rewrite Hurl. reflexivity.
    + eapply can_move_transition; [exact Hg |].
      rewrite Hpc. cbn [transition]. rewrite Hurl. reflexivity.
  - destruct (Hpresent i g Hg a) as [val Hval]; [rewrite Hpc; reflexivity |].
    destruct (cached_locked val) eqn:Hfree.
    + apply (entry_holder_moves st a Hlocks Hpresent).
      unfold entry_locked. rewrite Hval. exact Hfree.
    + exists i. eapply can_move_transition; [exact Hg |].
      rewrite Hpc. cbn [transition]. rewrite Hval, Hfree. reflexivity.
  - exists i. eapply can_move_transition; [exact Hg | rewrite Hpc; reflexivity].
Qed.

(** X12: no deadlock.  Whatever the calls and however they have been
    scheduled so far, as long as one of them has not returned some
    goroutine can take a step: the two kinds of mutex are always taken in
    the same order, the cache's first. *)
Theorem Get_no_deadlock (calls : list (MoverList * Date))
  (schedule : list nat) (st : State) (i : nat) (g : goroutine) :
  run schedule (start calls) = Some st ->
  st_goroutines st !! i = Some g -> unfinished g = true ->
  exists j, can_move st j = true.
Proof.
  intros Hrun Hg Hunf.
  pose proof (run_locks_held schedule _ _ Hrun (start_locks_held calls)) as Hlocks.
  pose proof (run_entries_present schedule _ _ Hrun (start_entries_present calls))
    as Hpresent.
  unfold unfinished in Hunf.
  destruct (g_pc g) as [| | a | a | a | a | a before | r] eqn:Hpc;
    try discriminate Hunf.
  - destruct (cache_locked (st_cache st)) eqn:Hl.
    + pose proof (proj1 Hlocks) as Hc. rewrite Hl in Hc.
      destruct (holders_exists _ _ ltac:(rewrite Hc; lia)) as [j [h [Hj Hh]]].
      apply (cache_holder_moves st j h Hlocks Hpresent Hj Hh).
    + exists i. eapply can_move_transition; [exact Hg |].
      rewrite Hpc. cbn [transition]. rewrite Hl. reflexivity.
  - apply (cache_holder_moves st i g Hlocks Hpresent Hg). rewrite Hpc. reflexivity.
  - apply (cache_holder_moves st i g Hlocks Hpresent Hg). rewrite Hpc. reflexivity.
  - apply (cache_holder_moves st i g Hlocks Hpresent Hg). rewrite Hpc. reflexivity.
  - destruct (Hpresent i g Hg a) as [val Hval]; [rewrite Hpc; reflexivity |].
    exists i.
    destruct (0 <? length (cached_data val))%nat eqn:Hlen.
    + eapply can_move_transition; [exact Hg |].
      rewrite Hpc. cbn [transition]. rewrite Hval, Hlen. reflexivity.
    + eapply can_move_transition; [exact Hg |].
      rewrite Hpc. cbn [transition]. rewrite Hval, Hlen. reflexivity.
  - exists i. eapply can_move_transition; [exact Hg | rewrite Hpc; reflexivity].
  - exists i. eapply can_move_transition; [exact Hg | rewrite Hpc; reflexivity].
Qed.

(** ** The handlers *)

Lemma is_digit_range (c : ascii) :
  strconv.is_digit c = true -> 48 <= byte_val c <= 57.
Proof. unfold strconv.is_digit. intros H. apply andb_true_iff in H. lia. Qed.

Lemma split_sign_digit (c : ascii) (rest : string) :
  strconv.is_digit c = true ->
  strconv.split_sign (String c rest) = (false, String c rest).
Proof.
  destruct c as [[] [] [] [] [] [] [] []]; intros H;
    first [discriminate H | reflexivity].
Qed.

(** A string of one to four digits, as [Atoi] reads it. *)
Lemma Atoi_digits (s : string) (n : Z) :
  strconv.digits_from 0 s = Some n -> 0 <= n <= 9999 ->
  (exists c rest, s = String c rest /\ strconv.is_digit c = true) ->
  strconv_Atoi s = (n, None).
Proof.
  intros Hn Hrange [c [rest [-> Hc]]].
  unfold strconv_Atoi, strconv.Atoi.
  rewrite (split_sign_digit c rest Hc), Hn.
  replace ((minInt <=? n) && (n <=? maxInt)) with true; [reflexivity |].
  symmetry. apply andb_true_iff. unfold minInt, maxInt. lia.
Qed.

Lemma year_pattern_Atoi (s : string) :
  year_pattern s = true ->
  exists y, strconv_Atoi s = (y, None) /\ 2000 <= y <= 2099.
Proof.
  intros H.
  destruct s as [| c0 s]; [discriminate H |].
  destruct c0 as [[] [] [] [] [] [] [] []]; try discriminate H.
  destruct s as [| c1 s]; [discriminate H |].
  destruct c1 as [[] [] [] [] [] [] [] []]; try discriminate H.
  destruct s as [| a [| b [| ? ?]]]; try discriminate H.
  cbn [year_pattern] in H. apply andb_true_iff in H. destruct H as [Ha Hb].
  pose proof (is_digit_range a Ha). pose proof (is_digit_range b Hb).
  exists (2000 + (byte_val a - 48) * 10 + (byte_val b - 48)).
  split; [| lia].
  apply Atoi_digits; [| lia | eexists; eexists; split; reflexivity].
  cbn [strconv.digits_from]. rewrite Ha, Hb.
  change (strconv.is_digit "2") with true. change (strconv.is_digit "0") with true.
  cbv iota. f_equal. change (byte_val "2") with 50. change (byte_val "0") with 48. lia.
Qed.

Lemma month_pattern_Atoi (s : string) :
  month_pattern s = true ->
  exists m, strconv_Atoi s = (m, None) /\ 0 <= m <= 19.
Proof.
  intros H.
  destruct s as [| a [| b [| ? ?]]]; try discriminate H.
  - cbn [month_pattern] in H. pose proof (is_digit_range a H).
    exists (byte_val a - 48). split; [| lia].
    apply Atoi_digits; [| lia | eexists; eexists; split; [reflexivity | exact H]].
    cbn [strconv.digits_from]. rewrite H. f_equal.
  - cbn [month_pattern] in H. apply andb_true_iff in H. destruct H as [Ha Hb].
    pose proof (is_digit_range b Hb).
    assert (Ha' : strconv.is_digit a = true /\ 48 <= byte_val a <= 49).
    { apply orb_true_iff in Ha. destruct Ha as [Ha | Ha];
        apply Ascii.eqb_eq in Ha; subst a; split; (reflexivity || (vm_compute; split; discriminate)). }
    destruct Ha' as [Hda Hra].
    exists ((byte_val a - 48) * 10 + (byte_val b - 48)). split; [| lia].
    apply Atoi_digits; [| lia | eexists; eexists; split; [reflexivity | exact Hda]].
    cbn [strconv.digits_from]. rewrite Hda, Hb. f_equal.
Qed.

Lemma day_pattern_Atoi (s : string) :
  day_pattern s = true ->
  exists d, strconv_Atoi s = (d, None) /\ 0 <= d <= 39.
Proof.
  intros H.
  destruct s as [| a [| b [| ? ?]]]; try discriminate H.
  - cbn [day_pattern] in H. pose proof (is_digit_range a H).
    exists (byte_val a - 48). split; [| lia].
    apply Atoi_digits; [| lia | eexists; eexists; split; [reflexivity | exact H]].
    cbn [strconv.digits_from]. rewrite H. f_equal.
  - cbn [day_pattern] in H. apply andb_true_iff in H. destruct H as [Ha Hb].
    apply andb_true_iff in Ha.
    pose proof (is_digit_range b Hb).
    assert (Hda : strconv.is_digit a = true).
    { unfold strconv.is_digit. apply andb_true_iff. lia. }
    exists ((byte_val a - 48) * 10 + (byte_val b - 48)). split; [| lia].
    apply Atoi_digits; [| lia | eexists; eexists; split; [reflexivity | exact Hda]].
    cbn [strconv.digits_from]. rewrite Hda, Hb. f_equal.
Qed.

(** A routed request passes the three conversions, and each handler goes
    on with the date the request names. *)
Lemma routed_respond (vars : gmap string string) (w : http.ResponseWriter)
  (g : World) :
  routed vars = true ->
  (2000 <= Year (requested vars) <= 2099
   /\ 0 <= Month (requested vars) <= 19
   /\ 0 <= Day (requested vars) <= 39)
  /\ handleGainers vars w g = respond USCompositeGainers (requested vars) w g
  /\ handleLosers vars w g = respond USCompositeLosers (requested vars) w g.
Proof.
  intros H. unfold routed in H.
  apply andb_true_iff in H. destruct H as [H Hd].
  apply andb_true_iff in H. destruct H as [Hy Hm].
  destruct (year_pattern_Atoi _ Hy) as [y [Ey Ry]].
  destruct (month_pattern_Atoi _ Hm) as [m [Em Rm]].
  destruct (day_pattern_Atoi _ Hd) as [d [Ed Rd]].
  unfold requested, handleGainers, handleLosers, respond, NewDate.
  rewrite Ey, Em, Ed. cbn [fst Year Month Day].
  repeat split; try lia.
Qed.

Lemma ParseFloat_finite (s : string) (f : spec_float) :
  strconv.ParseFloat s = inl f -> json.finite f = true.
Proof.
  unfold strconv.ParseFloat.
  destruct (strconv.split_sign s) as [neg body].
  destruct (strconv.mantissa body 0 0 false false) as [[m scale] |]; [| discriminate].
  destruct (strconv.nearest_float64 neg m scale); intros H;
    first [discriminate H | injection H as <-; reflexivity].
Qed.

Lemma trToStock_encodable (row : goquery.Node) (s : Stock) :
  trToStock row = inl s -> json.encodable s = true.
Proof.
  unfold trToStock. intros H.
  destruct (negb _); [discriminate H |].
  destruct (negb _); [discriminate H |].
  destruct (strconv.Atoi _); [| discriminate H].
  destruct (strconv.ParseFloat _) as [price |] eqn:Hprice; [| discriminate H].
  destruct (strconv.ParseFloat (nth 4 _ _)) as [pct |] eqn:Hpct; [| discriminate H].
  injection H as <-. unfold json.encodable. cbn [Price PctChange].
  rewrite (ParseFloat_finite _ _ Hprice), (ParseFloat_finite _ _ Hpct). reflexivity.
Qed.

Lemma convert_rows_encodable (rows : list goquery.Node) :
  forall acc,
    forallb json.encodable acc = true ->
    forallb json.encodable (fst (convert_rows rows acc)) = true.
Proof.
  induction rows as [| row rest IH]; intros acc Hacc; cbn [convert_rows].
  - exact Hacc.
  - destruct (trToStock row) as [s | err] eqn:E; [| exact Hacc].
    apply IH. rewrite forallb_app, Hacc. cbn [forallb].
    rewrite (trToStock_encodable row s E). reflexivity.
Qed.

Lemma parseTable_encodable (data : goquery.Reader) (stocks : list Stock)
  (err : option error) :
  parseTable data = Returns (stocks, err) -> forallb json.encodable stocks = true.
Proof.
  unfold parseTable.
  destruct (goquery.NewDocumentFromReader data) as [doc | e].
  - destruct (goquery.Slice_ToEnd 1 _) as [rows | msg]; [| discriminate].
    rewrite EachWithBreak_convert_rows. intros H. injection H as H.
    pose proof (convert_rows_encodable rows [] eq_refl) as K.
    rewrite H in K. exact K.
  - intros H. injection H as <- _. reflexivity.
Qed.

(** No record [Get] returns holds an infinity or a NaN, as long as the
    entries of the cache hold none. *)
Lemma Get_encodable (mlist : MoverList) (d : Date) (g : World)
  (stocks : list Stock) (err : option error) :
  all_empty (entries g) ->
  fst (Get mlist d g) = Returns (stocks, err) ->
  forallb json.encodable stocks = true.
Proof.
  intros Hg. unfold Get.
  destruct (dataURL mlist d) as [addr [e |]].
  - cbn [fst]. intros H. injection H as <- _. reflexivity.
  - destruct (entry_for_all_empty addr (entries g) Hg) as [Hval _].
    destruct (entry_for addr (entries g)) as [val m]. cbn [fst] in Hval.
    rewrite Hval. cbn [length Nat.ltb Nat.leb fst].
    unfold read_response.
    destruct (netClient_Get (requests g) addr) as [msg | status body].
    + intros H. injection H as <- _. reflexivity.
    + destruct (negb (status =? 200)).
      * intros H. injection H as <- _. reflexivity.
      * apply parseTable_encodable.
Qed.

Lemma Get_invalid (mlist : MoverList) (d : Date) (g : World) (err : error) :
  Validate d = Some err -> Get mlist d g = (Returns ([], Some err), g).
Proof. intros E. unfold Get, dataURL. rewrite E. reflexivity. Qed.

Lemma handlers_respond (mlist : MoverList)
  (h : gmap string string -> http.ResponseWriter -> World -> reply * World)
  (vars : gmap string string) (w : http.ResponseWriter) (g : World) :
  In (mlist, h) handlers -> routed vars = true ->
  h vars w g = respond mlist (requested vars) w g.
Proof.
  intros Hin Hvars.
  destruct (routed_respond vars w g Hvars) as [_ [Hg Hl]].
  destruct Hin as [E | [E | []]]; injection E as <- <-; assumption.
Qed.

(** X15: a routed request for a date that fails [Validate] is answered
    with status 400 and the header of a plain text; the handler does not
    stop there: it calls [Get], which fails in the same way without a
    request to the remote server, so the body holds the text of the
    error twice, and then the encoding of no records. *)
Theorem handler_invalid_date (mlist : MoverList)
  (h : gmap string string -> http.ResponseWriter -> World -> reply * World)
  (vars : gmap string string) (g : World) (err : error) :
  In (mlist, h) handlers -> routed vars = true ->
  Validate (requested vars) = Some err ->
  exists w,
    h vars http.fresh g = (Completed w, g)
    /\ http.rw_status w = Some http.StatusBadRequest
    /\ http.rw_sent w !! "Content-Type" = Some "text/plain; charset=utf-8"
    /\ http.rw_body w
       = [http.ErrorLine err; http.ErrorLine err; http.JSONLine []].
Proof.
  intros Hin Hvars E.
  rewrite (handlers_respond mlist h vars _ g Hin Hvars).
  unfold respond. rewrite E, (Get_invalid mlist _ g err E).
  eexists. split; [reflexivity |].
  split; [reflexivity |]. split; [vm_compute; reflexivity | reflexivity].
Qed.

(** X16: a routed request that [Get] answers without an error is
    answered with status 200, the header of a JSON document, and the
    encoding of the records [Get] returned, whatever the getter has
    served before. *)
Theorem handler_ok (mlist : MoverList)
  (h : gmap string string -> http.ResponseWriter -> World -> reply * World)
  (vars : gmap string string) (g g' : World) (stocks : list Stock) :
  In (mlist, h) handlers -> routed vars = true -> reachable g ->
  Get mlist (requested vars) g = (Returns (stocks, None), g') ->
  exists w,
    h vars http.fresh g = (Completed w, g')
    /\ http.rw_status w = Some http.StatusOK
    /\ http.rw_sent w !! "Content-Type" = Some "application/json"
    /\ http.rw_body w = [http.JSONLine stocks].
Proof.
  intros Hin Hvars Hg E.
  rewrite (handlers_respond mlist h vars _ g Hin Hvars).
  unfold respond.
  destruct (Validate (requested vars)) as [err |] eqn:Hv.
  { rewrite (Get_invalid mlist _ g err Hv) in E. discriminate E. }
  pose proof (Get_encodable mlist (requested vars) g stocks None
                (reachable_all_empty g Hg)) as Henc.
  rewrite E in *. specialize (Henc eq_refl).
  unfold json.Encode. rewrite Henc.
  eexists. split; [reflexivity |].
  split; [reflexivity |]. split; [vm_compute; reflexivity | reflexivity].
Qed.

(** X17: a routed request for a date that passes [Validate] but that
    [Get] fails on is answered with status 424 and the header of a plain
    text; the body holds the text of the error and then, as the handler
    does not stop, the encoding of the records converted before the
    failure. *)
Theorem handler_failed_dependency (mlist : MoverList)
  (h : gmap string string -> http.ResponseWriter -> World -> reply * World)
  (vars : gmap string string) (g g' : World) (stocks : list Stock) (err : error) :
  In (mlist, h) handlers -> routed vars = true -> reachable g ->
  Validate (requested vars) = None ->
  Get mlist (requested vars) g = (Returns (stocks, Some err), g') ->
  exists w,
    h vars http.fresh g = (Completed w, g')
    /\ http.rw_status w = Some http.StatusFailedDependency
    /\ http.rw_sent w !! "Content-Type" = Some "text/plain; charset=utf-8"
    /\ http.rw_body w = [http.ErrorLine err; http.JSONLine stocks].
Proof.
  intros Hin Hvars Hg Hv E.
  rewrite (handlers_respond mlist h vars _ g Hin Hvars).
  unfold respond. rewrite Hv.
  pose proof (Get_encodable mlist (requested vars) g stocks (Some err)
                (reachable_all_empty g Hg))
    as Henc.
  rewrite E in *. specialize (Henc eq_refl).
  unfold json.Encode. rewrite Henc.
  eexists. split; [reflexivity |].
  split; [reflexivity |]. split; [vm_compute; reflexivity | reflexivity].
Qed.

(** X18: a routed request on which [Get] panics gets no answer: the
    handler is left before anything has been sent. *)
Theorem handler_panics (mlist : MoverList)
  (h : gmap string string -> http.ResponseWriter -> World -> reply * World)
  (vars : gmap string string) (g g' : World) (msg : string) :
  In (mlist, h) handlers -> routed vars = true ->
  Get mlist (requested vars) g = (Panics msg, g') ->
  h vars http.fresh g = (Aborted http.fresh msg, g').
Proof.
  intros Hin Hvars E.
  rewrite (handlers_respond mlist h vars _ g Hin Hvars).
  unfold respond.
  destruct (Validate (requested vars)) as [err |] eqn:Hv.
  { rewrite (Get_invalid mlist _ g err Hv) in E. discriminate E. }
  rewrite E. reflexivity.
Qed.

(** ** What a call leaves behind *)

(** X9: [Get] never removes or changes an entry of the cache, and the
    only entry it adds is the one for the address of its own request,
    which is there afterwards whenever the date passes: the map grows by
    one entry per address asked for and is never emptied. *)
Theorem Get_cache_grows (mlist : MoverList) (d : Date) (w : World) :
  let w' := snd (Get mlist d w) in
  (forall a val, entries w !! a = Some val -> entries w' !! a = Some val)
  /\ (forall addr, dataURL mlist d = (addr, None) -> is_Some (entries w' !! addr))
  /\ (forall a, is_Some (entries w' !! a) ->
                is_Some (entries w !! a) \/ dataURL mlist d = (a, None)).
Proof.
  cbv zeta. unfold Get.
  destruct (dataURL mlist d) as [addr [err |]] eqn:Hurl.
  - cbn [snd]. repeat split.
    + intros a val H. exact H.
    + intros a H. discriminate H.
    + intros a H. left. exact H.
  - assert (Hm : (forall a val, entries w !! a = Some val ->
                                snd (entry_for addr (entries w)) !! a = Some val)
                 /\ is_Some (snd (entry_for addr (entries w)) !! addr)
                 /\ (forall a, is_Some (snd (entry_for addr (entries w)) !! a) ->
                               is_Some (entries w !! a) \/ a = addr)).
    { unfold entry_for. destruct (entries w !! addr) as [val |] eqn:E; cbn [snd].
      - repeat split.
        + intros a v H. exact H.
        + rewrite E. eexists. reflexivity.
        + intros a H. left. exact H.
      - repeat split.
        + intros a v H. destruct (decide (addr = a)) as [<- | Hne].
          * rewrite E in H. discriminate H.
          * rewrite lookup_insert_ne by exact Hne. exact H.
        + rewrite lookup_insert_eq. eexists. reflexivity.
        + intros a H. destruct (decide (addr = a)) as [<- | Hne].
          * right. reflexivity.
          * left. rewrite lookup_insert_ne in H by exact Hne. exact H. }
    destruct (entry_for addr (entries w)) as [val m]. cbn [snd] in Hm.
    destruct Hm as [Hkept [Hthere Honly]].
    assert (G : (forall a v, entries w !! a = Some v -> m !! a = Some v)
                /\ (forall a0, (addr, @None error) = (a0, None) -> is_Some (m !! a0))
                /\ (forall a, is_Some (m !! a) ->
                              is_Some (entries w !! a) \/ (addr, @None error) = (a, None))).
    { repeat split.
      - exact Hkept.
      - intros a0 H. injection H as <-. exact Hthere.
      - intros a H. destruct (Honly a H) as [K | ->]; [left; exact K | right; reflexivity]. }
    destruct (0 <? length (cached_data val))%nat; cbn [snd entries]; exact G.
Qed.

Lemma Get_all_free (mlist : MoverList) (d : Date) (w : World) :
  (forall a v, entries w !! a = Some v -> cached_locked v = false) ->
  forall a v, entries (snd (Get mlist d w)) !! a = Some v -> cached_locked v = false.
Proof.
  intros Hw. unfold Get.
  destruct (dataURL mlist d) as [addr [err |]]; [exact Hw |].
  assert (Hm : forall a v, snd (entry_for addr (entries w)) !! a = Some v ->
                           cached_locked v = false).
  { unfold entry_for. destruct (entries w !! addr) as [val |] eqn:E; cbn [snd].
    - exact Hw.
    - intros a v H. destruct (decide (addr = a)) as [<- | Hne].
      + rewrite lookup_insert_eq in H. injection H as <-. reflexivity.
      + rewrite lookup_insert_ne in H by exact Hne. apply (Hw a v H). }
  destruct (entry_for addr (entries w)) as [val m]. cbn [snd] in Hm.
  destruct (0 <? length (cached_data val))%nat; exact Hm.
Qed.

(** X14: a call of [Get] that runs with every mutex free and no other
    call beside it returns within seven statements, also when it panics;
    it returns what the function [Get] of one call at a time returns,
    and leaves every mutex free again. *)
Theorem Get_alone_returns (mlist : MoverList) (d : Date) (c : cache)
  (reqs : list string) :
  all_free c ->
  exists c' reqs' r,
    run_alone 7 mlist d AtCacheLock c reqs = (c', reqs', Finished r)
    /\ all_free c'
    /\ Get mlist d {| entries := cache_data c; requests := reqs |}
       = (r, {| entries := cache_data c'; requests := reqs' |}).
Proof.
  intros Hfree.
  pose proof (Get_run_alone mlist d c reqs Hfree) as H. cbv zeta in H.
  pose proof (Get_all_free mlist d {| entries := cache_data c; requests := reqs |}
                (proj2 Hfree)) as Hafter.
  destruct (Get mlist d {| entries := cache_data c; requests := reqs |})
    as [r [m rs]] eqn:E.
  cbn [fst snd entries requests] in H, Hafter.
  exists {| cache_locked := false; cache_data := m |}, rs, r.
  split; [exact H |]. split; [| reflexivity].
  split; [reflexivity | exact Hafter].
Qed.

(** ** Every call returns *)

Lemma work_left_insert (gs : list goroutine) (i : nat) (g g' : goroutine) :
  gs !! i = Some g ->
  (work_left (<[i := g']> gs) + statements_left (g_pc g)
   = work_left gs + statements_left (g_pc g'))%nat.
Proof.
  revert i. induction gs as [| h gs IH]; intros i Hi.
  - discriminate Hi.
  - destruct i as [| i].
    + injection Hi as ->. change (<[0%nat := g']> (g :: gs)) with (g' :: gs).
      cbn [work_left]. lia.
    + change (<[S i := g']> (h :: gs)) with (h :: <[i := g']> gs).
      cbn [work_left]. specialize (IH i Hi). lia.
Qed.

(** Each statement brings the goroutine that runs it closer to its
    return. *)
Lemma transition_statements_left (mlist : MoverList) (d : Date) (p p' : pc)
  (c c' : cache) (reqs reqs' : list string) :
  transition mlist d p c reqs = Some (c', reqs', p') ->
  (statements_left p' < statements_left p)%nat.
Proof.
  destruct p as [| | addr | addr | addr | addr | addr before | r];
    cbn [transition]; intros H.
  - destruct (cache_locked c); [discriminate H |]. injection H as _ _ <-. cbn. lia.
  - destruct (dataURL mlist d) as [addr [err |]]; injection H as _ _ <-; cbn; lia.
  - destruct (cache_data c !! addr) as [val |]; [| discriminate H].
    destruct (cached_locked val); [discriminate H |]. injection H as _ _ <-. cbn. lia.
  - injection H as _ _ <-. cbn. lia.
  - destruct (cache_data c !! addr) as [val |]; [| discriminate H].
    destruct (0 <? length (cached_data val))%nat; injection H as _ _ <-; cbn; lia.
  - injection H as _ _ <-. cbn. lia.
  - injection H as _ _ <-. cbn. lia.
  - discriminate H.
Qed.

Lemma run_work_left (schedule : list nat) :
  forall st st',
    run schedule st = Some st' ->
    (length schedule + work_left (st_goroutines st')
     <= work_left (st_goroutines st))%nat.
Proof.
  induction schedule as [| i rest IH]; intros st st' E; cbn [run] in E.
  - injection E as <-. cbn [length]. lia.
  - destruct (step st i) as [st1 |] eqn:Hstep; [| discriminate E].
    specialize (IH st1 st' E). unfold step in Hstep.
    destruct (st_goroutines st !! i) as [g |] eqn:Hg; [| discriminate Hstep].
    destruct (transition _ _ _ _ _) as [[[c reqs] p] |] eqn:Ht; [| discriminate Hstep].
    injection Hstep as <-. cbn [st_goroutines] in IH.
    pose proof (work_left_insert _ i g (set_pc g p) Hg) as K.
    pose proof (transition_statements_left _ _ _ _ _ _ _ _ Ht) as L.
    cbn [set_pc g_pc] in K. cbn [length]. lia.
Qed.

(** X13: the calls come to an end.  However the goroutines of [n] calls
    are scheduled, they run at most [7 * n] statements of [Get] between
    them: no call runs for ever, and with the progress shown above each
    one returns. *)
Theorem Get_terminates (calls : list (MoverList * Date)) (schedule : list nat)
  (st : State) :
  run schedule (start calls) = Some st ->
  (length schedule <= 7 * length calls)%nat.
Proof.
  intros Hrun. pose proof (run_work_left schedule _ _ Hrun) as H.
  assert (E : work_left (st_goroutines (start calls)) = (7 * length calls)%nat).
  { clear. unfold start. cbn [st_goroutines].
    induction calls as [| c calls IH]; [reflexivity |].
    cbn [map work_left g_pc statements_left length]. rewrite IH. lia. }
  lia.
Qed.

(** X19: what the router lets through.  The variables of a routed
    request pass the three conversions, so the three checks of their
    errors never fire; and they name a year from 2000 to 2099, a month
    from 0 to 19 and a day from 0 to 39, more than there are in the
    calendar. *)
Theorem routed_date_range (vars : gmap string string) :
  routed vars = true ->
  strconv_Atoi (var vars "year") = (Year (requested vars), None)
  /\ strconv_Atoi (var vars "month") = (Month (requested vars), None)
  /\ strconv_Atoi (var vars "day") = (Day (requested vars), None)
  /\ 2000 <= Year (requested vars) <= 2099
  /\ 0 <= Month (requested vars) <= 19
  /\ 0 <= Day (requested vars) <= 39.
Proof.
  intros H. unfold routed in H.
  apply andb_true_iff in H. destruct H as [H Hd].
  apply andb_true_iff in H. destruct H as [Hy Hm].
  destruct (year_pattern_Atoi _ Hy) as [y [Ey Ry]].
  destruct (month_pattern_Atoi _ Hm) as [m [Em Rm]].
  destruct (day_pattern_Atoi _ Hd) as [d [Ed Rd]].
  unfold requested. rewrite Ey, Em, Ed. cbn [fst Year Month Day].
  repeat split; lia.
Qed.

End Package.

(** * The code on concrete inputs *)

(** The clock stands in 2026; pages are ASCII; the server answers every
    request with the page of Acme. *)
Local Abbreviation Validate' := (Validate 2026).
Local Abbreviation NewDate' := (NewDate 2026).
Local Abbreviation dataURL' := (dataURL 2026 Examples.no_other_format).
Local Abbreviation parseTable' := (parseTable Examples.ascii_only).
Local Abbreviation Get' :=
  (Get 2026 Examples.ascii_only Examples.no_other_format Examples.acme_server).
Local Abbreviation run' :=
  (run 2026 Examples.ascii_only Examples.no_other_format Examples.acme_server).
Local Abbreviation can_move' :=
  (can_move 2026 Examples.ascii_only Examples.no_other_format Examples.acme_server).

(** Witness of C8: 15 March 2021, a Monday, is accepted as it is. *)
Lemma NewDate_real_date_witness :
  NewDate' 2021 3 15 = (Examples.monday, None).
Proof.
  exact (NewDate_real_date 2026 2021 3 15
           ltac:(unfold real_date, days_in_month; lia)
           ltac:(lia)
           ltac:(unfold lastWholeYear; lia)).
Defined.

(** And 13 March 2021, a Saturday, is refused as a weekend. *)
Example NewDate_saturday :
  NewDate' 2021 3 13
  = ({| Year := 2021; Month := 3; Day := 13 |}, Some ErrWeekend).
Proof. vm_compute. reflexivity. Qed.

(** Witness of C3: 30 February 2021 is no date of the calendar and
    passes validation, as 2 March 2021, a Tuesday; and so does the first
    day of month 13 of 2025, as 1 January 2026, a Thursday. *)
Lemma Validate_unreal_date_witness :
  (~ real_date 2021 2 30 /\ Validate' Examples.february_30 = None)
  /\ (~ real_date 2025 13 1
      /\ Validate' {| Year := 2025; Month := 13; Day := 1 |} = None).
Proof.
  split.
  - destruct (Validate_unreal_date 2026 2021 2 30 0
                ltac:(lia)
                ltac:(unfold lastWholeYear; lia)
                ltac:(unfold lastWholeYear; lia)
                ltac:(lia) ltac:(lia)
                ltac:(right; vm_compute; reflexivity))
      as [Hunreal [_ [Hlacks _]]].
    split; [exact Hunreal |].
    exact (Hlacks ltac:(vm_compute; reflexivity)).
  - destruct (Validate_unreal_date 2026 2025 1 1 1
                ltac:(lia)
                ltac:(unfold lastWholeYear; lia)
                ltac:(unfold lastWholeYear; lia)
                ltac:(lia) ltac:(lia)
                ltac:(left; lia))
      as [Hunreal [Hhas _]].
    split; [exact Hunreal |].
    exact (Hhas ltac:(vm_compute; discriminate)).
Defined.

(** So the sentence of the specification does not hold of the code. *)
Lemma february_30_accepted : ~ rejects_unreal_dates 2026.
Proof.
  intros H.
  destruct (H 2021 2 30) as [err [E _]].
  - unfold real_date, days_in_month. vm_compute. intros [_ [_ Hday]].
    apply Hday. reflexivity.
  - vm_compute in E. discriminate E.
Qed.

(** What happens to it: [time.Date] normalises it to 2 March 2021, a
    Tuesday, and nothing compares the result with the components given. *)
Example Validate_accepts_30_February :
  Validate' Examples.february_30 = None
  /\ time.Date 2021 2 30 = time.Date 2021 3 2
  /\ time.Weekday_of (time.Date 2021 3 2) = time.Tuesday
  /\ ~ real_date 2021 2 30.
Proof.
  split; [vm_compute; reflexivity |].
  split; [vm_compute; reflexivity |].
  split; [vm_compute; reflexivity |].
  unfold real_date, days_in_month. vm_compute. intros [_ [_ H]]. apply H. reflexivity.
Qed.

(** The same with a month that is none: month 0 of 2010 passes as
    December 2009, before the first year [Validate] lets through, and
    month 19 of 2026 as July 2027, after the last. *)
Example Validate_accepts_months_0_and_19 :
  Validate' {| Year := 2010; Month := 0; Day := 15 |} = None
  /\ time.Date 2010 0 15 = time.Date 2009 12 15
  /\ Validate' {| Year := 2026; Month := 19; Day := 1 |} = None
  /\ time.Date 2026 19 1 = time.Date 2027 7 1.
Proof. repeat split; vm_compute; reflexivity. Qed.

(** Witness of C9: the locators made for 30 February 2021 and for the
    first day of month 13 of 2025. *)
Lemma dataURL_unreal_date_witness :
  (~ real_date 2021 2 30
   /\ dataURL' USCompositeGainers Examples.february_30
      = ("http://www.wsj.com/mdc/public/page/2_3021-gaincomp-gainer-20210230.html?mod=mdc_pastcalendar",
         None))
  /\ (~ real_date 2025 13 1
      /\ dataURL' USCompositeLosers {| Year := 2025; Month := 13; Day := 1 |}
         = ("http://www.wsj.com/mdc/public/page/2_3021-losecomp-loser-20251301.html?mod=mdc_pastcalendar",
            None)).
Proof.
  split.
  - destruct (dataURL_unreal_date 2026 Examples.no_other_format 2021 2 30 0
                ltac:(lia) ltac:(lia) ltac:(lia) ltac:(lia) ltac:(lia) ltac:(lia)
                ltac:(right; vm_compute; reflexivity)
                ltac:(intros _; vm_compute; reflexivity)
                ltac:(intros _; vm_compute; reflexivity))
      as [Hunreal [Hgainers _]].
    split; [exact Hunreal | exact Hgainers].
  - destruct (dataURL_unreal_date 2026 Examples.no_other_format 2025 1 1 1
                ltac:(lia) ltac:(lia) ltac:(lia) ltac:(lia) ltac:(lia) ltac:(lia)
                ltac:(left; lia)
                ltac:(intros _; vm_compute; reflexivity)
                ltac:(intros _; vm_compute; reflexivity))
      as [Hunreal [_ Hlosers]].
    split; [exact Hunreal | exact Hlosers].
Defined.

(** The other half of C9 holds: the locator of the gainers of Monday 15
    March 2021, and the refusal of Sunday 14 March 2021 with nothing
    substituted. *)
Example dataURL_monday_and_sunday :
  dataURL' USCompositeGainers Examples.monday = (Examples.gainers_monday, None)
  /\ dataURL' USCompositeLosers {| Year := 2021; Month := 3; Day := 14 |}
     = ("", Some ErrWeekend).
Proof. split; vm_compute; reflexivity. Qed.

(** Witness of C7: the page of Acme. *)
Lemma parseTable_acme_witness :
  parseTable' (goquery.Html (Examples.page [Examples.header_row; Examples.acme_row]))
  = Returns ([Examples.acme], None).
Proof.
  exact (proj1 (parseTable_acme Examples.ascii_only
                  (Examples.page [Examples.header_row; Examples.acme_row])
                  Examples.header_row Examples.acme_row
                  ltac:(vm_compute; reflexivity)
                  ltac:(vm_compute; reflexivity))).
Defined.

(** Witness of C4: the page with the row of Acme and then a row of five
    cells.  The error is the column count, and the record of Acme comes
    back with it. *)
Lemma parseTable_short_row_witness :
  parseTable' (goquery.Html (Examples.page [Examples.header_row; Examples.acme_row;
                                            Examples.short_row]))
  = Returns ([Examples.acme], Some (ErrColumns 5))
  /\ classify (ErrColumns 5) = ColumnCountMismatch
  /\ length [Examples.acme] = length [Examples.acme_row].
Proof.
  exact (parseTable_short_row Examples.ascii_only
           (Examples.page [Examples.header_row; Examples.acme_row; Examples.short_row])
           Examples.header_row Examples.short_row [Examples.acme_row] []
           [Examples.acme]
           ltac:(vm_compute; reflexivity)
           ltac:(constructor; [vm_compute; reflexivity | constructor])
           ltac:(vm_compute; discriminate)).
Defined.

(** So the sentence of the specification does not hold of the code: on
    that page a row has five cells, and a record is returned. *)
Lemma short_row_partial_results :
  ~ aborts_without_records Examples.ascii_only
      (Examples.page [Examples.header_row; Examples.acme_row; Examples.short_row]).
Proof.
  intros H.
  destruct H as [err [E _]].
  - exists Examples.short_row. split.
    + vm_compute. right. left. reflexivity.
    + vm_compute. discriminate.
  - vm_compute in E. discriminate E.
Qed.

(** Counterexample to C6 as stated: a row whose price and volume carry a
    minus sign parses, to a negative price and a negative volume. *)
Lemma negative_row_parsed :
  ~ records_nonnegative Examples.ascii_only
      (Examples.page [Examples.header_row; Examples.negative_row]).
Proof.
  intros H.
  specialize (H [{| Ticker := "ACME"; Name := "Acme Corp";
                    Price := S754_finite true 6946802425218990 (-49);
                    PctChange := S754_finite false 6383852471797678 (-50);
                    Volume := -1234 |}]
                ltac:(vm_compute; reflexivity)).
  inversion H as [| ? ? [_ Hvolume] _]. cbn [Volume] in Hvolume. lia.
Qed.

(** Witness of C6 as amended: the page of Acme has no minus sign in a
    price or volume cell. *)
Lemma parseTable_unsigned_witness : Forall nonnegative [Examples.acme].
Proof.
  exact (parseTable_unsigned Examples.ascii_only
           (Examples.page [Examples.header_row; Examples.acme_row])
           [Examples.acme]
           ltac:(constructor; [split; vm_compute; reflexivity | constructor])
           ltac:(vm_compute; reflexivity)).
Defined.

(** Witness of C5: a page with no table. *)
Lemma parseTable_without_table_witness :
  parseTable' (goquery.Html Examples.page_without_table)
  = Panics "runtime error: slice bounds out of range".
Proof.
  exact (parseTable_without_table Examples.ascii_only Examples.page_without_table
           ltac:(vm_compute; reflexivity)).
Defined.

(** Witness of C10: a call for Sunday 14 March 2021 on a new cache. *)
Lemma Get_invalid_date_witness :
  Get' USCompositeGainers {| Year := 2021; Month := 3; Day := 14 |} NewGetter
  = (Returns ([], Some ErrWeekend), NewGetter).
Proof.
  exact (Get_invalid_date 2026 Examples.ascii_only Examples.no_other_format
           Examples.acme_server USCompositeGainers
           {| Year := 2021; Month := 3; Day := 14 |} NewGetter ErrWeekend
           ltac:(vm_compute; reflexivity)).
Defined.

(** Witness of C1: two calls in a row for the gainers of Monday 15 March
    2021.  The first succeeds; the second fetches again. *)
Lemma Get_always_fetches_witness :
  fst (Get' USCompositeGainers Examples.monday NewGetter)
  = Returns ([Examples.acme], None)
  /\ fst (Get' USCompositeGainers Examples.monday
            (snd (Get' USCompositeGainers Examples.monday NewGetter)))
     = Returns ([Examples.acme], None)
  /\ requests (snd (Get' USCompositeGainers Examples.monday
                      (snd (Get' USCompositeGainers Examples.monday NewGetter))))
     = [Examples.gainers_monday; Examples.gainers_monday].
Proof.
  split; [vm_compute; reflexivity |].
  destruct (Get_always_fetches 2026 Examples.ascii_only Examples.no_other_format
              Examples.acme_server USCompositeGainers Examples.monday
              (snd (Get' USCompositeGainers Examples.monday NewGetter))
              ltac:(apply reachable_get; apply reachable_new)
              ltac:(vm_compute; reflexivity)) as [Hresult Hrequests].
  split.
  - rewrite Hresult. vm_compute. reflexivity.
  - rewrite Hrequests. vm_compute. reflexivity.
Defined.

(** C2, as the code has it.  Two calls for the same key that run
    together make two requests: the second waits for the entry while the
    first is in flight, then finds the entry empty and fetches again.
    And with a third call for another key: once the second call waits
    for the entry it still holds the mutex of the cache, so the third
    cannot start until the response of the first has arrived. *)
Theorem calls_together_refetch_and_block :
  let same := [(USCompositeGainers, Examples.monday);
               (USCompositeGainers, Examples.monday)] in
  let three := (same ++ [(USCompositeLosers, Examples.monday)])%list in
  (option_map (fun st => (fetches Examples.gainers_monday (st_requests st),
                          returned st))
     (run' [0; 0; 0; 0; 0; 0; 1; 1; 0; 1; 1; 1; 1; 1]%nat (start same))
   = Some (2%nat,
           [Returns ([Examples.acme], None); Returns ([Examples.acme], None)]))
  /\ (option_map (fun st => (map g_pc (st_goroutines st),
                             [can_move' st 0; can_move' st 1; can_move' st 2]%nat))
        (run' [0; 0; 0; 0; 0; 0; 1; 1]%nat (start three))
      = Some ([InFlight Examples.gainers_monday [];
               AtEntryLock Examples.gainers_monday;
               AtCacheLock],
              [true; false; false])).
Proof.
  split; vm_compute; reflexivity.
Qed.

(** * The further properties on concrete inputs *)

Local Abbreviation handleGainers' :=
  (handleGainers 2026 Examples.ascii_only Examples.no_other_format
                 Examples.acme_server).
Local Abbreviation transition' :=
  (transition 2026 Examples.ascii_only Examples.no_other_format
              Examples.acme_server).
Local Abbreviation run_alone' :=
  (run_alone 2026 Examples.ascii_only Examples.no_other_format
             Examples.acme_server).

(** The page of Acme parses to the record of Acme, row for row. *)
Lemma parseTable_success_iff_witness :
  parseTable' (goquery.Html (Examples.page [Examples.header_row; Examples.acme_row]))
  = Returns ([Examples.acme], None).
Proof.
  apply (parseTable_success_iff Examples.ascii_only
           (Examples.page [Examples.header_row; Examples.acme_row])
           Examples.header_row [Examples.acme_row] [Examples.acme]
           ltac:(vm_compute; reflexivity)).
  constructor; [vm_compute; reflexivity | constructor].
Defined.

(** The page with a row without a ticker after the row of Acme gives the
    record of Acme and the error of the second row; the third row is not
    looked at. *)
Lemma parseTable_failure_iff_witness :
  parseTable' (goquery.Html (Examples.page [Examples.header_row; Examples.acme_row;
                                            Examples.nameless_row; Examples.short_row]))
  = Returns ([Examples.acme], Some (ErrNameTicker 0)).
Proof.
  apply (parseTable_failure_iff Examples.ascii_only
           (Examples.page [Examples.header_row; Examples.acme_row;
                           Examples.nameless_row; Examples.short_row])
           Examples.header_row
           [Examples.acme_row; Examples.nameless_row; Examples.short_row]
           [Examples.acme] (ErrNameTicker 0)
           ltac:(vm_compute; reflexivity)).
  exists [Examples.acme_row], Examples.nameless_row, [Examples.short_row].
  split; [reflexivity |].
  split; [constructor; [vm_compute; reflexivity | constructor] |].
  vm_compute. reflexivity.
Defined.

(** The volume cell [1,234] reaches [Atoi] as [1234]. *)
Lemma cell_text_ascii_witness :
  cell_text Examples.ascii_only 5 (Examples.td "1,234") = "1234".
Proof.
  exact (cell_text_ascii Examples.ascii_only 5 (Examples.td "1,234")
           ltac:(discriminate) ltac:(vm_compute; reflexivity)).
Defined.

(** The price cell [$12.34] reaches [ParseFloat] with digits and a point
    only. *)
Lemma filterNonNumeric_alphabet_witness :
  all_bytes numeric_byte (cell_text Examples.ascii_only 2 (Examples.td "$12.34"))
  = true.
Proof.
  exact (filterNonNumeric_alphabet Examples.ascii_only 2 (Examples.td "$12.34")
           ltac:(discriminate)).
Defined.

(** The row of Acme: the name and the ticker lie in the text of its
    second cell. *)
Lemma trToStock_name_ticker_witness :
  exists cell before sp after,
    cells Examples.acme_row !! 1%nat = Some cell
    /\ goquery.Text cell
       = before ++ ("Acme Corp" ++ String sp (String "(" ("ACME" ++ ")"))) ++ after
    /\ regexp.accepts regexp.Space sp = true
    /\ "Acme Corp" <> "" /\ "ACME" <> ""
    /\ all_bytes (regexp.accepts regexp.Dot) "Acme Corp" = true
    /\ all_bytes (regexp.accepts regexp.Dot) "ACME" = true.
Proof.
  exact (trToStock_name_ticker Examples.ascii_only Examples.acme_row Examples.acme
           ltac:(vm_compute; reflexivity)).
Defined.

(** 30 February 2024 is judged as 1 March 2024. *)
Lemma Validate_day_carry_witness :
  Validate' {| Year := 2024; Month := 2; Day := 30 |}
  = Validate' {| Year := 2024; Month := 3; Day := 1 |}.
Proof.
  exact (Validate_day_carry 2026 2024 2 30
           ltac:(unfold lastWholeYear; lia)
           ltac:(lia)
           ltac:(split; [vm_compute; reflexivity | lia])).
Defined.

(** Month 13 of 2025 is judged as January 2026: its first day, a
    Thursday, passes. *)
Lemma Validate_month_carry_witness :
  Validate' {| Year := 2025; Month := 13; Day := 1 |} = None.
Proof.
  exact (Validate_month_carry 2026 2025 1 1 1
           ltac:(lia)
           ltac:(unfold lastWholeYear; lia)
           ltac:(unfold lastWholeYear; lia)
           ltac:(unfold real_date, days_in_month; cbn; lia)).
Defined.

(** The address of the gainers of Monday 15 March 2021 is the address of
    no other request. *)
Lemma dataURL_injective_witness :
  USCompositeGainers = USCompositeGainers /\ Examples.monday = Examples.monday.
Proof.
  exact (dataURL_injective 2026 Examples.no_other_format
           USCompositeGainers USCompositeGainers Examples.monday Examples.monday
           ltac:(lia)
           ltac:(left; reflexivity) ltac:(left; reflexivity)
           ltac:(vm_compute; reflexivity) ltac:(vm_compute; reflexivity)
           ltac:(cbn; lia) ltac:(cbn; lia)
           ltac:(reflexivity)).
Defined.

(** One call, four statements in: it stands at the test of the entry,
    and goes on to the request. *)
Lemma never_served_from_cache_witness :
  exists st,
    run' [0; 0; 0; 0]%nat (start [(USCompositeGainers, Examples.monday)]) = Some st
    /\ transition' USCompositeGainers Examples.monday
         (AtCheck Examples.gainers_monday) (st_cache st) (st_requests st)
       = Some (st_cache st, st_requests st, AtRequest Examples.gainers_monday).
Proof.
  eexists. split; [vm_compute; reflexivity |].
  exact (never_served_from_cache 2026 Examples.ascii_only Examples.no_other_format
           Examples.acme_server [(USCompositeGainers, Examples.monday)]
           [0; 0; 0; 0]%nat _ 0%nat
           {| g_list := USCompositeGainers; g_date := Examples.monday;
              g_pc := AtCheck Examples.gainers_monday |}
           Examples.gainers_monday
           ltac:(vm_compute; reflexivity)
           ltac:(reflexivity) ltac:(reflexivity)).
Defined.

(** Two calls for one address, the first in flight and the second
    waiting for the entry: one goroutine holds each mutex. *)
Lemma Get_mutual_exclusion_witness :
  exists st,
    run' [0; 0; 0; 0; 0; 0; 1; 1]%nat (start Requests.same) = Some st
    /\ (holders holds_cache (st_goroutines st) <= 1)%nat
    /\ forall addr, (holders (holds_entry addr) (st_goroutines st) <= 1)%nat.
Proof.
  eexists. split; [vm_compute; reflexivity |].
  exact (Get_mutual_exclusion 2026 Examples.ascii_only Examples.no_other_format
           Examples.acme_server Requests.same [0; 0; 0; 0; 0; 0; 1; 1]%nat _
           ltac:(vm_compute; reflexivity)).
Defined.

(** The same with a third call for another address, which cannot start:
    some goroutine can still take a step. *)
Lemma Get_no_deadlock_witness :
  exists st j,
    run' [0; 0; 0; 0; 0; 0; 1; 1]%nat (start Requests.three) = Some st
    /\ can_move' st 2 = false
    /\ can_move' st j = true.
Proof.
  destruct (Get_no_deadlock 2026 Examples.ascii_only Examples.no_other_format
              Examples.acme_server Requests.three [0; 0; 0; 0; 0; 0; 1; 1]%nat
              (default (start Requests.three)
                 (run' [0; 0; 0; 0; 0; 0; 1; 1]%nat (start Requests.three)))
              2%nat
              {| g_list := USCompositeLosers; g_date := Examples.monday;
                 g_pc := AtCacheLock |}
              ltac:(vm_compute; reflexivity)
              ltac:(vm_compute; reflexivity)
              ltac:(reflexivity)) as [j Hj].
  eexists. exists j.
  split; [vm_compute; reflexivity |].
  split; [vm_compute; reflexivity | exact Hj].
Defined.

(** The two calls for one address take fourteen statements between
    them. *)
Lemma Get_terminates_witness :
  (length [0; 0; 0; 0; 0; 0; 1; 1; 0; 1; 1; 1; 1; 1]%nat
   <= 7 * length Requests.same)%nat.
Proof.
  exact (Get_terminates 2026 Examples.ascii_only Examples.no_other_format
           Examples.acme_server Requests.same
           [0; 0; 0; 0; 0; 0; 1; 1; 0; 1; 1; 1; 1; 1]%nat
           (default (start Requests.same)
              (run' [0; 0; 0; 0; 0; 0; 1; 1; 0; 1; 1; 1; 1; 1]%nat
                    (start Requests.same)))
           ltac:(vm_compute; reflexivity)).
Defined.

(** A call alone on a new cache. *)
Lemma Get_alone_returns_witness :
  exists c' reqs' r,
    run_alone' 7 USCompositeGainers Examples.monday AtCacheLock
      {| cache_locked := false; cache_data := ∅ |} []
    = (c', reqs', Finished r)
    /\ all_free c'
    /\ Get' USCompositeGainers Examples.monday {| entries := ∅; requests := [] |}
       = (r, {| entries := cache_data c'; requests := reqs' |}).
Proof.
  apply (Get_alone_returns 2026 Examples.ascii_only Examples.no_other_format
           Examples.acme_server USCompositeGainers Examples.monday
           {| cache_locked := false; cache_data := ∅ |} []).
  split; [reflexivity |].
  intros addr val H. cbn [cache_data] in H. rewrite lookup_empty in H. discriminate H.
Defined.

(** The gainers of Sunday 14 March 2021: status 400, the error twice,
    and the encoding of no records. *)
Lemma handler_invalid_date_witness :
  exists w,
    handleGainers' Requests.sunday http.fresh NewGetter = (Completed w, NewGetter)
    /\ http.rw_status w = Some 400
    /\ http.rw_sent w !! "Content-Type" = Some "text/plain; charset=utf-8"
    /\ http.rw_body w
       = [http.ErrorLine ErrWeekend; http.ErrorLine ErrWeekend; http.JSONLine []].
Proof.
  exact (handler_invalid_date 2026 Examples.ascii_only Examples.no_other_format
           Examples.acme_server USCompositeGainers handleGainers'
           Requests.sunday NewGetter ErrWeekend
           ltac:(left; reflexivity)
           ltac:(vm_compute; reflexivity)
           ltac:(vm_compute; reflexivity)).
Defined.

(** The gainers of Monday 15 March 2021 from the server of Acme. *)
Lemma handler_ok_witness :
  exists w,
    handleGainers' Requests.monday http.fresh NewGetter
    = (Completed w, snd (Get' USCompositeGainers Examples.monday NewGetter))
    /\ http.rw_status w = Some 200
    /\ http.rw_sent w !! "Content-Type" = Some "application/json"
    /\ http.rw_body w = [http.JSONLine [Examples.acme]].
Proof.
  exact (handler_ok 2026 Examples.ascii_only Examples.no_other_format
           Examples.acme_server USCompositeGainers handleGainers'
           Requests.monday NewGetter
           (snd (Get' USCompositeGainers Examples.monday NewGetter))
           [Examples.acme]
           ltac:(left; reflexivity)
           ltac:(vm_compute; reflexivity)
           ltac:(apply reachable_new)
           ltac:(vm_compute; reflexivity)).
Defined.

(** The losers of that Monday from the server whose second row has no
    ticker: status 424, the error, and the record of the first row. *)
Lemma handler_failed_dependency_witness :
  exists w,
    fst (handleLosers 2026 Examples.ascii_only Examples.no_other_format
           Requests.nameless_server Requests.monday http.fresh NewGetter)
    = Completed w
    /\ http.rw_status w = Some 424
    /\ http.rw_body w
       = [http.ErrorLine (ErrNameTicker 0); http.JSONLine [Examples.acme]].
Proof.
  destruct (handler_failed_dependency 2026 Examples.ascii_only
              Examples.no_other_format Requests.nameless_server
              USCompositeLosers
              (handleLosers 2026 Examples.ascii_only Examples.no_other_format
                 Requests.nameless_server)
              Requests.monday NewGetter
              (snd (Get 2026 Examples.ascii_only Examples.no_other_format
                      Requests.nameless_server USCompositeLosers Examples.monday
                      NewGetter))
              [Examples.acme] (ErrNameTicker 0)
              ltac:(right; left; reflexivity)
              ltac:(vm_compute; reflexivity)
              ltac:(apply reachable_new)
              ltac:(vm_compute; reflexivity)
              ltac:(vm_compute; reflexivity)) as [w [E [Hstatus [_ Hbody]]]].
  exists w. rewrite E. split; [reflexivity |]. split; [exact Hstatus | exact Hbody].
Defined.

(** The gainers of that Monday from the server whose page has no table:
    the handler panics with nothing sent. *)
Lemma handler_panics_witness :
  fst (handleGainers 2026 Examples.ascii_only Examples.no_other_format
         Requests.tableless_server Requests.monday http.fresh NewGetter)
  = Aborted http.fresh "runtime error: slice bounds out of range".
Proof.
  rewrite (handler_panics 2026 Examples.ascii_only Examples.no_other_format
             Requests.tableless_server USCompositeGainers
             (handleGainers 2026 Examples.ascii_only Examples.no_other_format
                Requests.tableless_server)
             Requests.monday NewGetter
             (snd (Get 2026 Examples.ascii_only Examples.no_other_format
                     Requests.tableless_server USCompositeGainers Examples.monday
                     NewGetter))
             "runtime error: slice bounds out of range"
             ltac:(left; reflexivity)
             ltac:(vm_compute; reflexivity)
             ltac:(vm_compute; reflexivity)).
  reflexivity.
Defined.

(** The variables of [/gainers/2021-03-15]. *)
Lemma routed_date_range_witness :
  strconv_Atoi (var Requests.monday "year") = (2021, None)
  /\ strconv_Atoi (var Requests.monday "month") = (3, None)
  /\ strconv_Atoi (var Requests.monday "day") = (15, None)
  /\ 2000 <= 2021 <= 2099 /\ 0 <= 3 <= 19 /\ 0 <= 15 <= 39.
Proof.
  exact (routed_date_range Requests.monday ltac:(vm_compute; reflexivity)).
Defined.
